(** * A shallow embedding of the SPH fluid solver

    The development follows the four core modules of the repository:
    [src/core/kernel.py], [src/core/particle.py], [src/core/spatial_hash.py]
    and [src/core/sph_solver.py].

    Numbers.  Python floats and NumPy [float32]/[float64] values are modelled
    by the real numbers [R]: rounding, infinities and NaN are outside the
    model.  Where the source would raise, the model raises the same
    exception; where NumPy would only warn and produce a non-finite value
    (a division by zero between NumPy scalars), the model raises
    [FloatingPointError], because [R] has no such value.

    Effects.  Methods that mutate [self] are computations in a state and
    exception monad [M S]: the state survives an exception, as the Python
    object does.  Read-only helpers live in the exception monad [result].

    Rounding.  Two computations of the solver are discontinuous in their
    operands: the lattice dimension [int(size / spacing)] of the insertion
    helper and the step count [int(duration / self.dt)] of [run].  Module
    [Binary64] evaluates them on IEEE binary64 numbers.  Where a bound on
    a stored value is at stake, the float32 number that the program's
    array holds is described by [stored_as_float32]. *)

From Stdlib Require Import Reals Lra Lia ZArith.
From Stdlib Require Floats.
From stdpp Require Import base option list gmap strings.

Local Open Scope R_scope.

(* ------------------------------------------------------------------ *)
(** ** Exceptions and the two monads *)

Inductive exn : Set :=
  | RuntimeError
  | IndexError
  | ZeroDivisionError
  | OverflowError
  | ValueError
  | TypeError
  | FloatingPointError.

Inductive result (A : Type) : Type :=
  | Ok (a : A)
  | Raise (e : exn).
Arguments Ok {A} a.
Arguments Raise {A} e.

#[global] Instance result_ret : MRet result := fun _ a => Ok a.
#[global] Instance result_bind : MBind result := fun _ _ f r =>
  match r with
  | Ok a => f a
  | Raise e => Raise e
  end.

(** A method of an object of type [S]: it returns a value or raises, and
    leaves the object in some state either way. *)
Definition M (S A : Type) : Type := S -> result A * S.

#[global] Instance M_ret {S} : MRet (M S) := fun _ a s => (Ok a, s).
#[global] Instance M_bind {S} : MBind (M S) := fun _ _ f m s =>
  match m s with
  | (Ok a, s') => f a s'
  | (Raise e, s') => (Raise e, s')
  end.

Definition get {S} : M S S := fun s => (Ok s, s).
Definition modify {S} (f : S -> S) : M S unit := fun s => (Ok tt, f s).
Definition raise {S A} (e : exn) : M S A := fun s => (Raise e, s).
Definition lift {S A} (r : result A) : M S A := fun s => (r, s).

(** Run a method of a sub-object stored in a field of [S]. *)
Definition zoom {S T A} (proj : S -> T) (upd : T -> S -> S) (m : M T A) : M S A :=
  fun s => let '(r, t) := m (proj s) in (r, upd t s).

(** [for a in l: b = f b a], threading the loop-carried variable [b]. *)
Fixpoint foldM {F : Type -> Type} `{!MBind F, !MRet F} {A B}
    (f : B -> A -> F B) (l : list A) (b : B) : F B :=
  match l with
  | [] => mret b
  | a :: l' => b' ← f b a; foldM f l' b'
  end.

Definition forM_ {F : Type -> Type} `{!MBind F, !MRet F} {A}
    (l : list A) (body : A -> F unit) : F unit :=
  foldM (fun _ a => body a) l tt.

(** Normal and exceptional postconditions of a run from [s]. *)
Definition wpe {S A} (m : M S A) (Q : A -> S -> Prop) (E : exn -> S -> Prop)
    (s : S) : Prop :=
  match m s with
  | (Ok a, s') => Q a s'
  | (Raise e, s') => E e s'
  end.

(** Total correctness: the run returns normally and [Q] holds. *)
Definition wp {S A} (m : M S A) (Q : A -> S -> Prop) (s : S) : Prop :=
  wpe m Q (fun _ _ => False) s.

(* ------------------------------------------------------------------ *)
(** ** Numbers, vectors and array access *)

#[global] Instance Rlt_decision (x y : R) : Decision (x < y) := Rlt_dec x y.
#[global] Instance Rgt_decision (x y : R) : Decision (x > y) := Rgt_dec x y.
#[global] Instance Rle_decision (x y : R) : Decision (x <= y) := Rle_dec x y.
#[global] Instance Req_decision : EqDecision R := Req_dec_T.

Abbreviation vec3 := (R * R * R)%type.

Definition vzero : vec3 := (0, 0, 0).
Definition vadd (a b : vec3) : vec3 :=
  let '(ax, ay, az) := a in let '(bx, b_y, bz) := b in (ax + bx, ay + b_y, az + bz).
Definition vsub (a b : vec3) : vec3 :=
  let '(ax, ay, az) := a in let '(bx, b_y, bz) := b in (ax - bx, ay - b_y, az - bz).
(** [c * a] and [a * c] for a scalar [c] and an array [a]. *)
Definition vscale (c : R) (a : vec3) : vec3 :=
  let '(ax, ay, az) := a in (c * ax, c * ay, c * az).
Definition vmul (a : vec3) (c : R) : vec3 :=
  let '(ax, ay, az) := a in (ax * c, ay * c, az * c).

(** [np.linalg.norm] of a 3-vector. *)
Definition norm (a : vec3) : R :=
  let '(ax, ay, az) := a in sqrt (ax * ax + ay * ay + az * az).

(** Division between Python floats raises on a zero divisor. *)
Definition py_div (x y : R) : result R :=
  if decide (y = 0) then Raise ZeroDivisionError else Ok (x / y).

(** Division between NumPy values: a zero divisor gives a non-finite
    value, which the model reports as [FloatingPointError]. *)
Definition np_div (x y : R) : result R :=
  if decide (y = 0) then Raise FloatingPointError else Ok (x / y).

Definition np_vdiv (a : vec3) (y : R) : result vec3 :=
  let '(ax, ay, az) := a in
  if decide (y = 0) then Raise FloatingPointError else Ok (ax / y, ay / y, az / y).

(** Python's [max(a, b)]: [b] when [b > a], else [a]. *)
Definition py_max (a b : R) : R := if decide (b > a) then b else a.

(** [arr[i]] for a non-negative index. *)
Definition getitem {A} (arr : list A) (i : nat) : result A :=
  match arr !! i with
  | Some x => Ok x
  | None => Raise IndexError
  end.

(** [arr[i] = x] for a non-negative index. *)
Definition setitem {A} (arr : list A) (i : nat) (x : A) : result (list A) :=
  if decide (i < length arr)%nat then Ok (<[i := x]> arr) else Raise IndexError.

(** [sum(l)] on numbers. *)
Definition Rsum (l : list R) : R := foldr Rplus 0 l.

(** [np.mean(a)]: on an empty array NumPy warns and gives NaN. *)
Definition np_mean (a : list R) : result R := np_div (Rsum a) (INR (length a)).


(** Boolean-mask indexing [a[mask]]: the rows of [a] whose mask entry is
    true, in order. *)
Fixpoint select {A} (mask : list bool) (a : list A) : list A :=
  match mask, a with
  | b :: mask', x :: a' => if b then x :: select mask' a' else select mask' a'
  | _, _ => []
  end.

(** Boolean-mask assignment [a[mask] = vals]: the rows of [a] whose mask
    entry is true are replaced, in order, by the rows of [vals]; NumPy
    refuses a [vals] with another number of rows. *)
Fixpoint assign_mask {A} (mask : list bool) (a vals : list A) : result (list A) :=
  match mask, a with
  | true :: mask', _ :: a' =>
      match vals with
      | v :: vals' => rest ← assign_mask mask' a' vals'; Ok (v :: rest)
      | [] => Raise ValueError
      end
  | false :: mask', x :: a' => rest ← assign_mask mask' a' vals; Ok (x :: rest)
  | _, _ =>
      match vals with
      | [] => Ok a
      | _ :: _ => Raise ValueError
      end
  end.

(** [w * rows] for weights [w = x.squeeze()], with [x] of shape [(k, 1)],
    and [rows] of shape [(k, 3)].  [squeeze] drops every axis of length
    one.  For [k = 1] the weights become a 0-d scalar, which multiplies
    every entry.  For any other [k] they have shape [(k,)], which NumPy
    aligns with the last axis of [rows], of length 3: for [k = 3] entry
    [(i, j)] is multiplied by [w[j]], the weight of row [j]; otherwise the
    shapes [(k,)] and [(k, 3)] cannot be broadcast and NumPy raises
    [ValueError]. *)
Definition broadcast_mul (w : list R) (rows : list vec3) : result (list vec3) :=
  match w with
  | [w0] => Ok (map (vscale w0) rows)
  | [w0; w1; w2] => Ok (map (fun '(x, y, z) => (w0 * x, w1 * y, w2 * z)) rows)
  | _ => Raise ValueError
  end.

(* ------------------------------------------------------------------ *)
(** ** [src/core/kernel.py] *)

Module SPHKernel.

Definition poly6 (r : vec3) (h : R) : result R :=
  let r_norm := norm r in
  if decide (r_norm > h) then Ok 0
  else
    coef ← py_div 315 (64 * PI * h ^ 9);
    Ok (coef * (h ^ 2 - r_norm ^ 2) ^ 3).

Definition spiky_gradient (r : vec3) (h : R) : result vec3 :=
  let r_norm := norm r in
  if decide (r_norm > h \/ r_norm < 1e-6) then Ok vzero
  else
    coef ← py_div (-45) (PI * h ^ 6);
    np_vdiv (vscale (coef * (h - r_norm) ^ 2) r) r_norm.

Definition viscosity_laplacian (r : vec3) (h : R) : result R :=
  let r_norm := norm r in
  if decide (r_norm > h) then Ok 0
  else
    coef ← py_div 45 (PI * h ^ 6);
    Ok (coef * (h - r_norm)).

(** [poly6] and [viscosity_laplacian] on a scalar distance: the branch
    [r_norm = abs(r)], taken when [r] is not an array. *)
Definition poly6_scalar (r h : R) : result R :=
  let r_norm := Rabs r in
  if decide (r_norm > h) then Ok 0
  else
    coef ← py_div 315 (64 * PI * h ^ 9);
    Ok (coef * (h ^ 2 - r_norm ^ 2) ^ 3).

Definition viscosity_laplacian_scalar (r h : R) : result R :=
  let r_norm := Rabs r in
  if decide (r_norm > h) then Ok 0
  else
    coef ← py_div 45 (PI * h ^ 6);
    Ok (coef * (h - r_norm)).

Definition poly6_gradient (r : vec3) (h : R) : result vec3 :=
  let r_norm := norm r in
  if decide (r_norm > h \/ r_norm < 1e-6) then Ok vzero
  else
    coef ← py_div (-945) (32 * PI * h ^ 9);
    Ok (vscale (coef * (h ^ 2 - r_norm ^ 2) ^ 2) r).

End SPHKernel.

(** The kernels on an array of displacements, one row per pair.  The
    coefficient is computed before any row is looked at. *)
Module VectorizedKernels.

Definition poly6_vectorized (r_vectors : list vec3) (h : R) : result (list R) :=
  let r_norms := map norm r_vectors in
  coef ← py_div 315 (64 * PI * h ^ 9);
  let values := replicate (length r_norms) 0 in
  let mask := map (fun n => bool_decide (n <= h)) r_norms in
  assign_mask mask values
    (map (fun n => coef * (h ^ 2 - n ^ 2) ^ 3) (select mask r_norms)).

(** [r_norms] keeps its second axis here ([keepdims=True]); the weights
    [coef * (h - r_norms[mask].squeeze())**2] lose it again, and with it
    the row alignment, see [broadcast_mul]. *)
Definition spiky_gradient_vectorized (r_vectors : list vec3) (h : R)
    : result (list vec3) :=
  let r_norms := map norm r_vectors in
  coef ← py_div (-45) (PI * h ^ 6);
  let gradients := replicate (length r_vectors) vzero in
  let mask := map (fun n => bool_decide (n <= h) && bool_decide (n > 1e-6)) r_norms in
  if existsb (fun b : bool => b) mask then
    scaled ← broadcast_mul (map (fun n => coef * (h - n) ^ 2) (select mask r_norms))
               (select mask r_vectors);
    rows ← mapM (fun '(row, n) => np_vdiv row n) (zip scaled (select mask r_norms));
    assign_mask mask gradients rows
  else Ok gradients.

Definition viscosity_laplacian_vectorized (r_vectors : list vec3) (h : R)
    : result (list R) :=
  let r_norms := map norm r_vectors in
  coef ← py_div 45 (PI * h ^ 6);
  let values := replicate (length r_norms) 0 in
  let mask := map (fun n => bool_decide (n <= h)) r_norms in
  assign_mask mask values (map (fun n => coef * (h - n)) (select mask r_norms)).

End VectorizedKernels.

(* ------------------------------------------------------------------ *)
(** ** [src/core/particle.py] *)

(** The structure-of-arrays store.  Every array has one row per slot,
    [max_particles] rows in all. *)
Record ParticleSystem : Type := mkParticleSystem {
  max_particles : Z;
  n_particles : nat;
  positions : list vec3;
  velocities : list vec3;
  forces : list vec3;
  masses : list R;
  densities : list R;
  pressures : list R;
  colors : list vec3;
  viscosities : list R
}.

Definition set_n_particles (n : nat) (p : ParticleSystem) : ParticleSystem :=
  mkParticleSystem (max_particles p) n (positions p) (velocities p) (forces p)
    (masses p) (densities p) (pressures p) (colors p) (viscosities p).
Definition set_positions (l : list vec3) (p : ParticleSystem) : ParticleSystem :=
  mkParticleSystem (max_particles p) (n_particles p) l (velocities p) (forces p)
    (masses p) (densities p) (pressures p) (colors p) (viscosities p).
Definition set_velocities (l : list vec3) (p : ParticleSystem) : ParticleSystem :=
  mkParticleSystem (max_particles p) (n_particles p) (positions p) l (forces p)
    (masses p) (densities p) (pressures p) (colors p) (viscosities p).
Definition set_forces (l : list vec3) (p : ParticleSystem) : ParticleSystem :=
  mkParticleSystem (max_particles p) (n_particles p) (positions p) (velocities p) l
    (masses p) (densities p) (pressures p) (colors p) (viscosities p).
Definition set_masses (l : list R) (p : ParticleSystem) : ParticleSystem :=
  mkParticleSystem (max_particles p) (n_particles p) (positions p) (velocities p)
    (forces p) l (densities p) (pressures p) (colors p) (viscosities p).
Definition set_densities (l : list R) (p : ParticleSystem) : ParticleSystem :=
  mkParticleSystem (max_particles p) (n_particles p) (positions p) (velocities p)
    (forces p) (masses p) l (pressures p) (colors p) (viscosities p).
Definition set_pressures (l : list R) (p : ParticleSystem) : ParticleSystem :=
  mkParticleSystem (max_particles p) (n_particles p) (positions p) (velocities p)
    (forces p) (masses p) (densities p) l (colors p) (viscosities p).
Definition set_colors (l : list vec3) (p : ParticleSystem) : ParticleSystem :=
  mkParticleSystem (max_particles p) (n_particles p) (positions p) (velocities p)
    (forces p) (masses p) (densities p) (pressures p) l (viscosities p).
Definition set_viscosities (l : list R) (p : ParticleSystem) : ParticleSystem :=
  mkParticleSystem (max_particles p) (n_particles p) (positions p) (velocities p)
    (forces p) (masses p) (densities p) (pressures p) (colors p) l.

(** [self.field[i] = x]: the field is read with [proj] and written back
    with [upd]; nothing changes when the index is out of range. *)
Definition assign {S A} (proj : S -> list A) (upd : list A -> S -> S)
    (i : nat) (x : A) : M S unit :=
  fun s =>
    match setitem (proj s) i x with
    | Ok l => (Ok tt, upd l s)
    | Raise e => (Raise e, s)
    end.

Module ParticleSystem.

(** [np.zeros] refuses a negative dimension. *)
Definition init (max_particles : Z) : result ParticleSystem :=
  if decide (max_particles < 0)%Z then Raise ValueError
  else
    let n := Z.to_nat max_particles in
    Ok (mkParticleSystem max_particles 0
          (replicate n vzero) (replicate n vzero) (replicate n vzero)
          (replicate n 0) (replicate n 0) (replicate n 0)
          (replicate n vzero) (replicate n (1 * 0.001))).

Definition add_particle (position velocity : vec3) (mass : R) (color : vec3)
    (viscosity : R) : M ParticleSystem nat :=
  self ← get;
  if decide (Z.of_nat (n_particles self) >= max_particles self)%Z
  then raise RuntimeError
  else
    let idx := n_particles self in
    assign positions set_positions idx position;;
    assign velocities set_velocities idx velocity;;
    assign masses set_masses idx mass;;
    assign colors set_colors idx color;;
    assign viscosities set_viscosities idx viscosity;;
    assign densities set_densities idx 0;;
    assign pressures set_pressures idx 0;;
    assign forces set_forces idx (0, 0, 0);;
    modify (fun self => set_n_particles (n_particles self + 1) self);;
    mret idx.

(** [self.field[dst] = self.field[src]]. *)
Definition copy_row {A} (proj : ParticleSystem -> list A)
    (upd : list A -> ParticleSystem -> ParticleSystem) (dst src : nat)
    : M ParticleSystem unit :=
  self ← get;
  x ← lift (getitem (proj self) src);
  assign proj upd dst x.

(** [remove_particle] for a non-negative index. *)
Definition remove_particle (index : nat) : M ParticleSystem unit :=
  self ← get;
  if decide (n_particles self <= index)%nat then mret tt
  else
    let last_idx := (n_particles self - 1)%nat in
    (if decide (index <> last_idx) then
       copy_row positions set_positions index last_idx;;
       copy_row velocities set_velocities index last_idx;;
       copy_row forces set_forces index last_idx;;
       copy_row masses set_masses index last_idx;;
       copy_row densities set_densities index last_idx;;
       copy_row pressures set_pressures index last_idx;;
       copy_row colors set_colors index last_idx;;
       copy_row viscosities set_viscosities index last_idx
     else (mret tt : M ParticleSystem unit));;
    modify (fun self => set_n_particles (n_particles self - 1) self).

Definition get_positions (self : ParticleSystem) : list vec3 :=
  take (n_particles self) (positions self).

Definition get_velocities (self : ParticleSystem) : list vec3 :=
  take (n_particles self) (velocities self).

(** The class invariant set up by [init]: every array has
    [max_particles] rows. *)
Definition shaped (p : ParticleSystem) : Prop :=
  let n := Z.to_nat (max_particles p) in
  length (positions p) = n /\ length (velocities p) = n /\
  length (forces p) = n /\ length (masses p) = n /\
  length (densities p) = n /\ length (pressures p) = n /\
  length (colors p) = n /\ length (viscosities p) = n.

End ParticleSystem.

(* ------------------------------------------------------------------ *)
(** ** [src/core/spatial_hash.py] *)

Abbreviation cell := (Z * Z * Z)%type.

Record SpatialHashGrid : Type := mkSpatialHashGrid {
  cell_size : R;
  grid : gmap cell (list nat)
}.

(** The dictionary returned by [get_cells_info]; it has the same four
    keys on every path. *)
Record CellsInfo : Type := mkCellsInfo {
  num_cells : nat;
  num_particles : nat;
  avg_particles_per_cell : R;
  max_particles_per_cell : nat
}.

Module SpatialHashGrid.

Definition init (cell_size : R) : SpatialHashGrid :=
  mkSpatialHashGrid cell_size ∅.

(** [int(np.floor(p / cell_size))]: with a zero cell size the quotient is
    NaN or infinite and [int] raises. *)
Definition hash_axis (p cell_size : R) : result Z :=
  if decide (cell_size = 0)
  then Raise (if decide (p = 0) then ValueError else OverflowError)
  else Ok (Int_part (p / cell_size)).

Definition hash_position (self : SpatialHashGrid) (position : vec3) : result cell :=
  let '(x, y, z) := position in
  i ← hash_axis x (cell_size self);
  j ← hash_axis y (cell_size self);
  k ← hash_axis z (cell_size self);
  Ok (i, j, k).

(** [self.grid[cell].append(idx)] on a [defaultdict(list)]. *)
Definition append_at (c : cell) (idx : nat) (self : SpatialHashGrid) : SpatialHashGrid :=
  mkSpatialHashGrid (cell_size self)
    (<[c := default [] (grid self !! c) ++ [idx]]> (grid self)).

Definition build (positions : list vec3) : M SpatialHashGrid unit :=
  modify (fun self => mkSpatialHashGrid (cell_size self) ∅);;
  forM_ (imap pair positions) (fun '(idx, pos) =>
    self ← get;
    c ← lift (hash_position self pos);
    modify (append_at c idx)).

Definition offsets : list Z := [-1; 0; 1]%Z.

(** The [radius] argument is not used by the source. *)
Definition get_neighbors (self : SpatialHashGrid) (position : vec3) (radius : R)
    : result (list nat) :=
  c ← hash_position self position;
  let '(ci, cj, ck) := c in
  Ok (di ← offsets; dj ← offsets; dk ← offsets;
      match grid self !! ((ci + di)%Z, (cj + dj)%Z, (ck + dk)%Z) with
      | Some bucket => bucket
      | None => []
      end).

Definition get_all_neighbors (self : SpatialHashGrid) (positions : list vec3)
    (radius : R) : result (list (list nat)) :=
  mapM (fun pos => get_neighbors self pos radius) positions.

Definition get_neighbor_count (self : SpatialHashGrid) (position : vec3) (radius : R)
    : result nat :=
  neighbors ← get_neighbors self position radius;
  Ok (length neighbors).

(** The statistics are sums, counts and maxima over the buckets, so the
    order in which the dictionary is traversed does not matter. *)
Definition get_cells_info (self : SpatialHashGrid) : result CellsInfo :=
  if decide (grid self = ∅) then Ok (mkCellsInfo 0 0 0 0)
  else
    let particles_per_cell := (fun kv => length kv.2) <$> map_to_list (grid self) in
    avg ← np_mean (INR <$> particles_per_cell);
    Ok (mkCellsInfo (size (grid self)) (sum_list particles_per_cell) avg
          (max_list particles_per_cell)).

End SpatialHashGrid.

(* ------------------------------------------------------------------ *)
(** ** [src/core/sph_solver.py] *)

Record SPHSolver : Type := mkSPHSolver {
  domain_size : vec3;
  h : R;
  particle_mass : R;
  rest_density : R;
  gas_constant : R;
  viscosity : R;
  gravity : vec3;
  dt : R;
  particles : ParticleSystem;
  n_active : nat;
  spatial_grid : SpatialHashGrid;
  time : R;
  step_count : nat
}.

Definition set_particles (p : ParticleSystem) (s : SPHSolver) : SPHSolver :=
  mkSPHSolver (domain_size s) (h s) (particle_mass s) (rest_density s)
    (gas_constant s) (viscosity s) (gravity s) (dt s) p (n_active s)
    (spatial_grid s) (time s) (step_count s).
Definition set_n_active (n : nat) (s : SPHSolver) : SPHSolver :=
  mkSPHSolver (domain_size s) (h s) (particle_mass s) (rest_density s)
    (gas_constant s) (viscosity s) (gravity s) (dt s) (particles s) n
    (spatial_grid s) (time s) (step_count s).
Definition set_spatial_grid (g : SpatialHashGrid) (s : SPHSolver) : SPHSolver :=
  mkSPHSolver (domain_size s) (h s) (particle_mass s) (rest_density s)
    (gas_constant s) (viscosity s) (gravity s) (dt s) (particles s) (n_active s)
    g (time s) (step_count s).
Definition set_clock (t : R) (n : nat) (s : SPHSolver) : SPHSolver :=
  mkSPHSolver (domain_size s) (h s) (particle_mass s) (rest_density s)
    (gas_constant s) (viscosity s) (gravity s) (dt s) (particles s) (n_active s)
    (spatial_grid s) t n.

(** The entries of a fluid preset dictionary that the solver reads with
    [dict.get]. *)
Record FluidProperties : Type := mkFluidProperties {
  fp_color : option vec3;
  fp_viscosity : option R
}.

(** Python's [int(x)] on a float: truncation towards zero. *)
Definition py_int (x : R) : Z :=
  if decide (x < 0) then (- Int_part (- x))%Z else Int_part x.

(** [np.clip(x, lo, hi)] on one component. *)
Definition clip (x lo hi : R) : R := Rmin (Rmax x lo) hi.


Module SPHSolver.

Definition init (domain_size : vec3) (smoothing_length particle_mass
    rest_density gas_constant viscosity : R) (gravity : vec3) (time_step : R)
    (max_particles : Z) : result SPHSolver :=
  ps ← ParticleSystem.init max_particles;
  Ok (mkSPHSolver domain_size smoothing_length particle_mass rest_density
        gas_constant viscosity gravity time_step ps 0
        (SpatialHashGrid.init smoothing_length) 0 0).

(** [self.particles.field[i] = x]. *)
Definition assign_particles {A} (proj : ParticleSystem -> list A)
    (upd : list A -> ParticleSystem -> ParticleSystem) (i : nat) (x : A)
    : M SPHSolver unit :=
  zoom particles set_particles (assign proj upd i x).

(** [(volume / n_particles) ** (1/3)].  A negative base gives a complex
    number, on which the later [int(...)] raises [TypeError]. *)
Definition lattice_spacing (volume : R) (n_particles : Z) : result R :=
  q ← py_div volume (IZR n_particles);
  if decide (q < 0) then Raise TypeError
  else if decide (q = 0) then Ok 0
  else Ok (Rpower q (1 / 3)).

(** [max(1, int(size / spacing))]. *)
Definition lattice_dim (size spacing : R) : result Z :=
  q ← py_div size spacing;
  Ok (Z.max 1 (py_int q)).

(** One pass of the innermost loop body: place the particle of lattice
    node [(i, j, k)].  [jitter] is the value drawn from
    [np.random.uniform(-0.1, 0.1, 3)]. *)
Definition place (position : vec3) (spacing : R) (fluid_properties : FluidProperties)
    (jitter : vec3) (i j k : nat) : M SPHSolver unit :=
  self ← get;
  let offset := vmul jitter spacing in
  let pos := vadd (vadd position
                     (INR i * spacing, INR j * spacing, INR k * spacing)) offset in
  let '(px, p_y, pz) := pos in
  let '(lx, ly, lz) := domain_size self in
  let pos := (clip px 0 lx, clip p_y 0 ly, clip pz 0 lz) in
  zoom particles set_particles
    (ParticleSystem.add_particle pos (0, 0, 0) (particle_mass self)
       (default (0.2, 0.5, 1.0) (fp_color fluid_properties))
       (default (viscosity self) (fp_viscosity fluid_properties)));;
  modify (fun self => set_n_active (n_active self + 1) self).

(** The loop over [k], which [break]s once [count >= n_particles]; the
    [count]-th draw of the random generator is [jitter count]. *)
Fixpoint fill_row (position : vec3) (spacing : R) (n_particles : Z)
    (fluid_properties : FluidProperties) (jitter : nat -> vec3) (i j : nat)
    (ks : list nat) (count : nat) : M SPHSolver nat :=
  match ks with
  | [] => mret count
  | k :: ks' =>
      if decide (Z.of_nat count >= n_particles)%Z then mret count
      else
        place position spacing fluid_properties (jitter count) i j k;;
        fill_row position spacing n_particles fluid_properties jitter i j ks'
          (count + 1)
  end.

(** The three nested loops over the lattice; the result is the final
    value of [count]. *)
Definition fill_box (position : vec3) (spacing : R) (n_particles : Z)
    (fluid_properties : FluidProperties) (jitter : nat -> vec3) (nx ny nz : Z)
    : M SPHSolver nat :=
  foldM (fun count i =>
    foldM (fun count j =>
      fill_row position spacing n_particles fluid_properties jitter i j
        (seq 0 (Z.to_nat nz)) count)
      (seq 0 (Z.to_nat ny)) count)
    (seq 0 (Z.to_nat nx)) 0%nat.

Definition add_fluid_box (position size : vec3) (n_particles : Z)
    (fluid_properties : FluidProperties) (jitter : nat -> vec3) : M SPHSolver unit :=
  let '(sx, sy, sz) := size in
  let volume := sx * sy * sz in
  spacing ← lift (lattice_spacing volume n_particles);
  nx ← lift (lattice_dim sx spacing);
  ny ← lift (lattice_dim sy spacing);
  nz ← lift (lattice_dim sz spacing);
  fill_box position spacing n_particles fluid_properties jitter nx ny nz;;
  mret tt.

(** The density accumulated over the candidate list of particle [i]. *)
Definition density_sum (self : SPHSolver) (pos_i : vec3) (neighbors : list nat)
    : result R :=
  foldM (fun density j =>
    pos_j ← getitem (positions (particles self)) j;
    let r := vsub pos_i pos_j in
    W ← SPHKernel.poly6 r (h self);
    m_j ← getitem (masses (particles self)) j;
    Ok (density + m_j * W)) neighbors 0.

Definition compute_density_pressure : M SPHSolver unit :=
  self ← get;
  zoom spatial_grid set_spatial_grid
    (SpatialHashGrid.build (take (n_active self) (positions (particles self))));;
  forM_ (seq 0 (n_active self)) (fun i =>
    self ← get;
    pos_i ← lift (getitem (positions (particles self)) i);
    neighbors ← lift (SpatialHashGrid.get_neighbors (spatial_grid self) pos_i (h self));
    density ← lift (density_sum self pos_i neighbors);
    let density := py_max density (rest_density self * 0.01) in
    assign_particles densities set_densities i density;;
    assign_particles pressures set_pressures i
      (gas_constant self * (density - rest_density self))).

(** The pair [(f_pressure, f_viscosity)] accumulated over the candidate
    list of particle [i]. *)
Definition pair_forces (self : SPHSolver) (i : nat) (pos_i vel_i : vec3)
    (neighbors : list nat) : result (vec3 * vec3) :=
  foldM (fun '(f_pressure, f_viscosity) j =>
    if decide (i = j) then Ok (f_pressure, f_viscosity)
    else
      pos_j ← getitem (positions (particles self)) j;
      vel_j ← getitem (velocities (particles self)) j;
      let r := vsub pos_i pos_j in
      grad_W ← SPHKernel.spiky_gradient r (h self);
      rho_j ← getitem (densities (particles self)) j;
      f_pressure ←
        (if decide (rho_j > 0) then
           P_i ← getitem (pressures (particles self)) i;
           P_j ← getitem (pressures (particles self)) j;
           let P_avg := (P_i + P_j) / 2 in
           m_j ← getitem (masses (particles self)) j;
           c ← np_div (- m_j * P_avg) rho_j;
           Ok (vadd f_pressure (vscale c grad_W))
         else Ok f_pressure);
      lap_W ← SPHKernel.viscosity_laplacian r (h self);
      f_viscosity ←
        (if decide (rho_j > 0) then
           visc ← getitem (viscosities (particles self)) i;
           m_j ← getitem (masses (particles self)) j;
           d ← np_vdiv (vscale (visc * m_j) (vsub vel_j vel_i)) rho_j;
           Ok (vadd f_viscosity (vmul d lap_W))
         else Ok f_viscosity);
      Ok (f_pressure, f_viscosity)) neighbors (vzero, vzero).

(** [self.particles.forces[:self.n_active] = 0.0]. *)
Definition reset_forces (n : nat) (p : ParticleSystem) : ParticleSystem :=
  set_forces (replicate (length (take n (forces p))) vzero ++ drop n (forces p)) p.

Definition compute_forces : M SPHSolver unit :=
  modify (fun self => set_particles (reset_forces (n_active self) (particles self)) self);;
  self ← get;
  forM_ (seq 0 (n_active self)) (fun i =>
    self ← get;
    pos_i ← lift (getitem (positions (particles self)) i);
    vel_i ← lift (getitem (velocities (particles self)) i);
    neighbors ← lift (SpatialHashGrid.get_neighbors (spatial_grid self) pos_i (h self));
    '(f_pressure, f_viscosity) ← lift (pair_forces self i pos_i vel_i neighbors);
    m_i ← lift (getitem (masses (particles self)) i);
    let f_gravity := vscale m_i (gravity self) in
    assign_particles forces set_forces i
      (vadd (vadd f_pressure f_viscosity) f_gravity)).

Definition damping : R := 0.5.
Definition epsilon : R := 0.001.

(** One pass of the axis loop of [apply_boundary_conditions] on the
    components [(p, v)] of position and velocity, with [extent] the
    domain size on that axis. *)
Definition bounce_axis (p v extent : R) : R * R :=
  if decide (p < 0) then (epsilon, Rabs v * damping)
  else if decide (p > extent) then (extent - epsilon, - Rabs v * damping)
  else (p, v).

Definition apply_boundary_conditions (particle_idx : nat) : M SPHSolver unit :=
  self ← get;
  pos ← lift (getitem (positions (particles self)) particle_idx);
  vel ← lift (getitem (velocities (particles self)) particle_idx);
  let '(px, p_y, pz) := pos in
  let '(v_x, v_y, v_z) := vel in
  let '(lx, ly, lz) := domain_size self in
  let '(px, v_x) := bounce_axis px v_x lx in
  let '(p_y, v_y) := bounce_axis p_y v_y ly in
  let '(pz, v_z) := bounce_axis pz v_z lz in
  assign_particles positions set_positions particle_idx (px, p_y, pz);;
  assign_particles velocities set_velocities particle_idx (v_x, v_y, v_z).

Definition integrate : M SPHSolver unit :=
  self ← get;
  forM_ (seq 0 (n_active self)) (fun i =>
    self ← get;
    m_i ← lift (getitem (masses (particles self)) i);
    acceleration ←
      (if decide (m_i > 0) then
         f_i ← lift (getitem (forces (particles self)) i);
         lift (np_vdiv f_i m_i)
       else mret vzero);
    vel_i ← lift (getitem (velocities (particles self)) i);
    let vel_i := vadd vel_i (vmul acceleration (dt self)) in
    assign_particles velocities set_velocities i vel_i;;
    pos_i ← lift (getitem (positions (particles self)) i);
    assign_particles positions set_positions i
      (vadd pos_i (vmul vel_i (dt self)));;
    apply_boundary_conditions i).

Definition step : M SPHSolver unit :=
  self ← get;
  if decide (n_active self = 0)%nat then mret tt
  else
    compute_density_pressure;;
    compute_forces;;
    integrate;;
    modify (fun self =>
      set_clock (time self + dt self) (step_count self + 1) self).

(** [n] consecutive calls of [step]. *)
Definition steps (n : nat) : M SPHSolver unit :=
  forM_ (seq 0 n) (fun _ => step).


End SPHSolver.

(* ================================================================== *)
(** * Properties *)

(* ------------------------------------------------------------------ *)
(** ** Rules for running monadic code *)

Section rules.
Context {S : Type}.
Implicit Types (s : S) (E : exn -> S -> Prop).

Lemma run_bind {A B} (m : M S A) (f : A -> M S B) s :
  (m ≫= f) s =
    match m s with
    | (Ok a, s') => f a s'
    | (Raise e, s') => (Raise e, s')
    end.
Proof. reflexivity. Qed.

Lemma run_bind_ok {A B} (m : M S A) (f : A -> M S B) s a s' :
  m s = (Ok a, s') -> (m ≫= f) s = f a s'.
Proof. intros Hm. by rewrite run_bind, Hm. Qed.

Lemma wpe_ret {A} (a : A) (Q : A -> S -> Prop) E s :
  Q a s -> wpe (mret a) Q E s.
Proof. done. Qed.

Lemma wpe_bind {A B} (m : M S A) (f : A -> M S B) (Q : B -> S -> Prop) E s :
  wpe m (fun a s' => wpe (f a) Q E s') E s -> wpe (m ≫= f) Q E s.
Proof.
  unfold wpe. rewrite run_bind. by destruct (m s) as [[a|e] s'].
Qed.

Lemma wpe_mono {A} (m : M S A) (Q Q' : A -> S -> Prop) E E' s :
  wpe m Q E s ->
  (forall a s', Q a s' -> Q' a s') ->
  (forall e s', E e s' -> E' e s') ->
  wpe m Q' E' s.
Proof.
  unfold wpe. destruct (m s) as [[a|e] s']; auto.
Qed.

Lemma wpe_get (Q : S -> S -> Prop) E s : Q s s -> wpe get Q E s.
Proof. done. Qed.

Lemma wpe_modify (f : S -> S) (Q : unit -> S -> Prop) E s :
  Q tt (f s) -> wpe (modify f) Q E s.
Proof. done. Qed.

Lemma wpe_lift {A} (r : result A) (Q : A -> S -> Prop) E s :
  match r with Ok a => Q a s | Raise e => E e s end -> wpe (lift r) Q E s.
Proof. done. Qed.

Lemma wpe_zoom {T A} (proj : S -> T) upd (m : M T A) (Q : A -> S -> Prop) E s :
  wpe m (fun a t => Q a (upd t s)) (fun e t => E e (upd t s)) (proj s) ->
  wpe (zoom proj upd m) Q E s.
Proof.
  unfold wpe, zoom. by destruct (m (proj s)) as [[a|e] t].
Qed.

(** A loop over [range(n)] that keeps [I]: [I i] holds before pass [i]. *)
Lemma wpe_for_range (I : nat -> S -> Prop) E (body : nat -> M S unit) n :
  forall a s,
    I a s ->
    (forall i s', (a <= i < a + n)%nat -> I i s' ->
       wpe (body i) (fun _ s'' => I (i + 1)%nat s'') E s') ->
    wpe (forM_ (seq a n) body) (fun _ s' => I (a + n)%nat s') E s.
Proof.
  unfold forM_. induction n as [|n IH]; intros a s Ha Hbody; simpl.
  - apply wpe_ret. by replace (a + 0)%nat with a by lia.
  - apply wpe_bind.
    eapply wpe_mono; [apply (Hbody a s); [lia | done] | | done].
    intros [] s' Hs'. simpl.
    replace (a + Datatypes.S n)%nat with (a + 1 + n)%nat by lia.
    replace (Datatypes.S a) with (a + 1)%nat by lia.
    apply IH; [done|].
    intros i s'' Hi. apply Hbody. lia.
Qed.
End rules.

(** The exception monad: a fold that keeps [I] and never raises. *)
Lemma foldM_result_ok {A B} (I : B -> Prop) (f : B -> A -> result B) (l : list A) :
  forall b,
    I b ->
    (forall b a, a ∈ l -> I b -> exists b', f b a = Ok b' /\ I b') ->
    exists b', foldM f l b = Ok b' /\ I b'.
Proof.
  induction l as [|a l IH]; intros b Hb Hf; simpl.
  - by exists b.
  - destruct (Hf b a) as (b' & Hfb & Hb'); [by left | done |].
    unfold mbind, result_bind. rewrite Hfb. apply IH; [done|].
    intros b0 a0 Ha0. apply Hf. by right.
Qed.

(* ------------------------------------------------------------------ *)
(** ** Kernels *)

Section kernel_support.
Variables (r : vec3) (h : R).
Hypothesis outside : norm r > h.

Lemma poly6_outside : SPHKernel.poly6 r h = Ok 0.
Proof. unfold SPHKernel.poly6. by rewrite decide_True. Qed.

Lemma spiky_gradient_outside : SPHKernel.spiky_gradient r h = Ok vzero.
Proof. unfold SPHKernel.spiky_gradient. rewrite decide_True; [done | by left]. Qed.

Lemma viscosity_laplacian_outside : SPHKernel.viscosity_laplacian r h = Ok 0.
Proof. unfold SPHKernel.viscosity_laplacian. by rewrite decide_True. Qed.
End kernel_support.

(** C8. Compact support: for a smoothing length [h > 0] and a displacement
    [r] with [|r| > h], the Poly6 kernel, the Spiky gradient and the
    viscosity Laplacian are exactly zero (the zero vector for the
    gradient). *)
Theorem kernel_compact_support (r : vec3) (h : R) :
  0 < h -> norm r > h ->
  SPHKernel.poly6 r h = Ok 0 /\
  SPHKernel.spiky_gradient r h = Ok (0, 0, 0) /\
  SPHKernel.viscosity_laplacian r h = Ok 0.
Proof.
  intros _ Hr. split; [|split].
  - by apply poly6_outside.
  - by apply spiky_gradient_outside.
  - by apply viscosity_laplacian_outside.
Qed.

Lemma norm_along_x (x : R) : 0 <= x -> norm (x, 0, 0) = x.
Proof.
  intros Hx. unfold norm.
  replace (x * x + 0 * 0 + 0 * 0) with (x * x) by lra.
  by apply sqrt_square.
Qed.

Lemma kernel_compact_support_witness :
  SPHKernel.poly6 (2, 0, 0) 1 = Ok 0 /\
  SPHKernel.spiky_gradient (2, 0, 0) 1 = Ok (0, 0, 0) /\
  SPHKernel.viscosity_laplacian (2, 0, 0) 1 = Ok 0.
Proof.
  apply (kernel_compact_support (2, 0, 0) 1); [lra|].
  rewrite norm_along_x; lra.
Defined.

(* ------------------------------------------------------------------ *)
(** ** Particle store *)

Lemma assign_ok {S A} (proj : S -> list A) upd (i : nat) (x : A) (s : S) :
  (i < length (proj s))%nat ->
  assign proj upd i x s = (Ok tt, upd (<[i := x]> (proj s)) s).
Proof. intros Hi. unfold assign, setitem. by rewrite decide_True. Qed.

Lemma assign_raise {S A} (proj : S -> list A) upd (i : nat) (x : A) (s : S) :
  ~ (i < length (proj s))%nat ->
  assign proj upd i x s = (Raise IndexError, s).
Proof. intros Hi. unfold assign, setitem. by rewrite decide_False. Qed.

(** Below capacity [add_particle] fills slot [n_particles] and keeps the
    shape of the store. *)
Lemma add_particle_below_capacity (p : ParticleSystem) (position velocity : vec3)
    (mass : R) (color : vec3) (viscosity : R) :
  ParticleSystem.shaped p ->
  (Z.of_nat (n_particles p) < max_particles p)%Z ->
  exists p',
    ParticleSystem.add_particle position velocity mass color viscosity p
      = (Ok (n_particles p), p') /\
    ParticleSystem.shaped p' /\
    n_particles p' = (n_particles p + 1)%nat /\
    max_particles p' = max_particles p /\
    positions p' !! n_particles p = Some position /\
    velocities p' !! n_particles p = Some velocity /\
    masses p' !! n_particles p = Some mass /\
    colors p' !! n_particles p = Some color /\
    viscosities p' !! n_particles p = Some viscosity /\
    densities p' !! n_particles p = Some 0 /\
    pressures p' !! n_particles p = Some 0 /\
    forces p' !! n_particles p = Some (0, 0, 0).
Proof.
  intros (Hp & Hv & Hf & Hm & Hd & Hpr & Hc & Hvi) HN.
  assert (n_particles p < Z.to_nat (max_particles p))%nat as Hlt by lia.
  unfold ParticleSystem.add_particle, mbind, M_bind, get, modify, mret, M_ret.
  rewrite decide_False by lia.
  repeat (rewrite assign_ok by (simpl; lia); simpl).
  eexists. split; [reflexivity|]. simpl. split.
  { unfold ParticleSystem.shaped. simpl. rewrite !length_insert. done. }
  repeat split; try done; apply list_lookup_insert_eq; lia.
Qed.

(** At capacity [add_particle] raises before any write. *)
Lemma add_particle_at_capacity (p : ParticleSystem) (position velocity : vec3)
    (mass : R) (color : vec3) (viscosity : R) :
  (Z.of_nat (n_particles p) >= max_particles p)%Z ->
  ParticleSystem.add_particle position velocity mass color viscosity p
    = (Raise RuntimeError, p).
Proof.
  intros HN. unfold ParticleSystem.add_particle, mbind, M_bind, get, raise.
  by rewrite decide_True.
Qed.

(** C9. Append contract.  With [N] live particles in a store whose arrays
    have [max_particles] rows: below capacity, [add_particle] returns [N],
    stores the new particle in slot [N] with zero density, pressure and
    force, and increments the count; at capacity it raises the capacity
    error ([RuntimeError]) and leaves the store as it was. *)
Theorem add_particle_contract (p : ParticleSystem) (position velocity : vec3)
    (mass : R) (color : vec3) (viscosity : R) :
  ParticleSystem.shaped p ->
  let N := n_particles p in
  ((Z.of_nat N < max_particles p)%Z ->
     exists p',
       ParticleSystem.add_particle position velocity mass color viscosity p
         = (Ok N, p') /\
       n_particles p' = (N + 1)%nat /\
       max_particles p' = max_particles p /\
       positions p' !! N = Some position /\
       velocities p' !! N = Some velocity /\
       masses p' !! N = Some mass /\
       colors p' !! N = Some color /\
       viscosities p' !! N = Some viscosity /\
       densities p' !! N = Some 0 /\
       pressures p' !! N = Some 0 /\
       forces p' !! N = Some (0, 0, 0)) /\
  (Z.of_nat N = max_particles p ->
     ParticleSystem.add_particle position velocity mass color viscosity p
       = (Raise RuntimeError, p)).
Proof.
  intros Hshape N. split.
  - intros HN.
    destruct (add_particle_below_capacity p position velocity mass color viscosity
                Hshape HN) as (p' & Hrun & _ & Hrest).
    by exists p'.
  - intros HN. apply add_particle_at_capacity. fold N. lia.
Qed.

Definition store_of_two : ParticleSystem :=
  mkParticleSystem 2 1 [(0, 0, 0); (0, 0, 0)] [(0, 0, 0); (0, 0, 0)]
    [(0, 0, 0); (0, 0, 0)] [1; 0] [0; 0] [0; 0] [(0, 0, 0); (0, 0, 0)] [0.001; 0.001].

Definition full_store : ParticleSystem :=
  mkParticleSystem 1 1 [(0, 0, 0)] [(0, 0, 0)] [(0, 0, 0)] [1] [0] [0]
    [(0, 0, 0)] [0.001].

Lemma add_particle_contract_witness :
  (exists p',
     ParticleSystem.add_particle (1, 2, 3) (4, 5, 6) 7 (0, 0, 1) 8 store_of_two
       = (Ok 1%nat, p') /\
     n_particles p' = 2%nat /\
     max_particles p' = 2%Z /\
     positions p' !! 1%nat = Some (1, 2, 3) /\
     velocities p' !! 1%nat = Some (4, 5, 6) /\
     masses p' !! 1%nat = Some 7 /\
     colors p' !! 1%nat = Some (0, 0, 1) /\
     viscosities p' !! 1%nat = Some 8 /\
     densities p' !! 1%nat = Some 0 /\
     pressures p' !! 1%nat = Some 0 /\
     forces p' !! 1%nat = Some (0, 0, 0)) /\
  ParticleSystem.add_particle (1, 2, 3) (4, 5, 6) 7 (0, 0, 1) 8 full_store
    = (Raise RuntimeError, full_store).
Proof.
  split.
  - apply (add_particle_contract store_of_two (1, 2, 3) (4, 5, 6) 7 (0, 0, 1) 8).
    + repeat split; reflexivity.
    + reflexivity.
  - apply (add_particle_contract full_store (1, 2, 3) (4, 5, 6) 7 (0, 0, 1) 8).
    + repeat split; reflexivity.
    + reflexivity.
Defined.

(* ------------------------------------------------------------------ *)
(** ** Spatial index *)

Section spatial_index.
Import SpatialHashGrid.

(** The cell of a position for a non-zero cell size. *)
Definition cell_of (c : R) (p : vec3) : cell :=
  let '(x, y, z) := p in (Int_part (x / c), Int_part (y / c), Int_part (z / c)).

(** The indices stored for a cell, none when the cell is absent. *)
Definition bucket (g : SpatialHashGrid) (c : cell) : list nat :=
  default [] (grid g !! c).

Lemma hash_position_ok g p :
  cell_size g <> 0 -> hash_position g p = Ok (cell_of (cell_size g) p).
Proof.
  intros Hc. destruct p as [[x y] z].
  unfold hash_position, hash_axis, cell_of, mbind, result_bind.
  by rewrite !decide_False.
Qed.

Lemma bucket_append_at g c idx c' x :
  x ∈ bucket (append_at c idx g) c' <-> x ∈ bucket g c' \/ (c' = c /\ x = idx).
Proof.
  unfold bucket, append_at; simpl.
  destruct (decide (c' = c)) as [->|Hne].
  - rewrite lookup_insert_eq; simpl.
    rewrite elem_of_app, list_elem_of_singleton. tauto.
  - rewrite lookup_insert_ne by done. tauto.
Qed.

(** The loop of [build]: with a non-zero cell size it never raises, and
    it adds each index to the bucket of its position's cell. *)
Lemma build_loop (ips : list (nat * vec3)) :
  forall g, cell_size g <> 0 ->
    exists g',
      forM_ ips (fun '(idx, pos) =>
        self ← get; c ← lift (hash_position self pos); modify (append_at c idx)) g
        = (Ok tt, g') /\
      cell_size g' = cell_size g /\
      forall c x, x ∈ bucket g' c <->
        x ∈ bucket g c \/ exists p, (x, p) ∈ ips /\ cell_of (cell_size g) p = c.
Proof.
  unfold forM_.
  induction ips as [|[idx pos] ips IH]; intros g Hc; simpl.
  - exists g. split; [done|]. split; [done|].
    intros c x. split; [by left|]. intros [?|(p & Hp & _)]; [done|].
    by apply elem_of_nil in Hp.
  - rewrite run_bind. unfold get at 1. rewrite !run_bind. unfold lift at 1.
    rewrite hash_position_ok by done. unfold modify at 1.
    destruct (IH (append_at (cell_of (cell_size g) pos) idx g)) as (g' & Hrun & Hsize & Hmem);
      [done|].
    exists g'. split; [exact Hrun|]. split; [done|].
    intros c x. rewrite Hmem, bucket_append_at. simpl. split.
    + intros [[?|[-> ->]]|(p & Hp & Hcp)].
      * by left.
      * right. exists pos. split; [by left | done].
      * right. exists p. split; [by right | done].
    + intros [?|(p & Hp & Hcp)]; [by left; left|].
      apply elem_of_cons in Hp as [[= -> ->]|Hp].
      * left; right. done.
      * right. by exists p.
Qed.

(** [build] on a grid with a non-zero cell size: index [i] is in the
    bucket of a cell exactly when that cell is the one of [positions[i]]. *)
Lemma build_spec (positions : list vec3) g :
  cell_size g <> 0 ->
  exists g',
    build positions g = (Ok tt, g') /\
    cell_size g' = cell_size g /\
    forall c i, i ∈ bucket g' c <->
      exists p, positions !! i = Some p /\ cell_of (cell_size g) p = c.
Proof.
  intros Hc. unfold build. rewrite run_bind. unfold modify at 1.
  destruct (build_loop (imap pair positions) (mkSpatialHashGrid (cell_size g) ∅))
    as (g' & Hrun & Hsize & Hmem); [done|].
  exists g'. split; [exact Hrun|]. split; [done|].
  intros c i. rewrite Hmem. unfold bucket at 1. simpl. rewrite lookup_empty. simpl.
  split.
  - intros [Hnil|(p & Hp & Hcp)]; [by apply elem_of_nil in Hnil|].
    apply elem_of_lookup_imap in Hp as (j & q & [= -> ->] & Hj). by exists q.
  - intros (p & Hp & Hcp). right. exists p. split; [|done].
    apply elem_of_lookup_imap. by exists i, p.
Qed.

Lemma get_neighbors_spec g q radius :
  cell_size g <> 0 ->
  exists ns,
    get_neighbors g q radius = Ok ns /\
    forall x, x ∈ ns <->
      exists di dj dk, di ∈ offsets /\ dj ∈ offsets /\ dk ∈ offsets /\
        x ∈ bucket g ((cell_of (cell_size g) q).1.1 + di,
                      (cell_of (cell_size g) q).1.2 + dj,
                      (cell_of (cell_size g) q).2 + dk)%Z.
Proof.
  intros Hc. unfold get_neighbors. rewrite hash_position_ok by done.
  unfold mbind at 1, result_bind.
  destruct (cell_of (cell_size g) q) as [[ci cj] ck]. cbv beta iota. cbn [fst snd].
  eexists. split; [reflexivity|].
  intros x. rewrite list_elem_of_bind. split.
  - intros (di & Hx & Hdi). apply list_elem_of_bind in Hx as (dj & Hx & Hdj).
    apply list_elem_of_bind in Hx as (dk & Hx & Hdk).
    exists di, dj, dk. split; [done|]. split; [done|]. split; [done|].
    unfold bucket. by destruct (grid g !! _).
  - intros (di & dj & dk & Hdi & Hdj & Hdk & Hx).
    exists di. split; [|done]. apply list_elem_of_bind.
    exists dj. split; [|done]. apply list_elem_of_bind.
    exists dk. split; [|done].
    unfold bucket in Hx. by destruct (grid g !! _).
Qed.

Lemma Rabs_bound (x b : R) : Rabs x <= b -> - b <= x <= b.
Proof. unfold Rabs. destruct (Rcase_abs x); lra. Qed.

(** Two reals at most one apart have floors at most one apart. *)
Lemma Int_part_close (x y : R) :
  Rabs (x - y) <= 1 -> (Int_part x - Int_part y)%Z ∈ offsets.
Proof.
  intros Hxy. apply Rabs_bound in Hxy.
  destruct (base_Int_part x) as [Hx1 Hx2], (base_Int_part y) as [Hy1 Hy2].
  assert (Int_part x < Int_part y + 2)%Z as H1.
  { apply lt_IZR. rewrite plus_IZR. lra. }
  assert (Int_part y < Int_part x + 2)%Z as H2.
  { apply lt_IZR. rewrite plus_IZR. lra. }
  unfold offsets.
  assert ((Int_part x - Int_part y = -1 \/ Int_part x - Int_part y = 0 \/
           Int_part x - Int_part y = 1)%Z) as Hd by lia.
  destruct Hd as [Hd|[Hd|Hd]]; rewrite Hd; repeat constructor.
Qed.

Lemma sqrt_sum_ge (a b c : R) : Rabs a <= sqrt (a * a + b * b + c * c).
Proof.
  rewrite <- sqrt_Rsqr_abs. apply sqrt_le_1_alt. unfold Rsqr. nra.
Qed.

(** Each component of a displacement is bounded by its norm. *)
Lemma norm_components (a : vec3) :
  Rabs a.1.1 <= norm a /\ Rabs a.1.2 <= norm a /\ Rabs a.2 <= norm a.
Proof.
  destruct a as [[x y] z]. unfold norm. simpl. split; [|split].
  - apply sqrt_sum_ge.
  - replace (x * x + y * y + z * z) with (y * y + x * x + z * z) by lra.
    apply sqrt_sum_ge.
  - replace (x * x + y * y + z * z) with (z * z + x * x + y * y) by lra.
    apply sqrt_sum_ge.
Qed.

Lemma axis_cells_close (c p q : R) :
  0 < c -> Rabs (p - q) <= c ->
  (Int_part (p / c) - Int_part (q / c))%Z ∈ offsets.
Proof.
  intros Hc Hpq. apply Int_part_close.
  replace (p / c - q / c) with ((p - q) / c) by (field; lra).
  unfold Rdiv. rewrite Rabs_mult, (Rabs_pos_eq (/ c)).
  - apply (Rmult_le_reg_r c); [done|].
    rewrite Rmult_assoc, Rinv_l by lra. lra.
  - left. by apply Rinv_0_lt_compat.
Qed.

(** A point within one cell size of the query lies in one of the 27
    cells around the query's cell. *)
Lemma near_cells (c : R) (p q : vec3) :
  c <> 0 -> norm (vsub p q) <= c ->
  exists di dj dk, di ∈ offsets /\ dj ∈ offsets /\ dk ∈ offsets /\
    cell_of c p = ((cell_of c q).1.1 + di, (cell_of c q).1.2 + dj,
                   (cell_of c q).2 + dk)%Z.
Proof.
  intros Hc Hn.
  destruct (norm_components (vsub p q)) as (Hx & Hy & Hz).
  assert (0 <= norm (vsub p q)) as Hpos.
  { destruct (vsub p q) as [[? ?] ?]. apply sqrt_pos. }
  assert (0 < c) as Hc' by lra.
  destruct p as [[px p_y] pz], q as [[qx qy] qz].
  cbn [vsub fst snd cell_of] in *.
  exists (Int_part (px / c) - Int_part (qx / c))%Z,
         (Int_part (p_y / c) - Int_part (qy / c))%Z,
         (Int_part (pz / c) - Int_part (qz / c))%Z.
  repeat split; try (apply axis_cells_close; [done | lra]).
  f_equal; [f_equal|]; lia.
Qed.
End spatial_index.

(** C4. Spatial-query superset.  After [build] on a grid whose cell side
    is non-zero, the 27-cell query at any point [q] succeeds and returns
    every index [i] whose position lies within one cell side of [q]. *)
Theorem query_superset (g : SpatialHashGrid) (positions : list vec3) (q : vec3)
    (radius : R) :
  cell_size g <> 0 ->
  exists g' ns,
    SpatialHashGrid.build positions g = (Ok tt, g') /\
    cell_size g' = cell_size g /\
    SpatialHashGrid.get_neighbors g' q radius = Ok ns /\
    forall i p, positions !! i = Some p ->
      norm (vsub p q) <= cell_size g -> i ∈ ns.
Proof.
  intros Hc.
  destruct (build_spec positions g Hc) as (g' & Hbuild & Hsize & Hmem).
  destruct (get_neighbors_spec g' q radius) as (ns & Hq & Hns); [by rewrite Hsize|].
  exists g', ns. repeat split; try done.
  intros i p Hp Hnear. apply Hns.
  destruct (near_cells (cell_size g) p q Hc Hnear) as (di & dj & dk & Hdi & Hdj & Hdk & Hcell).
  exists di, dj, dk. repeat split; try done.
  apply Hmem. exists p. split; [done|]. by rewrite Hsize.
Qed.

Lemma query_superset_witness :
  exists g' ns,
    SpatialHashGrid.build [(0.05, 0.05, 0.05); (0.15, 0.05, 0.05)]
      (SpatialHashGrid.init 0.1) = (Ok tt, g') /\
    cell_size g' = cell_size (SpatialHashGrid.init 0.1) /\
    SpatialHashGrid.get_neighbors g' (0.05, 0.05, 0.05) 0.1 = Ok ns /\
    forall i p, [(0.05, 0.05, 0.05); (0.15, 0.05, 0.05)] !! i = Some p ->
      norm (vsub p (0.05, 0.05, 0.05)) <= cell_size (SpatialHashGrid.init 0.1) ->
      i ∈ ns.
Proof.
  apply (query_superset (SpatialHashGrid.init 0.1)). simpl. lra.
Defined.

(* ------------------------------------------------------------------ *)
(** ** Solver: well-formed states and the density pass *)

Lemma getitem_ok {A} (l : list A) (i : nat) (x : A) :
  l !! i = Some x -> getitem l i = Ok x.
Proof. intros Hx. unfold getitem. by rewrite Hx. Qed.

Lemma getitem_lt {A} (l : list A) (i : nat) :
  (i < length l)%nat -> exists x, l !! i = Some x /\ getitem l i = Ok x.
Proof.
  intros Hi. destruct (lookup_lt_is_Some_2 l i Hi) as [x Hx].
  exists x. split; [done | by apply getitem_ok].
Qed.

Lemma run_get_bind {S B} (f : S -> M S B) (s : S) : (get ≫= f) s = f s s.
Proof. reflexivity. Qed.

Lemma run_lift_bind {S A B} (a : A) (f : A -> M S B) (s : S) :
  (lift (Ok a) ≫= f) s = f a s.
Proof. reflexivity. Qed.

Lemma run_modify_bind {S B} (g : S -> S) (f : unit -> M S B) (s : S) :
  (modify g ≫= f) s = f tt (g s).
Proof. reflexivity. Qed.

Lemma assign_particles_ok {A} (proj : ParticleSystem -> list A) upd i x s :
  (i < length (proj (particles s)))%nat ->
  SPHSolver.assign_particles proj upd i x s
    = (Ok tt, set_particles (upd (<[i := x]> (proj (particles s))) (particles s)) s).
Proof.
  intros Hi. unfold SPHSolver.assign_particles, zoom. by rewrite assign_ok.
Qed.

(** The solver invariant set up by construction and kept by every method:
    the arrays have [max_particles] rows, the live particles fit in them,
    and the grid's cell side is the smoothing length. *)
Definition well_formed (s : SPHSolver) : Prop :=
  ParticleSystem.shaped (particles s) /\
  (n_active s <= Z.to_nat (max_particles (particles s)))%nat /\
  cell_size (spatial_grid s) = h s.

Lemma poly6_total (r : vec3) (c : R) : c <> 0 -> exists w, SPHKernel.poly6 r c = Ok w.
Proof.
  intros Hc. unfold SPHKernel.poly6. case_decide; [by eexists|].
  unfold py_div. rewrite decide_False; [by eexists|].
  pose proof PI_neq0. pose proof (pow_nonzero c 9 Hc).
  apply Rmult_integral_contrapositive_currified; [|done].
  apply Rmult_integral_contrapositive_currified; [lra | done].
Qed.

Lemma density_sum_total (s : SPHSolver) (pos_i : vec3) (ns : list nat) :
  h s <> 0 ->
  (forall j, j ∈ ns ->
     (j < length (positions (particles s)))%nat /\
     (j < length (masses (particles s)))%nat) ->
  exists d, SPHSolver.density_sum s pos_i ns = Ok d.
Proof.
  intros Hh Hns. unfold SPHSolver.density_sum.
  destruct (foldM_result_ok (fun _ => True)
    (fun density j =>
       pos_j ← getitem (positions (particles s)) j;
       W ← SPHKernel.poly6 (vsub pos_i pos_j) (h s);
       m_j ← getitem (masses (particles s)) j;
       Ok (density + m_j * W)) ns 0) as (d & Hd & _); [done | | by exists d].
  intros b j Hj _. destruct (Hns j Hj) as [Hp Hm].
  destruct (getitem_lt _ _ Hp) as (pj & _ & ->).
  destruct (getitem_lt _ _ Hm) as (mj & _ & Hmj).
  unfold mbind at 1, result_bind.
  destruct (poly6_total (vsub pos_i pj) (h s) Hh) as (w & ->).
  unfold mbind at 1, result_bind. rewrite Hmj.
  unfold mbind, result_bind. by eexists.
Qed.

(** The state after the density pass: new density and pressure arrays and
    a rebuilt grid; everything else as before. *)
Definition with_density (D P : list R) (g : SpatialHashGrid) (s : SPHSolver) : SPHSolver :=
  set_particles (set_pressures P (set_densities D (particles s)))
    (set_spatial_grid g s).

(** Every candidate returned by a query on the grid built from the live
    positions is a live index. *)
Lemma neighbors_live (positions : list vec3) (n : nat) g g' q radius ns :
  cell_size g <> 0 ->
  SpatialHashGrid.build (take n positions) g = (Ok tt, g') ->
  SpatialHashGrid.get_neighbors g' q radius = Ok ns ->
  forall j, j ∈ ns -> (j < n)%nat /\ (j < length positions)%nat.
Proof.
  intros Hc Hbuild Hq j Hj.
  destruct (build_spec (take n positions) g Hc) as (g1 & Hb1 & Hsize & Hmem).
  rewrite Hbuild in Hb1. injection Hb1 as <-.
  destruct (get_neighbors_spec g' q radius) as (ns1 & Hq1 & Hns); [by rewrite Hsize|].
  rewrite Hq in Hq1. injection Hq1 as <-.
  apply Hns in Hj as (di & dj & dk & _ & _ & _ & Hj).
  apply Hmem in Hj as (p & Hp & _).
  apply lookup_take_Some in Hp as [Hp Hlt].
  split; [done|]. by apply lookup_lt_Some in Hp.
Qed.

Lemma py_max_ge_r (a b : R) : b <= py_max a b.
Proof. unfold py_max. case_decide; lra. Qed.

Lemma wp_run {S A} (m : M S A) (Q : A -> S -> Prop) (s : S) :
  wp m Q s -> exists a s', m s = (Ok a, s') /\ Q a s'.
Proof.
  unfold wp, wpe. destruct (m s) as [[a|e] s']; [|done]. by exists a, s'.
Qed.

(** Projections of a state written with the setters. *)
Ltac fields :=
  cbn [particles n_active spatial_grid h dt domain_size particle_mass
       rest_density gas_constant viscosity gravity time step_count
       set_particles set_n_active set_spatial_grid set_clock
       max_particles n_particles positions velocities forces masses densities
       pressures colors viscosities
       set_n_particles set_positions set_velocities set_forces set_masses
       set_densities set_pressures set_colors set_viscosities
       cell_size grid with_density] in *.

Section density_pass.
Variable s : SPHSolver.
Hypothesis Hwf : well_formed s.
Hypothesis Hh : h s <> 0.

(** [compute_density_pressure] returns normally; it rebuilds the grid
    from the live positions and gives every live particle a density of
    at least [rest_density * 0.01] and the matching pressure. *)
Lemma compute_density_pressure_spec :
  exists D P g',
    SPHSolver.compute_density_pressure s = (Ok tt, with_density D P g' s) /\
    SpatialHashGrid.build (take (n_active s) (positions (particles s)))
      (spatial_grid s) = (Ok tt, g') /\
    length D = length (densities (particles s)) /\
    length P = length (pressures (particles s)) /\
    forall i, (i < n_active s)%nat ->
      exists d, D !! i = Some d /\ rest_density s * 0.01 <= d /\
                P !! i = Some (gas_constant s * (d - rest_density s)).
Proof.
  destruct Hwf as ((Hp & Hv & Hf & Hm & Hd & Hpr & Hc & Hvi) & Hn & Hcell).
  assert (cell_size (spatial_grid s) <> 0) as Hcs by (by rewrite Hcell).
  destruct (build_spec (take (n_active s) (positions (particles s)))
              (spatial_grid s) Hcs) as (g' & Hbuild & Hsize & Hmem).
  set (I := fun (k : nat) (s' : SPHSolver) =>
    exists D P, s' = with_density D P g' s /\
      length D = length (densities (particles s)) /\
      length P = length (pressures (particles s)) /\
      forall i, (i < k)%nat ->
        exists d, D !! i = Some d /\ rest_density s * 0.01 <= d /\
                  P !! i = Some (gas_constant s * (d - rest_density s))).
  assert (wp SPHSolver.compute_density_pressure
            (fun _ s' => I (n_active s) s') s) as Hwp.
  { unfold SPHSolver.compute_density_pressure.
    apply wpe_bind, wpe_get, wpe_bind, wpe_zoom.
    unfold wpe at 1. rewrite Hbuild.
    apply (wpe_for_range I _ _ (n_active s) 0%nat).
    - exists (densities (particles s)), (pressures (particles s)).
      split; [by destruct s as [? ? ? ? ? ? ? ? []]|].
      repeat split; try done. lia.
    - intros i s1 Hi (D & P & -> & HD & HP & Hall).
      unfold wpe. rewrite run_get_bind. fields.
      destruct (getitem_lt (positions (particles s)) i) as (pos_i & Hpi & ->); [lia|].
      rewrite run_lift_bind.
      destruct (get_neighbors_spec g' pos_i (h s)) as (ns & Hq & _);
        [by rewrite Hsize|].
      rewrite Hq, run_lift_bind.
      destruct (density_sum_total (with_density D P g' s) pos_i ns) as (d & Hds).
      { done. }
      { intros j Hj.
        destruct (neighbors_live _ _ _ _ _ _ _ Hcs Hbuild Hq j Hj) as [_ Hlt].
        fields. split; [done | lia]. }
      fields. rewrite Hds, run_lift_bind, run_bind.
      rewrite assign_particles_ok by (fields; lia).
      rewrite assign_particles_ok by (fields; lia).
      fields. exists (<[i := py_max d (rest_density s * 0.01)]> D),
        (<[i := gas_constant s * (py_max d (rest_density s * 0.01) - rest_density s)]> P).
      split; [done|]. rewrite !length_insert. repeat split; try done.
      intros i' Hi'. destruct (decide (i' = i)) as [->|Hne].
      + eexists. rewrite !list_lookup_insert_eq by lia.
        repeat split; try done. apply py_max_ge_r.
      + rewrite !list_lookup_insert_ne by done. apply Hall. lia. }
  apply wp_run in Hwp as ([] & s' & Hrun & D & P & -> & HD & HP & Hall).
  by exists D, P, g'.
Qed.
End density_pass.

Lemma wpe_assign_particles {A} (proj : ParticleSystem -> list A) upd i x
    (Q : unit -> SPHSolver -> Prop) E s :
  ((i < length (proj (particles s)))%nat ->
     Q tt (set_particles (upd (<[i := x]> (proj (particles s))) (particles s)) s)) ->
  (~ (i < length (proj (particles s)))%nat -> E IndexError s) ->
  wpe (SPHSolver.assign_particles proj upd i x) Q E s.
Proof.
  intros HQ HE. unfold wpe.
  destruct (decide (i < length (proj (particles s)))%nat) as [Hi|Hi].
  - rewrite assign_particles_ok by done. auto.
  - unfold SPHSolver.assign_particles, zoom. rewrite assign_raise by done.
    destruct s as [? ? ? ? ? ? ? ? []]. by apply HE.
Qed.

(** A step in the exception monad inside a method: continue with the
    value, or stop with the exception. *)
Lemma wpe_lift_bind {S A B} (r : result A) (f : A -> M S B) (Q : B -> S -> Prop)
    (E : exn -> S -> Prop) (s : S) :
  (forall a, r = Ok a -> wpe (f a) Q E s) ->
  (forall e, r = Raise e -> E e s) ->
  wpe (lift r ≫= f) Q E s.
Proof.
  intros HQ HE. apply wpe_bind, wpe_lift. destruct r; auto.
Qed.

Lemma wpe_lift_ok {S A B} (a : A) (f : A -> M S B) (Q : B -> S -> Prop)
    (E : exn -> S -> Prop) (s : S) :
  wpe (lift (Ok a) ≫= f) Q E s = wpe (f a) Q E s.
Proof. reflexivity. Qed.

(** ** The density floor in a float32 array

    The particle arrays are NumPy arrays of [float32]: an assignment
    [densities[i] = x] stores a float32 number nearest to [x].  The
    arrays of the model hold the assigned reals; the two definitions
    below say which numbers the program's arrays can hold in their
    place.  Overflow to an infinity is outside the model. *)

(** The finite numbers of IEEE binary32: a significand of 24 bits and an
    exponent between -149 and 104. *)
Definition float32 (y : R) : Prop :=
  exists m e : Z,
    (Z.abs m < 2 ^ 24)%Z /\ (-149 <= e <= 104)%Z /\ y = IZR m * powerRZ 2 e.

(** [y] is a float32 number nearest to [x]: what a float32 slot holds
    after [x] has been assigned to it. *)
Definition stored_as_float32 (x y : R) : Prop :=
  float32 y /\ forall z, float32 z -> Rabs (x - y) <= Rabs (x - z).

(** Rounding to nearest never crosses a float32 number. *)
Lemma stored_as_float32_above (x y f : R) :
  stored_as_float32 x y -> float32 f -> f <= x -> f <= y.
Proof.
  intros [_ Hnear] Hf Hfx. specialize (Hnear f Hf).
  destruct (Rle_or_lt f y) as [|Hlt]; [done|].
  rewrite !Rabs_pos_eq in Hnear by lra. lra.
Qed.

(** Every live particle has a density of at least [rest_density * 0.01]. *)
Definition density_floor (s : SPHSolver) : Prop :=
  forall i, (i < n_active s)%nat ->
    exists d, densities (particles s) !! i = Some d /\ d >= 0.01 * rest_density s.

(** Whenever the density pass returns, the floor holds. *)
Lemma density_floor_on_return (s : SPHSolver) :
  wpe SPHSolver.compute_density_pressure
    (fun _ s' => density_floor s') (fun _ _ => True) s.
Proof.
  set (I := fun (k : nat) (s' : SPHSolver) =>
    n_active s' = n_active s /\ rest_density s' = rest_density s /\
    forall i, (i < k)%nat ->
      exists d, densities (particles s') !! i = Some d /\ d >= 0.01 * rest_density s).
  unfold SPHSolver.compute_density_pressure.
  apply wpe_bind, wpe_get, wpe_bind, wpe_zoom.
  unfold wpe at 1.
  destruct (SpatialHashGrid.build _ _) as [[[]|e] g']; [|done].
  eapply wpe_mono;
    [apply (wpe_for_range I (fun _ _ => True) _ (n_active s) 0%nat) | |done].
  - repeat split. lia.
  - intros i s1 Hi (Hn1 & Hr1 & Hall).
    apply wpe_bind, wpe_get.
    apply wpe_lift_bind; [intros pos_i _|done].
    apply wpe_lift_bind; [intros ns _|done].
    apply wpe_lift_bind; [intros d _|done].
    apply wpe_bind, wpe_assign_particles; [intros Hlt|done].
    apply wpe_assign_particles; [intros Hlt'|done].
    unfold I. fields. repeat split; try done.
    intros i' Hi'. destruct (decide (i' = i)) as [->|Hne].
    + eexists. rewrite list_lookup_insert_eq by done. split; [done|].
      rewrite Hr1. pose proof (py_max_ge_r d (rest_density s * 0.01)). lra.
    + rewrite list_lookup_insert_ne by done. apply Hall. lia.
  - intros [] s' (Hn' & Hr' & Hall) i Hi. rewrite Hr'. apply Hall. lia.
Qed.

(** C5 (amended). Density floor.  Whenever [compute_density_pressure]
    returns, every live slot of the density array has been assigned a
    value [d], and the float32 number [y] that the array then holds, a
    float32 number nearest to [d], is at least every float32 number that
    does not exceed [0.01 * rest_density].  On a well-formed solver with
    a non-zero smoothing length the pass does return. *)
Theorem density_floor_after_pass (s : SPHSolver) :
  (forall s', SPHSolver.compute_density_pressure s = (Ok tt, s') ->
     forall i, (i < n_active s')%nat ->
       exists d, densities (particles s') !! i = Some d /\
         forall y, stored_as_float32 d y ->
           forall f, float32 f -> f <= 0.01 * rest_density s' -> f <= y) /\
  (well_formed s -> h s <> 0 ->
     exists s', SPHSolver.compute_density_pressure s = (Ok tt, s')).
Proof.
  split.
  - intros s' Hrun i Hi. pose proof (density_floor_on_return s) as Hwp.
    unfold wpe in Hwp. rewrite Hrun in Hwp.
    destruct (Hwp i Hi) as (d & Hd & Hfloor).
    exists d. split; [done|]. intros y Hy f Hf Hle.
    apply (stored_as_float32_above d); [done | done | lra].
  - intros Hwf Hh.
    destruct (compute_density_pressure_spec s Hwf Hh) as (D & P & g' & Hrun & _).
    by eexists.
Qed.

(* ------------------------------------------------------------------ *)
(** ** Solver: the force pass *)

(** A computation that does not end in [FloatingPointError], the model's
    report of a NumPy division by zero. *)
Definition finite {A} (r : result A) : Prop := r <> Raise FloatingPointError.

Lemma finite_bind {A B} (r : result A) (f : A -> result B) :
  finite r -> (forall a, r = Ok a -> finite (f a)) -> finite (r ≫= f).
Proof.
  intros Hr Hf. destruct r as [a|e]; [by apply Hf|].
  unfold finite in *. by destruct e.
Qed.

Lemma finite_getitem {A} (l : list A) (i : nat) : finite (getitem l i).
Proof. unfold getitem. by destruct (l !! i). Qed.

Lemma finite_py_div (x y : R) : finite (py_div x y).
Proof. unfold py_div. by case_decide. Qed.

Lemma finite_foldM {A B} (f : B -> A -> result B) (l : list A) :
  (forall b a, finite (f b a)) -> forall b, finite (foldM f l b).
Proof.
  intros Hf. induction l as [|a l IH]; intros b; simpl; [done|].
  apply finite_bind; [apply Hf | intros b' _; apply IH].
Qed.

Lemma np_div_ok (x y : R) : y <> 0 -> np_div x y = Ok (x / y).
Proof. intros Hy. unfold np_div. by rewrite decide_False. Qed.

Lemma np_vdiv_ok (a : vec3) (y : R) :
  y <> 0 -> np_vdiv a y = Ok (a.1.1 / y, a.1.2 / y, a.2 / y).
Proof. intros Hy. destruct a as [[ax ay] az]. unfold np_vdiv. by rewrite decide_False. Qed.

(** The Spiky gradient never raises: its two divisions are reached only
    with [1e-6 <= |r| <= h]. *)
Lemma spiky_gradient_total (r : vec3) (c : R) :
  exists g, SPHKernel.spiky_gradient r c = Ok g.
Proof.
  unfold SPHKernel.spiky_gradient. case_decide as Hr; [by eexists|].
  assert (0 < norm r /\ 0 < c) as [Hn Hc].
  { destruct (Rle_or_lt (norm r) c), (Rle_or_lt 1e-6 (norm r)); try tauto.
    split; lra. }
  unfold py_div. rewrite decide_False.
  - unfold mbind, result_bind. rewrite np_vdiv_ok by lra. by eexists.
  - pose proof PI_RGT_0. pose proof (pow_lt c 6 Hc). nra.
Qed.

Lemma viscosity_laplacian_total (r : vec3) (c : R) :
  c <> 0 -> exists w, SPHKernel.viscosity_laplacian r c = Ok w.
Proof.
  intros Hc. unfold SPHKernel.viscosity_laplacian. case_decide; [by eexists|].
  unfold py_div. rewrite decide_False; [by eexists|].
  pose proof PI_neq0. pose proof (pow_nonzero c 6 Hc).
  by apply Rmult_integral_contrapositive_currified.
Qed.

Lemma finite_viscosity_laplacian (r : vec3) (c : R) :
  finite (SPHKernel.viscosity_laplacian r c).
Proof.
  unfold SPHKernel.viscosity_laplacian. case_decide; [done|].
  apply finite_bind; [apply finite_py_div | done].
Qed.

(** The neighbour loop of the force pass never divides by zero: both
    divisions by a neighbour's density sit under [density > 0]. *)
Lemma finite_pair_forces (s : SPHSolver) (i : nat) (pos_i vel_i : vec3)
    (ns : list nat) :
  finite (SPHSolver.pair_forces s i pos_i vel_i ns).
Proof.
  unfold SPHSolver.pair_forces. apply finite_foldM.
  intros [f_pressure f_viscosity] j. case_decide; [done|].
  apply finite_bind; [apply finite_getitem | intros pos_j _].
  apply finite_bind; [apply finite_getitem | intros vel_j _].
  apply finite_bind.
  { destruct (spiky_gradient_total (vsub pos_i pos_j) (h s)) as [g ->]. done. }
  intros grad_W _.
  apply finite_bind; [apply finite_getitem | intros rho_j _].
  apply finite_bind.
  { case_decide as Hrho; [|done].
    apply finite_bind; [apply finite_getitem | intros P_i _].
    apply finite_bind; [apply finite_getitem | intros P_j _].
    apply finite_bind; [apply finite_getitem | intros m_j _].
    rewrite np_div_ok by lra. done. }
  intros f_pressure' _.
  apply finite_bind; [apply finite_viscosity_laplacian | intros lap_W _].
  apply finite_bind; [|done].
  case_decide as Hrho; [|done].
  apply finite_bind; [apply finite_getitem | intros visc _].
  apply finite_bind; [apply finite_getitem | intros m_j _].
  rewrite np_vdiv_ok by lra. done.
Qed.

Lemma finite_get_neighbors g q radius :
  finite (SpatialHashGrid.get_neighbors g q radius).
Proof.
  unfold SpatialHashGrid.get_neighbors, SpatialHashGrid.hash_position.
  destruct q as [[x y] z].
  assert (forall p, finite (SpatialHashGrid.hash_axis p (cell_size g))) as Hax.
  { intros p. unfold SpatialHashGrid.hash_axis. repeat case_decide; done. }
  apply finite_bind; [|by intros [[? ?] ?] _].
  apply finite_bind; [apply Hax | intros i _].
  apply finite_bind; [apply Hax | intros j _].
  apply finite_bind; [apply Hax | done].
Qed.

(** The force pass as a whole never ends in [FloatingPointError]. *)
Lemma compute_forces_finite (s : SPHSolver) :
  wpe SPHSolver.compute_forces (fun _ _ => True)
    (fun e _ => e <> FloatingPointError) s.
Proof.
  unfold SPHSolver.compute_forces.
  apply wpe_bind, wpe_modify, wpe_bind, wpe_get.
  eapply wpe_mono;
    [apply (wpe_for_range (fun _ _ => True) (fun e _ => e <> FloatingPointError)
              _ _ 0%nat) | done | done]; [done|].
  intros i s1 _ _.
  assert (forall {A B} (r : result A) (f : A -> M SPHSolver B),
    finite r ->
    (forall a, wpe (f a) (fun _ _ => True) (fun e _ => e <> FloatingPointError) s1) ->
    wpe (lift r ≫= f) (fun _ _ => True) (fun e _ => e <> FloatingPointError) s1)
    as Hstep.
  { intros A B r f Hr Hf. apply wpe_lift_bind; [by intros a _|].
    intros e -> ->. by apply Hr. }
  apply wpe_bind, wpe_get.
  apply Hstep; [apply finite_getitem | intros pos_i].
  apply Hstep; [apply finite_getitem | intros vel_i].
  apply Hstep; [apply finite_get_neighbors | intros ns].
  apply Hstep; [apply finite_pair_forces | intros [f_pressure f_viscosity]].
  apply Hstep; [apply finite_getitem | intros m_i].
  by apply wpe_assign_particles.
Qed.

(** The state after the force pass: a new force array. *)
Definition with_forces (F : list vec3) (s : SPHSolver) : SPHSolver :=
  set_particles (set_forces F (particles s)) s.

(** Every index stored in the grid is a live index. *)
Definition grid_valid (s : SPHSolver) : Prop :=
  forall c j, j ∈ bucket (spatial_grid s) c -> (j < n_active s)%nat.

Lemma candidates_live (s : SPHSolver) (q : vec3) (radius : R) (ns : list nat) :
  cell_size (spatial_grid s) <> 0 -> grid_valid s ->
  SpatialHashGrid.get_neighbors (spatial_grid s) q radius = Ok ns ->
  forall j, j ∈ ns -> (j < n_active s)%nat.
Proof.
  intros Hc Hvalid Hq j Hj.
  destruct (get_neighbors_spec (spatial_grid s) q radius Hc) as (ns1 & Hq1 & Hns).
  rewrite Hq in Hq1. injection Hq1 as <-.
  apply Hns in Hj as (di & dj & dk & _ & _ & _ & Hj). by eapply Hvalid.
Qed.

Lemma pair_forces_total (s : SPHSolver) (i : nat) (pos_i vel_i : vec3)
    (ns : list nat) :
  ParticleSystem.shaped (particles s) -> h s <> 0 ->
  (i < Z.to_nat (max_particles (particles s)))%nat ->
  (forall j, j ∈ ns -> (j < Z.to_nat (max_particles (particles s)))%nat) ->
  exists f, SPHSolver.pair_forces s i pos_i vel_i ns = Ok f.
Proof.
  intros (Hp & Hv & Hf & Hm & Hd & Hpr & Hc & Hvi) Hh Hi Hns.
  unfold SPHSolver.pair_forces.
  match goal with |- context [foldM ?f ns ?b] =>
    destruct (foldM_result_ok (fun _ => True) f ns b) as (r & Hr & _);
      [done | | by exists r]
  end.
  intros [f_pressure f_viscosity] j Hj _. apply Hns in Hj.
  case_decide; [by eexists|].
  destruct (getitem_lt (positions (particles s)) j) as (pos_j & _ & ->); [lia|].
  destruct (getitem_lt (velocities (particles s)) j) as (vel_j & _ & ->); [lia|].
  destruct (getitem_lt (densities (particles s)) j) as (rho_j & _ & Hrho); [lia|].
  destruct (getitem_lt (pressures (particles s)) i) as (P_i & _ & HPi); [lia|].
  destruct (getitem_lt (pressures (particles s)) j) as (P_j & _ & HPj); [lia|].
  destruct (getitem_lt (masses (particles s)) j) as (m_j & _ & Hmj); [lia|].
  destruct (getitem_lt (viscosities (particles s)) i) as (visc & _ & Hvisc); [lia|].
  destruct (spiky_gradient_total (vsub pos_i pos_j) (h s)) as [grad_W Hgrad].
  destruct (viscosity_laplacian_total (vsub pos_i pos_j) (h s) Hh) as [lap_W Hlap].
  unfold mbind, result_bind. rewrite Hgrad, Hrho.
  case_decide as Hpos.
  - rewrite HPi, HPj, Hmj, np_div_ok, Hlap, Hvisc, np_vdiv_ok by lra. by eexists.
  - rewrite Hlap. by eexists.
Qed.

Section force_pass.
Variable s : SPHSolver.
Hypothesis Hwf : well_formed s.
Hypothesis Hh : h s <> 0.
Hypothesis Hgrid : grid_valid s.

(** On a well-formed solver with a valid grid, [compute_forces] returns
    normally and writes, for every live particle, the sum of its
    pressure, viscosity and gravity forces. *)
Lemma compute_forces_spec :
  exists F,
    SPHSolver.compute_forces s = (Ok tt, with_forces F s) /\
    length F = length (forces (particles s)) /\
    forall i, (i < n_active s)%nat ->
      exists pos_i vel_i ns f_pressure f_viscosity m_i,
        positions (particles s) !! i = Some pos_i /\
        velocities (particles s) !! i = Some vel_i /\
        SpatialHashGrid.get_neighbors (spatial_grid s) pos_i (h s) = Ok ns /\
        SPHSolver.pair_forces s i pos_i vel_i ns = Ok (f_pressure, f_viscosity) /\
        masses (particles s) !! i = Some m_i /\
        F !! i = Some (vadd (vadd f_pressure f_viscosity)
                         (vscale m_i (gravity s))).
Proof.
  destruct Hwf as (Hshape & Hn & Hcell).
  pose proof Hshape as (Hp & Hv & Hf & Hm & Hd & Hpr & Hc & Hvi).
  assert (cell_size (spatial_grid s) <> 0) as Hcs by (by rewrite Hcell).
  set (I := fun (k : nat) (s' : SPHSolver) =>
    exists F, s' = with_forces F s /\
      length F = length (forces (particles s)) /\
      forall i, (i < k)%nat ->
        exists pos_i vel_i ns f_pressure f_viscosity m_i,
          positions (particles s) !! i = Some pos_i /\
          velocities (particles s) !! i = Some vel_i /\
          SpatialHashGrid.get_neighbors (spatial_grid s) pos_i (h s) = Ok ns /\
          SPHSolver.pair_forces s i pos_i vel_i ns = Ok (f_pressure, f_viscosity) /\
          masses (particles s) !! i = Some m_i /\
          F !! i = Some (vadd (vadd f_pressure f_viscosity)
                           (vscale m_i (gravity s)))).
  assert (wp SPHSolver.compute_forces (fun _ s' => I (n_active s) s') s) as Hwp.
  { unfold SPHSolver.compute_forces.
    apply wpe_bind, wpe_modify, wpe_bind, wpe_get. fields.
    apply (wpe_for_range I _ _ (n_active s) 0%nat).
    - eexists. split; [reflexivity|]. split; [|lia].
      unfold SPHSolver.reset_forces. fields.
      rewrite length_app, length_replicate, length_take, length_drop. lia.
    - intros i s1 Hi (F & -> & HF & Hall).
      unfold wpe, with_forces. rewrite run_get_bind. fields.
      destruct (getitem_lt (positions (particles s)) i) as (pos_i & Hpi & ->); [lia|].
      rewrite run_lift_bind.
      destruct (getitem_lt (velocities (particles s)) i) as (vel_i & Hvi' & ->); [lia|].
      rewrite run_lift_bind.
      destruct (get_neighbors_spec (spatial_grid s) pos_i (h s) Hcs) as (ns & Hq & _).
      rewrite Hq, run_lift_bind.
      destruct (pair_forces_total s i pos_i vel_i ns) as ([fp fv] & Hpf);
        [done | done | lia | |].
      { intros j Hj. pose proof (candidates_live s _ _ _ Hcs Hgrid Hq j Hj). lia. }
      change (SPHSolver.pair_forces _ i pos_i vel_i ns)
        with (SPHSolver.pair_forces s i pos_i vel_i ns).
      rewrite Hpf, run_lift_bind.
      destruct (getitem_lt (masses (particles s)) i) as (m_i & Hmi & ->); [lia|].
      rewrite run_lift_bind.
      rewrite assign_particles_ok by (fields; lia). fields.
      eexists. split; [reflexivity|]. rewrite length_insert. split; [done|].
      intros i' Hi'. destruct (decide (i' = i)) as [->|Hne].
      + exists pos_i, vel_i, ns, fp, fv, m_i.
        rewrite list_lookup_insert_eq by lia. done.
      + rewrite list_lookup_insert_ne by done. apply Hall. lia. }
  apply wp_run in Hwp as ([] & s' & Hrun & F & -> & HF & Hall).
  by exists F.
Qed.
End force_pass.

(* ------------------------------------------------------------------ *)
(** ** Solver: integration and reflection *)

(** The acceleration used by [integrate] for mass [m] and force [f]. *)
Definition acceleration_of (m : R) (f : vec3) : vec3 :=
  if decide (m > 0) then (f.1.1 / m, f.1.2 / m, f.2 / m) else vzero.

(** The three passes of the axis loop of [apply_boundary_conditions]. *)
Definition bounce (p v extent : vec3) : vec3 * vec3 :=
  let bx := SPHSolver.bounce_axis p.1.1 v.1.1 extent.1.1 in
  let b_y := SPHSolver.bounce_axis p.1.2 v.1.2 extent.1.2 in
  let bz := SPHSolver.bounce_axis p.2 v.2 extent.2 in
  ((bx.1, b_y.1, bz.1), (bx.2, b_y.2, bz.2)).

(** Position and velocity of one particle after its pass of [integrate]. *)
Definition advance (s : SPHSolver) (m : R) (f v p : vec3) : vec3 * vec3 :=
  let v' := vadd v (vmul (acceleration_of m f) (dt s)) in
  let p' := vadd p (vmul v' (dt s)) in
  bounce p' v' (domain_size s).

(** The state after integration: new position and velocity arrays. *)
Definition with_motion (X V : list vec3) (s : SPHSolver) : SPHSolver :=
  set_particles (set_velocities V (set_positions X (particles s))) s.

Section integration.
Variable s : SPHSolver.
Hypothesis Hwf : well_formed s.

Lemma integrate_spec :
  exists X V,
    SPHSolver.integrate s = (Ok tt, with_motion X V s) /\
    length X = length (positions (particles s)) /\
    length V = length (velocities (particles s)) /\
    forall i, (i < n_active s)%nat ->
      exists m f v p,
        masses (particles s) !! i = Some m /\
        forces (particles s) !! i = Some f /\
        velocities (particles s) !! i = Some v /\
        positions (particles s) !! i = Some p /\
        X !! i = Some (advance s m f v p).1 /\
        V !! i = Some (advance s m f v p).2.
Proof.
  destruct Hwf as (Hshape & Hn & Hcell).
  pose proof Hshape as (Hp & Hv & Hf & Hm & Hd & Hpr & Hc & Hvi).
  set (I := fun (k : nat) (s' : SPHSolver) =>
    exists X V, s' = with_motion X V s /\
      length X = length (positions (particles s)) /\
      length V = length (velocities (particles s)) /\
      (forall i, (i < k)%nat ->
        exists m f v p,
          masses (particles s) !! i = Some m /\
          forces (particles s) !! i = Some f /\
          velocities (particles s) !! i = Some v /\
          positions (particles s) !! i = Some p /\
          X !! i = Some (advance s m f v p).1 /\
          V !! i = Some (advance s m f v p).2) /\
      (forall i, (k <= i)%nat ->
         X !! i = positions (particles s) !! i /\
         V !! i = velocities (particles s) !! i)).
  assert (wp SPHSolver.integrate (fun _ s' => I (n_active s) s') s) as Hwp.
  { unfold SPHSolver.integrate. apply wpe_bind, wpe_get.
    apply (wpe_for_range I _ _ (n_active s) 0%nat).
    - exists (positions (particles s)), (velocities (particles s)).
      split; [by destruct s as [? ? ? ? ? ? ? ? []]|].
      repeat split; try done. lia.
    - intros i s1 Hi (X & V & -> & HX & HV & Hdone & Hrest).
      destruct (Hrest i) as [HXi HVi]; [lia|].
      destruct (getitem_lt (masses (particles s)) i) as (m & Hmi & Hgm); [lia|].
      destruct (getitem_lt (forces (particles s)) i) as (f & Hfi & Hgf); [lia|].
      destruct (lookup_lt_is_Some_2 (velocities (particles s)) i) as [v Hvi']; [lia|].
      destruct (lookup_lt_is_Some_2 (positions (particles s)) i) as [p Hpi]; [lia|].
      rewrite Hvi' in HVi. rewrite Hpi in HXi.
      unfold wpe, with_motion. rewrite run_get_bind. fields.
      rewrite Hgm, run_lift_bind.
      assert (forall B (k : vec3 -> M SPHSolver B) s0,
        ((if decide (m > 0)
          then f_i ← lift (getitem (forces (particles s)) i); lift (np_vdiv f_i m)
          else mret vzero) ≫= k) s0 = k (acceleration_of m f) s0) as Hacc.
      { intros B k s0. unfold acceleration_of. case_decide as Hpos; [|done].
        rewrite Hgf. rewrite run_bind, run_lift_bind. unfold lift.
        by rewrite np_vdiv_ok by lra. }
      rewrite Hacc. rewrite (getitem_ok _ _ _ HVi), run_lift_bind, run_bind.
      rewrite assign_particles_ok by (fields; lia). fields.
      rewrite (getitem_ok _ _ _ HXi), run_lift_bind, run_bind.
      rewrite assign_particles_ok by (fields; lia). fields.
      remember (vadd v (vmul (acceleration_of m f) (dt s))) as v' eqn:Hv'.
      remember (vadd p (vmul v' (dt s))) as p' eqn:Hp'.
      assert (advance s m f v p = bounce p' v' (domain_size s)) as Hadv.
      { unfold advance. by rewrite <- Hv', <- Hp'. }
      unfold SPHSolver.apply_boundary_conditions. rewrite run_get_bind. fields.
      assert (<[i := p']> X !! i = Some p') as Hx1
        by (apply list_lookup_insert_eq; lia).
      assert (<[i := v']> V !! i = Some v') as Hv1
        by (apply list_lookup_insert_eq; lia).
      rewrite (getitem_ok _ _ _ Hx1), run_lift_bind.
      rewrite (getitem_ok _ _ _ Hv1), run_lift_bind.
      unfold bounce in Hadv.
      destruct p' as [[px p_y] pz], v' as [[v_x v_y] v_z],
        (domain_size s) as [[lx ly] lz]. cbn [fst snd] in Hadv.
      destruct (SPHSolver.bounce_axis px v_x lx) as [bx bvx].
      destruct (SPHSolver.bounce_axis p_y v_y ly) as [b_y bvy].
      destruct (SPHSolver.bounce_axis pz v_z lz) as [bz bvz].
      cbn [fst snd] in Hadv. rewrite run_bind.
      rewrite assign_particles_ok by (fields; rewrite length_insert; lia). fields.
      rewrite assign_particles_ok by (fields; rewrite length_insert; lia). fields.
      exists (<[i := (bx, b_y, bz)]> (<[i := (px, p_y, pz)]> X)),
        (<[i := (bvx, bvy, bvz)]> (<[i := (v_x, v_y, v_z)]> V)).
      split; [reflexivity|]. rewrite !length_insert.
      split; [done|]. split; [done|]. split.
      + intros i' Hi'. destruct (decide (i' = i)) as [->|Hne].
        * exists m, f, v, p. rewrite Hadv. cbn [fst snd].
          rewrite !list_lookup_insert_eq by (rewrite ?length_insert; lia). done.
        * rewrite !list_lookup_insert_ne by done. apply Hdone. lia.
      + intros i' Hi'. rewrite !list_lookup_insert_ne by lia. apply Hrest. lia. }
  apply wp_run in Hwp as ([] & s' & Hrun & X & V & -> & HX & HV & Hdone & _).
  by exists X, V.
Qed.
End integration.

(* ------------------------------------------------------------------ *)
(** ** Solver: one step *)

Lemma with_density_well_formed (s : SPHSolver) (D P : list R) g' :
  well_formed s ->
  length D = length (densities (particles s)) ->
  length P = length (pressures (particles s)) ->
  cell_size g' = cell_size (spatial_grid s) ->
  well_formed (with_density D P g' s).
Proof.
  intros ((Hp & Hv & Hf & Hm & Hd & Hpr & Hc & Hvi) & Hn & Hcell) HD HP Hg.
  unfold well_formed, ParticleSystem.shaped. fields.
  repeat split; try done; congruence.
Qed.

Lemma with_forces_well_formed (s : SPHSolver) (F : list vec3) :
  well_formed s -> length F = length (forces (particles s)) ->
  well_formed (with_forces F s).
Proof.
  intros ((Hp & Hv & Hf & Hm & Hd & Hpr & Hc & Hvi) & Hn & Hcell) HF.
  unfold well_formed, ParticleSystem.shaped, with_forces. fields.
  repeat split; try done; congruence.
Qed.

Lemma with_motion_well_formed (s : SPHSolver) (X V : list vec3) :
  well_formed s ->
  length X = length (positions (particles s)) ->
  length V = length (velocities (particles s)) ->
  well_formed (with_motion X V s).
Proof.
  intros ((Hp & Hv & Hf & Hm & Hd & Hpr & Hc & Hvi) & Hn & Hcell) HX HV.
  unfold well_formed, ParticleSystem.shaped, with_motion. fields.
  repeat split; try done; congruence.
Qed.

(** The grid rebuilt by the density pass holds live indices only. *)
Lemma rebuilt_grid_valid (s : SPHSolver) (D P : list R) g' :
  cell_size (spatial_grid s) <> 0 ->
  SpatialHashGrid.build (take (n_active s) (positions (particles s)))
    (spatial_grid s) = (Ok tt, g') ->
  grid_valid (with_density D P g' s).
Proof.
  intros Hc Hbuild c j Hj. fields.
  destruct (build_spec (take (n_active s) (positions (particles s))) _ Hc)
    as (g1 & Hb1 & _ & Hmem).
  rewrite Hbuild in Hb1. injection Hb1 as <-.
  apply Hmem in Hj as (p & Hp & _).
  by apply lookup_take_Some in Hp as [_ Hlt].
Qed.

Section one_step.
Variable s : SPHSolver.
Hypothesis Hwf : well_formed s.
Hypothesis Hh : h s <> 0.
Hypothesis Hlive : n_active s <> 0%nat.

(** One [step] of a well-formed, non-empty solver returns normally.
    The result is described phase by phase: densities [D] and pressures
    [P] on the rebuilt grid [g'], then forces [F], then positions [X]
    and velocities [V]. *)
Lemma step_spec :
  exists D P g' F X V,
    SPHSolver.step s =
      (Ok tt, set_clock (time s + dt s) (step_count s + 1)
                (with_motion X V (with_forces F (with_density D P g' s)))) /\
    length D = length (densities (particles s)) /\
    length P = length (pressures (particles s)) /\
    length F = length (forces (particles s)) /\
    length X = length (positions (particles s)) /\
    length V = length (velocities (particles s)) /\
    cell_size g' = cell_size (spatial_grid s) /\
    (forall i, (i < n_active s)%nat ->
       exists d, D !! i = Some d /\ rest_density s * 0.01 <= d /\
                 P !! i = Some (gas_constant s * (d - rest_density s))) /\
    (forall i, (i < n_active s)%nat ->
       exists m f v p ns f_pressure f_viscosity,
         masses (particles s) !! i = Some m /\
         velocities (particles s) !! i = Some v /\
         positions (particles s) !! i = Some p /\
         SpatialHashGrid.get_neighbors g' p (h s) = Ok ns /\
         (forall j, j ∈ ns -> (j < n_active s)%nat) /\
         SPHSolver.pair_forces (with_density D P g' s) i p v ns
           = Ok (f_pressure, f_viscosity) /\
         f = vadd (vadd f_pressure f_viscosity) (vscale m (gravity s)) /\
         F !! i = Some f /\
         X !! i = Some (advance s m f v p).1 /\
         V !! i = Some (advance s m f v p).2).
Proof.
  pose proof Hwf as (Hshape & Hn & Hcell).
  assert (cell_size (spatial_grid s) <> 0) as Hcs by (by rewrite Hcell).
  destruct (compute_density_pressure_spec s Hwf Hh)
    as (D & P & g' & Hrun1 & Hbuild & HD & HP & Hdens).
  destruct (build_spec (take (n_active s) (positions (particles s))) _ Hcs)
    as (g1 & Hb1 & Hsize & _).
  rewrite Hbuild in Hb1. injection Hb1 as <-.
  set (s1 := with_density D P g' s) in *.
  assert (well_formed s1) as Hwf1 by (by apply with_density_well_formed).
  assert (grid_valid s1) as Hvalid1 by (by apply rebuilt_grid_valid).
  destruct (compute_forces_spec s1 Hwf1 Hh Hvalid1) as (F & Hrun2 & HF & Hforce).
  set (s2 := with_forces F s1) in *.
  assert (well_formed s2) as Hwf2 by (by apply with_forces_well_formed).
  destruct (integrate_spec s2 Hwf2) as (X & V & Hrun3 & HX & HV & Hmove).
  exists D, P, g', F, X, V.
  split.
  { unfold SPHSolver.step. rewrite run_get_bind, decide_False by done.
    rewrite (run_bind_ok _ _ _ _ _ Hrun1), (run_bind_ok _ _ _ _ _ Hrun2),
      (run_bind_ok _ _ _ _ _ Hrun3).
    reflexivity. }
  repeat (split; [done|]).
  intros i Hi.
  destruct (Hforce i Hi) as (p & v & ns & fp & fv & m & Hp & Hv & Hq & Hpf & Hm & HFi).
  destruct (Hmove i Hi) as (m' & f' & v' & p' & Hm' & Hf' & Hv' & Hp' & HXi & HVi).
  assert (forall j, j ∈ ns -> (j < n_active s)%nat) as Hns.
  { intros j Hj. apply (candidates_live s1 p (h s) ns); try done.
    unfold s1. fields. congruence. }
  clear Hforce Hmove Hrun1 Hrun2 Hrun3 Hwf1 Hwf2 Hvalid1 Hdens.
  subst s2 s1. unfold with_forces, advance in *. fields.
  assert (m' = m) as -> by congruence.
  assert (v' = v) as -> by congruence.
  assert (p' = p) as -> by congruence.
  assert (f' = vadd (vadd fp fv) (vscale m (gravity s))) as -> by congruence.
  exists m, (vadd (vadd fp fv) (vscale m (gravity s))), v, p, ns, fp, fv.
  repeat (split; [done|]). done.
Qed.
End one_step.

(** A point of the domain box [[0, Lx] x [0, Ly] x [0, Lz]]. *)
Definition in_box (p extent : vec3) : Prop :=
  0 <= p.1.1 <= extent.1.1 /\ 0 <= p.1.2 <= extent.1.2 /\ 0 <= p.2 <= extent.2.

Lemma bounce_axis_inside (p v extent : R) :
  0 <= p <= extent -> SPHSolver.bounce_axis p v extent = (p, v).
Proof.
  intros Hp. unfold SPHSolver.bounce_axis.
  rewrite decide_False by lra. by rewrite decide_False by lra.
Qed.

Lemma bounce_inside (p v extent : vec3) :
  in_box p extent -> bounce p v extent = (p, v).
Proof.
  intros (Hx & Hy & Hz). unfold bounce.
  rewrite !bounce_axis_inside by done.
  by destruct p as [[? ?] ?], v as [[? ?] ?].
Qed.

(** C6. Semi-implicit Euler.  For a live particle of positive mass whose
    integrated position stays inside the domain box, [integrate] sets the
    velocity to [v + (f / m) * dt] and the position to [p + v_new * dt],
    with [v_new] the updated velocity. *)
Theorem semi_implicit_euler (s : SPHSolver) (i : nat) (m : R) (f v p : vec3) :
  well_formed s ->
  (i < n_active s)%nat ->
  masses (particles s) !! i = Some m ->
  forces (particles s) !! i = Some f ->
  velocities (particles s) !! i = Some v ->
  positions (particles s) !! i = Some p ->
  m > 0 ->
  let v_new := vadd v (vmul (f.1.1 / m, f.1.2 / m, f.2 / m) (dt s)) in
  let p_new := vadd p (vmul v_new (dt s)) in
  in_box p_new (domain_size s) ->
  exists s',
    SPHSolver.integrate s = (Ok tt, s') /\
    velocities (particles s') !! i = Some v_new /\
    positions (particles s') !! i = Some p_new.
Proof.
  intros Hwf Hi Hm Hf Hv Hp Hpos v_new p_new Hbox.
  destruct (integrate_spec s Hwf) as (X & V & Hrun & _ & _ & Hmove).
  destruct (Hmove i Hi) as (m' & f' & v' & p' & Hm' & Hf' & Hv' & Hp' & HX & HV).
  assert (m' = m) as -> by congruence.
  assert (f' = f) as -> by congruence.
  assert (v' = v) as -> by congruence.
  assert (p' = p) as -> by congruence.
  assert (advance s m f v p = (p_new, v_new)) as Hadv.
  { unfold advance, acceleration_of. rewrite decide_True by done.
    by apply bounce_inside. }
  rewrite Hadv in HX, HV.
  exists (with_motion X V s). split; [done|]. unfold with_motion. by fields.
Qed.

(** One [step] of a well-formed solver with a non-zero smoothing length
    returns normally and keeps the solver well-formed. *)
Lemma step_returns (s : SPHSolver) :
  well_formed s -> h s <> 0 ->
  exists s',
    SPHSolver.step s = (Ok tt, s') /\
    well_formed s' /\ h s' = h s /\ n_active s' = n_active s.
Proof.
  intros Hwf Hh.
  destruct (decide (n_active s = 0%nat)) as [Hn|Hn].
  - exists s. split; [|done].
    unfold SPHSolver.step. by rewrite run_get_bind, decide_True.
  - destruct (step_spec s Hwf Hh Hn)
      as (D & P & g' & F & X & V & Hrun & HD & HP & HF & HX & HV & Hg & _).
    eexists. split; [exact Hrun|]. split; [|done].
    apply with_motion_well_formed; [|done|done].
    apply with_forces_well_formed; [|done].
    by apply with_density_well_formed.
Qed.

Lemma hash_position_raises g (p : vec3) :
  cell_size g = 0 ->
  exists e, SpatialHashGrid.hash_position g p = Raise e /\
            (e = ValueError \/ e = OverflowError).
Proof.
  intros Hc. destruct p as [[x y] z].
  unfold SpatialHashGrid.hash_position, SpatialHashGrid.hash_axis.
  rewrite Hc. destruct (decide (0 = 0)) as [_|?]; [|done].
  unfold mbind at 1, result_bind.
  eexists. split; [reflexivity|]. case_decide; auto.
Qed.

Lemma build_raises g (p : vec3) (rest : list vec3) :
  cell_size g = 0 ->
  exists e g', SpatialHashGrid.build (p :: rest) g = (Raise e, g') /\
               (e = ValueError \/ e = OverflowError).
Proof.
  intros Hc.
  destruct (hash_position_raises (mkSpatialHashGrid (cell_size g) ∅) p Hc)
    as (e & Hhash & He).
  exists e. unfold SpatialHashGrid.build, forM_. cbn [imap foldM].
  rewrite run_modify_bind, run_bind, run_get_bind, run_bind. unfold lift at 1.
  rewrite Hhash. by eexists.
Qed.

(** With a zero smoothing length the first cell computation of a step
    raises, before any particle is touched. *)
Lemma step_raises_without_smoothing_length (s : SPHSolver) :
  well_formed s -> h s = 0 -> n_active s <> 0%nat ->
  exists e s',
    SPHSolver.step s = (Raise e, s') /\
    (e = ValueError \/ e = OverflowError) /\
    particles s' = particles s.
Proof.
  intros ((Hp & _) & Hn & Hcell) Hh Hlive.
  destruct (take (n_active s) (positions (particles s))) as [|p rest] eqn:Htake.
  { apply (f_equal length) in Htake. rewrite length_take in Htake. simpl in Htake. lia. }
  destruct (build_raises (spatial_grid s) p rest) as (e & g' & Hbuild & He);
    [congruence|].
  exists e, (set_spatial_grid g' s).
  split; [|done].
  unfold SPHSolver.step. rewrite run_get_bind, decide_False by done.
  unfold SPHSolver.compute_density_pressure.
  rewrite run_bind, run_get_bind, run_bind. unfold zoom at 1.
  by rewrite Htake, Hbuild.
Qed.

(* ------------------------------------------------------------------ *)
(** ** A solver holding a single particle *)

(** The solver obtained by constructing a solver of capacity one with the
    default material constants, appending one particle and counting it as
    live (see [single_particle_solver_built]). *)
Definition single_particle_solver (extent : vec3) (smoothing_length mass : R)
    (g : vec3) (time_step : R) (p v : vec3) : SPHSolver :=
  mkSPHSolver extent smoothing_length mass 1000 2000 0.001 g time_step
    (mkParticleSystem 1 1 [p] [v] [(0, 0, 0)] [mass] [0] [0] [(0.2, 0.5, 1.0)]
       [0.001])
    1 (SpatialHashGrid.init smoothing_length) 0 0.

Lemma single_particle_solver_built extent smoothing_length mass g time_step p v :
  exists s0,
    SPHSolver.init extent smoothing_length mass 1000 2000 0.001 g time_step 1 = Ok s0 /\
    (zoom particles set_particles
       (ParticleSystem.add_particle p v mass (0.2, 0.5, 1.0) 0.001);;
     modify (fun self => set_n_active (n_active self + 1) self)) s0
    = (Ok tt, single_particle_solver extent smoothing_length mass g time_step p v).
Proof. eexists. split; reflexivity. Qed.

Lemma single_particle_solver_well_formed extent smoothing_length mass g time_step p v :
  well_formed (single_particle_solver extent smoothing_length mass g time_step p v).
Proof. repeat split; reflexivity. Qed.

(** A particle whose only candidate is itself feels no pair force. *)
Lemma pair_forces_alone (s : SPHSolver) (i : nat) (pos_i vel_i : vec3) (ns : list nat) :
  (forall j, j ∈ ns -> j = i) ->
  SPHSolver.pair_forces s i pos_i vel_i ns = Ok (vzero, vzero).
Proof.
  unfold SPHSolver.pair_forces. generalize (vzero, vzero).
  induction ns as [|j ns IH]; intros [fp fv] Hns; simpl; [done|].
  rewrite decide_True by (symmetry; apply Hns; by left).
  unfold mbind at 1, result_bind. apply IH. intros j' Hj'. apply Hns. by right.
Qed.

(** One [step] of a well-formed solver with a single live particle: the
    force is gravity alone. *)
Lemma step_single (s : SPHSolver) (m : R) (v p : vec3) :
  well_formed s -> h s <> 0 -> n_active s = 1%nat ->
  masses (particles s) !! 0%nat = Some m ->
  velocities (particles s) !! 0%nat = Some v ->
  positions (particles s) !! 0%nat = Some p ->
  let f := vadd (vadd vzero vzero) (vscale m (gravity s)) in
  exists s',
    SPHSolver.step s = (Ok tt, s') /\
    positions (particles s') !! 0%nat = Some (advance s m f v p).1 /\
    velocities (particles s') !! 0%nat = Some (advance s m f v p).2 /\
    n_active s' = 1%nat /\ domain_size s' = domain_size s.
Proof.
  intros Hwf Hh Hn Hm Hv Hp f.
  destruct (step_spec s Hwf Hh) as (D & P & g' & F & X & V & Hrun & _ & _ & _ & _ & _ & _ & _ & Hall);
    [lia|].
  destruct (Hall 0%nat) as (m' & f' & v' & p' & ns & fp & fv & Hm' & Hv' & Hp' & _ & Hns & Hpf & Hf' & _ & HX & HV);
    [lia|].
  assert (m' = m) as -> by congruence.
  assert (v' = v) as -> by congruence.
  assert (p' = p) as -> by congruence.
  rewrite pair_forces_alone in Hpf by (intros j Hj; apply Hns in Hj; lia).
  injection Hpf as <- <-. subst f'.
  eexists. split; [exact Hrun|]. unfold with_motion. fields. done.
Qed.

Lemma vec3_eq (a b : vec3) :
  a.1.1 = b.1.1 -> a.1.2 = b.1.2 -> a.2 = b.2 -> a = b.
Proof. destruct a as [[? ?] ?], b as [[? ?] ?]. simpl. congruence. Qed.

(** Without gravity a lone particle keeps its velocity up to reflection. *)
Lemma advance_no_gravity (s : SPHSolver) (m : R) (v p : vec3) :
  gravity s = (0, 0, 0) ->
  advance s m (vadd (vadd vzero vzero) (vscale m (gravity s))) v p
    = bounce (vadd p (vmul v (dt s))) v (domain_size s).
Proof.
  intros ->. unfold advance.
  assert (vadd v (vmul (acceleration_of m (vadd (vadd vzero vzero) (vscale m (0, 0, 0))))
                   (dt s)) = v) as ->; [|done].
  destruct v as [[v_x v_y] v_z]. unfold acceleration_of.
  case_decide; apply vec3_eq; simpl; unfold Rdiv; ring.
Qed.

(** The y-component of the state of a lone particle after reflection. *)
Lemma bounce_y (p v extent : vec3) :
  (bounce p v extent).1.1.2 = (SPHSolver.bounce_axis p.1.2 v.1.2 extent.1.2).1 /\
  (bounce p v extent).2.1.2 = (SPHSolver.bounce_axis p.1.2 v.1.2 extent.1.2).2.
Proof. done. Qed.

(** C1 (amended). Boundary-bounce scenario.  Gravity 0, time step 0.01,
    one particle at [(0.5, 0.01, 0.5)] with velocity [(0, -1, 0)].  The
    particle lands exactly on the wall: after one step its height is 0
    and its vertical velocity is still -1, because the reflection tests
    [position < 0]. *)
Theorem boundary_bounce (extent : vec3) (smoothing_length mass : R) :
  smoothing_length <> 0 -> 0 <= extent.1.2 ->
  exists s' p v,
    SPHSolver.step
      (single_particle_solver extent smoothing_length mass (0, 0, 0) 0.01
         (0.5, 0.01, 0.5) (0, -1, 0)) = (Ok tt, s') /\
    positions (particles s') !! 0%nat = Some p /\
    velocities (particles s') !! 0%nat = Some v /\
    p.1.2 = 0 /\ v.1.2 = -1.
Proof.
  intros Hh Hly.
  set (s := single_particle_solver extent smoothing_length mass (0, 0, 0) 0.01
              (0.5, 0.01, 0.5) (0, -1, 0)).
  destruct (step_single s mass (0, -1, 0) (0.5, 0.01, 0.5)
              (single_particle_solver_well_formed _ _ _ _ _ _ _) Hh
              eq_refl eq_refl eq_refl eq_refl) as (s' & Hrun & HX & HV & _).
  rewrite advance_no_gravity in HX, HV by done.
  eexists s', _, _. split; [exact Hrun|]. split; [exact HX|]. split; [exact HV|].
  destruct (bounce_y (vadd (0.5, 0.01, 0.5) (vmul (0, -1, 0) (dt s))) (0, -1, 0)
              (domain_size s)) as [-> ->].
  destruct extent as [[lx ly] lz]. cbn [fst snd] in Hly.
  cbn [vadd vmul fst snd s single_particle_solver dt domain_size].
  unfold SPHSolver.bounce_axis, SPHSolver.epsilon, SPHSolver.damping.
  rewrite decide_False by lra. rewrite decide_False by lra.
  cbn [fst snd]. split; lra.
Qed.

Lemma boundary_bounce_witness :
  exists s' p v,
    SPHSolver.step
      (single_particle_solver (1, 1, 1) 0.05 0.02 (0, 0, 0) 0.01
         (0.5, 0.01, 0.5) (0, -1, 0)) = (Ok tt, s') /\
    positions (particles s') !! 0%nat = Some p /\
    velocities (particles s') !! 0%nat = Some v /\
    p.1.2 = 0 /\ v.1.2 = -1.
Proof.
  apply (boundary_bounce (1, 1, 1) 0.05 0.02); simpl; lra.
Defined.

(** C1 as stated fails: started at height 0.01 the particle ends the step
    at height 0 with vertical velocity -1, not at 0.001 with +0.5. *)
Lemma boundary_bounce_as_stated_fails :
  exists s' p v,
    SPHSolver.step
      (single_particle_solver (1, 1, 1) 0.05 0.02 (0, 0, 0) 0.01
         (0.5, 0.01, 0.5) (0, -1, 0)) = (Ok tt, s') /\
    positions (particles s') !! 0%nat = Some p /\
    velocities (particles s') !! 0%nat = Some v /\
    p.1.2 = 0 /\ v.1.2 = -1 /\ p.1.2 <> 0.001 /\ v.1.2 <> 0.5.
Proof.
  destruct (boundary_bounce (1, 1, 1) 0.05 0.02)
    as (s' & p & v & Hrun & Hp & Hv & Hpy & Hvy); [lra | simpl; lra |].
  exists s', p, v. repeat split; try done; lra.
Qed.

(* ------------------------------------------------------------------ *)
(** ** Domain containment *)

(** Every live particle lies in the domain box. *)
Definition contained (s : SPHSolver) : Prop :=
  forall i p, (i < n_active s)%nat ->
    positions (particles s) !! i = Some p -> in_box p (domain_size s).

(** Every extent of the domain is at least the wall offset [epsilon]. *)
Definition roomy (extent : vec3) : Prop :=
  SPHSolver.epsilon <= extent.1.1 /\ SPHSolver.epsilon <= extent.1.2 /\
  SPHSolver.epsilon <= extent.2.

Lemma bounce_axis_in_range (p v extent : R) :
  SPHSolver.epsilon <= extent ->
  0 <= (SPHSolver.bounce_axis p v extent).1 <= extent.
Proof.
  unfold SPHSolver.bounce_axis, SPHSolver.epsilon. intros He.
  repeat case_decide; simpl; lra.
Qed.

Lemma advance_in_box (s : SPHSolver) (m : R) (f v p : vec3) :
  roomy (domain_size s) -> in_box (advance s m f v p).1 (domain_size s).
Proof.
  intros (Hx & Hy & Hz). unfold advance, bounce, in_box. cbn [fst snd].
  repeat split; by apply bounce_axis_in_range.
Qed.

Lemma set_clock_well_formed (t : R) (n : nat) (s : SPHSolver) :
  well_formed s -> well_formed (set_clock t n s).
Proof. done. Qed.

(** One step keeps a well-formed solver well-formed and, in a roomy
    domain, contained. *)
Lemma step_contained (s : SPHSolver) :
  well_formed s -> h s <> 0 -> roomy (domain_size s) -> contained s ->
  exists s',
    SPHSolver.step s = (Ok tt, s') /\
    well_formed s' /\ h s' = h s /\ domain_size s' = domain_size s /\
    contained s'.
Proof.
  intros Hwf Hh Hroomy Hin.
  destruct (decide (n_active s = 0%nat)) as [Hn|Hn].
  - exists s. split; [|done].
    unfold SPHSolver.step. by rewrite run_get_bind, decide_True.
  - destruct (step_spec s Hwf Hh Hn)
      as (D & P & g' & F & X & V & Hrun & HD & HP & HF & HX & HV & Hg & _ & Hall).
    eexists. split; [exact Hrun|]. split; [|split; [done|split; [done|]]].
    + apply set_clock_well_formed, with_motion_well_formed; [|done|done].
      apply with_forces_well_formed; [|done].
      by apply with_density_well_formed.
    + intros i p Hi Hp. unfold contained, with_motion, with_forces in *. fields.
      destruct (Hall i Hi) as (m & f & v & p0 & ns & fp & fv & _ & _ & _ & _ & _ & _ & _ & _ & HXi & _).
      rewrite HXi in Hp. injection Hp as <-.
      by apply advance_in_box.
Qed.

Lemma steps_contained (n : nat) :
  forall (a : nat) (s : SPHSolver),
    well_formed s -> h s <> 0 -> roomy (domain_size s) -> contained s ->
    exists s',
      forM_ (seq a n) (fun _ => SPHSolver.step) s = (Ok tt, s') /\ contained s'.
Proof.
  induction n as [|n IH]; intros a s Hwf Hh Hroomy Hin.
  - by exists s.
  - destruct (step_contained s Hwf Hh Hroomy Hin) as (s1 & Hrun & Hwf1 & Hh1 & Hd1 & Hin1).
    destruct (IH (S a) s1) as (s' & Hrest & Hin'); try done; try congruence.
    exists s'. split; [|done].
    unfold forM_ in *. simpl. by rewrite (run_bind_ok _ _ _ _ _ Hrun).
Qed.

(* ------------------------------------------------------------------ *)
(** ** Domain containment on every run, raising or not *)

Lemma wpe_trivial {S A} (m : M S A) (s : S) :
  wpe m (fun _ _ => True) (fun _ _ => True) s.
Proof. unfold wpe. by destruct (m s) as [[a|e] s']. Qed.

(** The particles have not moved and the box is the same. *)
Definition unmoved (s s' : SPHSolver) : Prop :=
  positions (particles s') = positions (particles s) /\
  n_active s' = n_active s /\ domain_size s' = domain_size s.

Lemma unmoved_contained (s s' : SPHSolver) :
  unmoved s s' -> contained s -> contained s'.
Proof.
  intros (Hp & Hn & Hd) Hin i p Hi Hip.
  rewrite Hd. apply (Hin i); [lia | congruence].
Qed.

Lemma compute_density_pressure_unmoved (s : SPHSolver) :
  wpe SPHSolver.compute_density_pressure
    (fun _ s' => unmoved s s') (fun _ s' => unmoved s s') s.
Proof.
  unfold SPHSolver.compute_density_pressure.
  apply wpe_bind, wpe_get, wpe_bind, wpe_zoom.
  eapply wpe_mono; [apply wpe_trivial | | by intros e g' _].
  intros [] g' _. cbv beta.
  eapply wpe_mono;
    [apply (wpe_for_range (fun _ s' => unmoved s s') (fun _ s' => unmoved s s')
              _ (n_active s) 0%nat) | done | done]; [done|].
  intros i s1 _ Hs1.
  apply wpe_bind, wpe_get.
  apply wpe_lift_bind; [intros pos_i _|done].
  apply wpe_lift_bind; [intros ns _|done].
  apply wpe_lift_bind; [intros d _|done].
  apply wpe_bind, wpe_assign_particles; [intros _|done].
  by apply wpe_assign_particles.
Qed.

Lemma compute_forces_unmoved (s : SPHSolver) :
  wpe SPHSolver.compute_forces
    (fun _ s' => unmoved s s') (fun _ s' => unmoved s s') s.
Proof.
  unfold SPHSolver.compute_forces.
  apply wpe_bind, wpe_modify, wpe_bind, wpe_get. fields.
  eapply wpe_mono;
    [apply (wpe_for_range (fun _ s' => unmoved s s') (fun _ s' => unmoved s s')
              _ (n_active s) 0%nat) | done | done]; [done|].
  intros i s1 _ Hs1.
  apply wpe_bind, wpe_get.
  apply wpe_lift_bind; [intros pos_i _|done].
  apply wpe_lift_bind; [intros vel_i _|done].
  apply wpe_lift_bind; [intros ns _|done].
  apply wpe_lift_bind; [intros [fp fv] _|done].
  apply wpe_lift_bind; [intros m_i _|done].
  by apply wpe_assign_particles.
Qed.

(** The box is the same and every live particle is inside it. *)
Definition boxed (s s' : SPHSolver) : Prop :=
  n_active s' = n_active s /\ domain_size s' = domain_size s /\ contained s'.

Lemma integrate_boxed (s : SPHSolver) :
  roomy (domain_size s) -> contained s ->
  wpe SPHSolver.integrate (fun _ s' => boxed s s') (fun _ s' => boxed s s') s.
Proof.
  intros Hroomy Hin. unfold SPHSolver.integrate.
  apply wpe_bind, wpe_get.
  eapply wpe_mono;
    [apply (wpe_for_range (fun _ s' => boxed s s') (fun _ s' => boxed s s')
              _ (n_active s) 0%nat) | done | done]; [done|].
  intros i s1 Hi (Hn1 & Hd1 & Hin1).
  apply wpe_bind, wpe_get.
  apply wpe_lift_bind; [intros m_i _|done].
  apply wpe_bind.
  assert (forall a : vec3,
    wpe (vel_i ← lift (getitem (velocities (particles s1)) i);
         SPHSolver.assign_particles velocities set_velocities i
           (vadd vel_i (vmul a (dt s1)));;
         pos_i ← lift (getitem (positions (particles s1)) i);
         SPHSolver.assign_particles positions set_positions i
           (vadd pos_i (vmul (vadd vel_i (vmul a (dt s1))) (dt s1)));;
         SPHSolver.apply_boundary_conditions i)
      (fun _ s' => boxed s s') (fun _ s' => boxed s s') s1) as Hrest.
  { intros a.
    apply wpe_lift_bind; [intros vel_i Hvel|done].
    apply wpe_bind, wpe_assign_particles; [intros Hvlen|done].
    apply wpe_lift_bind; [intros pos_i Hpos|].
    2:{ intros e _. split; [done|]. split; [done|].
        intros j p Hj Hp. by apply (Hin1 j). }
    fields.
    assert (i < length (positions (particles s1)))%nat as Hplen.
    { unfold getitem in Hpos.
      destruct (positions (particles s1) !! i) eqn:Hl; [|done].
      by apply lookup_lt_Some in Hl. }
    apply wpe_bind, wpe_assign_particles; [intros _|done].
    unfold SPHSolver.apply_boundary_conditions.
    apply wpe_bind, wpe_get. fields.
    rewrite (getitem_ok _ _ _ (list_lookup_insert_eq _ _ _ Hplen)), wpe_lift_ok.
    rewrite (getitem_ok _ _ _ (list_lookup_insert_eq _ _ _ Hvlen)), wpe_lift_ok.
    destruct (vadd pos_i _) as [[px p_y] pz], (vadd vel_i _) as [[v_x v_y] v_z],
      (domain_size s1) as [[lx ly] lz] eqn:Hdom.
    destruct Hroomy as (Hrx & Hry & Hrz). rewrite <- Hd1 in Hrx, Hry, Hrz.
    cbn [fst snd] in Hrx, Hry, Hrz.
    pose proof (bounce_axis_in_range px v_x lx Hrx) as Hbx.
    pose proof (bounce_axis_in_range p_y v_y ly Hry) as Hby.
    pose proof (bounce_axis_in_range pz v_z lz Hrz) as Hbz.
    destruct (SPHSolver.bounce_axis px v_x lx) as [bx bvx].
    destruct (SPHSolver.bounce_axis p_y v_y ly) as [b_y bvy].
    destruct (SPHSolver.bounce_axis pz v_z lz) as [bz bvz].
    cbn [fst snd] in Hbx, Hby, Hbz.
    apply wpe_bind, wpe_assign_particles;
      [intros _ | fields; rewrite length_insert; tauto].
    apply wpe_assign_particles;
      [intros _ | fields; rewrite length_insert; tauto].
    unfold boxed, contained. fields. rewrite Hdom.
    split; [done|]. split; [congruence|].
    intros j p Hj Hp. destruct (decide (j = i)) as [->|Hne].
    - rewrite list_lookup_insert_eq in Hp by (rewrite length_insert; lia).
      injection Hp as <-. by unfold in_box.
    - rewrite !list_lookup_insert_ne in Hp by done.
      pose proof (Hin1 j p Hj Hp) as Hbox. by rewrite Hdom in Hbox. }
  case_decide.
  - apply wpe_lift_bind; [intros f_i _|done].
    apply wpe_lift. destruct (np_vdiv f_i m_i); [apply Hrest | done].
  - apply wpe_ret, Hrest.
Qed.

Lemma step_boxed (s : SPHSolver) :
  roomy (domain_size s) -> contained s ->
  wpe SPHSolver.step (fun _ s' => boxed s s') (fun _ s' => boxed s s') s.
Proof.
  intros Hroomy Hin. unfold SPHSolver.step.
  apply wpe_bind, wpe_get. case_decide; [by apply wpe_ret|].
  assert (forall s', unmoved s s' -> boxed s s') as Hkeep.
  { intros s' Hs'. pose proof (unmoved_contained s s' Hs' Hin).
    destruct Hs' as (_ & ? & ?). done. }
  apply wpe_bind.
  eapply wpe_mono; [apply compute_density_pressure_unmoved | | by intros e s'; apply Hkeep].
  intros [] s1 Hs1. cbv beta. apply wpe_bind.
  eapply wpe_mono; [apply compute_forces_unmoved | |].
  2:{ intros e s2 (Hp2 & Hn2 & Hd2). destruct Hs1 as (Hp1 & Hn1 & Hd1).
      apply Hkeep. repeat split; congruence. }
  intros [] s2 (Hp2 & Hn2 & Hd2). cbv beta.
  destruct Hs1 as (Hp1 & Hn1 & Hd1).
  assert (unmoved s s2) as Hs2 by (repeat split; congruence).
  assert (contained s2) as Hin2 by (by apply (unmoved_contained s)).
  assert (roomy (domain_size s2)) as Hroomy2 by (by rewrite Hd2, Hd1).
  apply wpe_bind.
  eapply wpe_mono; [apply (integrate_boxed s2 Hroomy2 Hin2) | |].
  - intros [] s3 (Hn3 & Hd3 & Hin3). apply wpe_modify.
    split; [|split]; fields; [congruence | congruence | done].
  - intros e s3 (Hn3 & Hd3 & Hin3).
    split; [|split]; [congruence | congruence | done].
Qed.

Lemma steps_boxed (s : SPHSolver) (n : nat) :
  roomy (domain_size s) -> contained s ->
  wpe (SPHSolver.steps n) (fun _ s' => boxed s s') (fun _ s' => boxed s s') s.
Proof.
  intros Hroomy Hin. unfold SPHSolver.steps.
  eapply wpe_mono;
    [apply (wpe_for_range (fun _ s' => boxed s s') (fun _ s' => boxed s s')
              _ n 0%nat) | done | done]; [done|].
  intros i s1 _ (Hn1 & Hd1 & Hin1).
  assert (roomy (domain_size s1)) as Hroomy1 by (by rewrite Hd1).
  eapply wpe_mono; [apply (step_boxed s1 Hroomy1 Hin1) | |];
    intros ? s2 (Hn2 & Hd2 & Hin2); (split; [|split]); congruence || done.
Qed.

(** C3 (amended). Domain containment.  For a solver whose domain extents
    are all at least [epsilon = 0.001] and whose live particles start
    inside the domain box, any number of [step] calls, also one cut short
    by an exception, leaves every live particle inside the box; and on a
    well-formed solver with a non-zero smoothing length the calls all
    return normally. *)
Theorem domain_containment (s : SPHSolver) (n : nat) :
  roomy (domain_size s) -> contained s ->
  (forall r s', SPHSolver.steps n s = (r, s') ->
     forall i p, (i < n_active s')%nat ->
       positions (particles s') !! i = Some p ->
       0 <= p.1.1 <= (domain_size s').1.1 /\
       0 <= p.1.2 <= (domain_size s').1.2 /\
       0 <= p.2 <= (domain_size s').2) /\
  (well_formed s -> h s <> 0 ->
     exists s', SPHSolver.steps n s = (Ok tt, s')).
Proof.
  intros Hroomy Hin. split.
  - intros r s' Hrun. pose proof (steps_boxed s n Hroomy Hin) as Hwp.
    unfold wpe in Hwp. rewrite Hrun in Hwp.
    assert (contained s') as Hin' by (destruct r; apply Hwp).
    exact Hin'.
  - intros Hwf Hh.
    destruct (steps_contained n 0 s Hwf Hh Hroomy Hin) as (s' & Hrun & _).
    by exists s'.
Qed.

Lemma single_particle_contained extent smoothing_length mass g time_step p v :
  in_box p extent ->
  contained (single_particle_solver extent smoothing_length mass g time_step p v).
Proof.
  intros Hp i q Hi Hq. simpl in Hi.
  assert (i = 0%nat) as -> by lia. simpl in Hq. by injection Hq as <-.
Qed.

Lemma domain_containment_witness :
  (forall r s',
     SPHSolver.steps 3
       (single_particle_solver (1, 1, 1) 0.05 0.02 (0, -9.81, 0) 0.001
          (0.5, 0.9, 0.5) (0, 0, 0)) = (r, s') ->
     forall i p, (i < n_active s')%nat ->
       positions (particles s') !! i = Some p ->
       0 <= p.1.1 <= (domain_size s').1.1 /\
       0 <= p.1.2 <= (domain_size s').1.2 /\
       0 <= p.2 <= (domain_size s').2) /\
  exists s',
    SPHSolver.steps 3
      (single_particle_solver (1, 1, 1) 0.05 0.02 (0, -9.81, 0) 0.001
         (0.5, 0.9, 0.5) (0, 0, 0)) = (Ok tt, s').
Proof.
  destruct (domain_containment
              (single_particle_solver (1, 1, 1) 0.05 0.02 (0, -9.81, 0) 0.001
                 (0.5, 0.9, 0.5) (0, 0, 0)) 3) as [Hbox Hreturns].
  - unfold roomy, SPHSolver.epsilon. simpl. lra.
  - apply single_particle_contained. unfold in_box. simpl. lra.
  - split; [exact Hbox|]. apply Hreturns.
    + apply single_particle_solver_well_formed.
    + simpl. lra.
Defined.

Definition thin_domain_solver : SPHSolver :=
  single_particle_solver (0.0005, 1, 1) 0.05 0.02 (0, 0, 0) 0.01
    (0.0002, 0.5, 0.5) (-1, 0, 0).

(** C3 as stated fails in a domain thinner than the wall offset: in a
    domain of extent 0.0005 along x, a particle that starts inside and
    crosses the lower wall is put back at [epsilon = 0.001], beyond the
    upper wall. *)
Lemma domain_containment_fails_in_thin_domain :
  contained thin_domain_solver /\
  exists s' p,
    SPHSolver.steps 1 thin_domain_solver = (Ok tt, s') /\
    n_active s' = 1%nat /\
    positions (particles s') !! 0%nat = Some p /\
    p.1.1 > (domain_size s').1.1.
Proof.
  split.
  { apply single_particle_contained. unfold in_box. simpl. lra. }
  destruct (step_single thin_domain_solver 0.02 (-1, 0, 0) (0.0002, 0.5, 0.5)
              (single_particle_solver_well_formed _ _ _ _ _ _ _))
    as (s' & Hrun & HX & _ & Hn & Hd); try done.
  { simpl. lra. }
  rewrite advance_no_gravity in HX by done.
  exists s'. eexists. split.
  { unfold SPHSolver.steps, forM_. simpl. by rewrite (run_bind_ok _ _ _ _ _ Hrun). }
  split; [done|]. split; [exact HX|]. rewrite Hd.
  unfold bounce.
  cbn [fst snd vadd vmul thin_domain_solver single_particle_solver dt domain_size].
  unfold SPHSolver.bounce_axis at 1. rewrite decide_True by lra.
  unfold SPHSolver.epsilon. simpl. lra.
Qed.

(* ------------------------------------------------------------------ *)
(** ** The density guard of the force pass *)

(** The pair forces with every term taken: the neighbour loop of
    [compute_forces] without its two tests [densities[j] > 0]. *)
Definition pair_forces_unguarded (self : SPHSolver) (i : nat) (pos_i vel_i : vec3)
    (neighbors : list nat) : result (vec3 * vec3) :=
  foldM (fun '(f_pressure, f_viscosity) j =>
    if decide (i = j) then Ok (f_pressure, f_viscosity)
    else
      pos_j ← getitem (positions (particles self)) j;
      vel_j ← getitem (velocities (particles self)) j;
      let r := vsub pos_i pos_j in
      grad_W ← SPHKernel.spiky_gradient r (h self);
      rho_j ← getitem (densities (particles self)) j;
      P_i ← getitem (pressures (particles self)) i;
      P_j ← getitem (pressures (particles self)) j;
      let P_avg := (P_i + P_j) / 2 in
      m_j ← getitem (masses (particles self)) j;
      c ← np_div (- m_j * P_avg) rho_j;
      let f_pressure := vadd f_pressure (vscale c grad_W) in
      lap_W ← SPHKernel.viscosity_laplacian r (h self);
      visc ← getitem (viscosities (particles self)) i;
      m_j ← getitem (masses (particles self)) j;
      d ← np_vdiv (vscale (visc * m_j) (vsub vel_j vel_i)) rho_j;
      Ok (f_pressure, vadd f_viscosity (vmul d lap_W))) neighbors (vzero, vzero).

Lemma foldM_result_ext {A B} (f g : B -> A -> result B) (l : list A) (b : B) :
  (forall b' a, a ∈ l -> f b' a = g b' a) -> foldM f l b = foldM g l b.
Proof.
  revert b. induction l as [|a l IH]; intros b Hfg; simpl; [done|].
  rewrite Hfg by (by left). destruct (g b a) as [b'|e]; simpl; [|done].
  apply IH. intros b'' a' Ha'. apply Hfg. by right.
Qed.

(** Where every candidate has a positive density the two tests pass, and
    the guarded loop computes the full sums. *)
Lemma pair_forces_all_terms (s : SPHSolver) (i : nat) (pos_i vel_i : vec3)
    (ns : list nat) :
  (forall j rho_j, j ∈ ns -> densities (particles s) !! j = Some rho_j -> rho_j > 0) ->
  SPHSolver.pair_forces s i pos_i vel_i ns = pair_forces_unguarded s i pos_i vel_i ns.
Proof.
  intros Hpos. unfold SPHSolver.pair_forces, pair_forces_unguarded.
  apply foldM_result_ext. intros [f_pressure f_viscosity] j Hj.
  case_decide; [done|]. unfold mbind, result_bind.
  destruct (getitem (positions (particles s)) j) as [pos_j|]; cbn beta iota; [|reflexivity].
  destruct (getitem (velocities (particles s)) j) as [vel_j|]; cbn beta iota; [|reflexivity].
  destruct (SPHKernel.spiky_gradient _ _) as [grad_W|]; cbn beta iota; [|reflexivity].
  destruct (getitem (densities (particles s)) j) as [rho_j|] eqn:Hrho;
    cbn beta iota; [|reflexivity].
  assert (rho_j > 0) as Hgt.
  { apply (Hpos j); [done|]. unfold getitem in Hrho.
    by destruct (densities (particles s) !! j) as [x|]; [injection Hrho as ->|]. }
  rewrite decide_True by done.
  destruct (getitem (pressures (particles s)) i) as [P_i|]; cbn beta iota; [|reflexivity].
  destruct (getitem (pressures (particles s)) j) as [P_j|]; cbn beta iota; [|reflexivity].
  destruct (getitem (masses (particles s)) j) as [m_j|]; cbn beta iota; [|reflexivity].
  destruct (np_div _ _) as [c|]; cbn beta iota; [|reflexivity].
  destruct (SPHKernel.viscosity_laplacian _ _) as [lap_W|]; cbn beta iota; [|reflexivity].
  rewrite decide_True by done.
  destruct (getitem (viscosities (particles s)) i) as [visc|]; cbn beta iota; [|reflexivity].
  destruct (np_vdiv _ _) as [d|]; reflexivity.
Qed.

(** C10. The force pass never divides by a zero density: it never ends in
    the division fault, whatever the state.  Moreover, on a well-formed
    solver with a non-zero smoothing length and a positive rest density,
    the density pass followed by the force pass returns normally; every
    candidate [j] visited for a live particle [i] is live and has
    [density[j] > 0], so the guard skips no term: the pressure and
    viscosity sums are those of the loop without the guard, and the force
    written for [i] is their sum plus gravity. *)
Theorem force_division_guarded (s : SPHSolver) :
  (SPHSolver.compute_forces s).1 <> Raise FloatingPointError /\
  (well_formed s -> h s <> 0 -> 0 < rest_density s ->
   exists s1 s2,
     SPHSolver.compute_density_pressure s = (Ok tt, s1) /\
     SPHSolver.compute_forces s1 = (Ok tt, s2) /\
     forall i p v m ns, (i < n_active s1)%nat ->
       positions (particles s1) !! i = Some p ->
       velocities (particles s1) !! i = Some v ->
       masses (particles s1) !! i = Some m ->
       SpatialHashGrid.get_neighbors (spatial_grid s1) p (h s1) = Ok ns ->
       (forall j, j ∈ ns ->
          (j < n_active s1)%nat /\
          exists rho_j, densities (particles s1) !! j = Some rho_j /\ rho_j > 0) /\
       exists f_pressure f_viscosity,
         pair_forces_unguarded s1 i p v ns = Ok (f_pressure, f_viscosity) /\
         SPHSolver.pair_forces s1 i p v ns = Ok (f_pressure, f_viscosity) /\
         forces (particles s2) !! i
           = Some (vadd (vadd f_pressure f_viscosity) (vscale m (gravity s1)))).
Proof.
  split.
  - pose proof (compute_forces_finite s) as Hfin. unfold wpe in Hfin.
    destruct (SPHSolver.compute_forces s) as [[[]|e] s']; simpl; [done|].
    by intros [= ->].
  - intros Hwf Hh Hrho.
    pose proof Hwf as (_ & _ & Hcell).
    assert (cell_size (spatial_grid s) <> 0) as Hcs by (by rewrite Hcell).
    destruct (compute_density_pressure_spec s Hwf Hh)
      as (D & P & g' & Hrun1 & Hbuild & HD & HP & Hdens).
    destruct (build_spec (take (n_active s) (positions (particles s))) _ Hcs)
      as (g1 & Hb1 & Hsize & _).
    rewrite Hbuild in Hb1. injection Hb1 as <-.
    assert (well_formed (with_density D P g' s)) as Hwf1
      by (by apply with_density_well_formed).
    assert (grid_valid (with_density D P g' s)) as Hvalid1
      by (by apply rebuilt_grid_valid).
    destruct (compute_forces_spec _ Hwf1 Hh Hvalid1) as (F & Hrun2 & _ & Hforces).
    eexists _, _. split; [exact Hrun1|]. split; [exact Hrun2|].
    intros i p v m ns Hi Hp Hv Hm Hq.
    assert (forall j, j ∈ ns ->
              (j < n_active (with_density D P g' s))%nat /\
              exists rho_j, densities (particles (with_density D P g' s)) !! j
                              = Some rho_j /\ rho_j > 0) as Hguard.
    { intros j Hj.
      assert (j < n_active (with_density D P g' s))%nat as Hlive.
      { apply (candidates_live _ p (h (with_density D P g' s)) ns); try done.
        fields. congruence. }
      split; [done|]. fields.
      destruct (Hdens j Hlive) as (d & Hd & Hfloor & _).
      exists d. split; [done|]. lra. }
    split; [exact Hguard|].
    destruct (Hforces i Hi)
      as (pos_i & vel_i & ns' & fp & fv & m_i & Hp' & Hv' & Hq' & Hpf & Hm' & HF).
    assert (pos_i = p) as -> by congruence.
    assert (vel_i = v) as -> by congruence.
    assert (m_i = m) as -> by congruence.
    assert (ns' = ns) as -> by congruence.
    exists fp, fv. split; [|split; [exact Hpf | exact HF]].
    rewrite <- Hpf. symmetry. apply pair_forces_all_terms.
    intros j rho_j Hj Hrho_j. destruct (Hguard j Hj) as (_ & d & Hd & Hgt). congruence.
Qed.

(** Two particles 0.02 apart in one grid cell, with smoothing length 0.05:
    each is a candidate of the other, inside its support. *)
Definition close_pair_solver : SPHSolver :=
  mkSPHSolver (1, 1, 1) 0.05 0.02 1000 2000 0.001 (0, -9.81, 0) 0.001
    (mkParticleSystem 2 2 [(0.525, 0.525, 0.525); (0.545, 0.525, 0.525)]
       [(0, 0, 0); (0, 0, 0)] [(0, 0, 0); (0, 0, 0)] [0.02; 0.02] [0; 0] [0; 0]
       [(0.2, 0.5, 1.0); (0.2, 0.5, 1.0)] [0.001; 0.001])
    2 (SpatialHashGrid.init 0.05) 0 0.

Lemma close_pair_solver_well_formed : well_formed close_pair_solver.
Proof. repeat split; reflexivity. Qed.

Lemma force_division_guarded_witness :
  exists s1 s2,
    SPHSolver.compute_density_pressure close_pair_solver = (Ok tt, s1) /\
    SPHSolver.compute_forces s1 = (Ok tt, s2) /\
    forall i p v m ns, (i < n_active s1)%nat ->
      positions (particles s1) !! i = Some p ->
      velocities (particles s1) !! i = Some v ->
      masses (particles s1) !! i = Some m ->
      SpatialHashGrid.get_neighbors (spatial_grid s1) p (h s1) = Ok ns ->
      (forall j, j ∈ ns ->
         (j < n_active s1)%nat /\
         exists rho_j, densities (particles s1) !! j = Some rho_j /\ rho_j > 0) /\
      exists f_pressure f_viscosity,
        pair_forces_unguarded s1 i p v ns = Ok (f_pressure, f_viscosity) /\
        SPHSolver.pair_forces s1 i p v ns = Ok (f_pressure, f_viscosity) /\
        forces (particles s2) !! i
          = Some (vadd (vadd f_pressure f_viscosity) (vscale m (gravity s1))).
Proof.
  apply (force_division_guarded close_pair_solver).
  - apply close_pair_solver_well_formed.
  - simpl. lra.
  - simpl. lra.
Defined.

(** In [close_pair_solver] the second particle is a candidate of the
    first and lies inside its support, so the force pass reaches the
    guard for this pair. *)
Lemma close_pair_reaches_the_guard :
  exists s1 ns,
    SPHSolver.compute_density_pressure close_pair_solver = (Ok tt, s1) /\
    positions (particles s1) !! 0%nat = Some (0.525, 0.525, 0.525) /\
    positions (particles s1) !! 1%nat = Some (0.545, 0.525, 0.525) /\
    SpatialHashGrid.get_neighbors (spatial_grid s1) (0.525, 0.525, 0.525) (h s1)
      = Ok ns /\
    1%nat ∈ ns /\
    norm (vsub (0.525, 0.525, 0.525) (0.545, 0.525, 0.525)) <= h s1.
Proof.
  assert (h close_pair_solver <> 0) as Hh by (simpl; lra).
  assert (cell_size (spatial_grid close_pair_solver) <> 0) as Hcs by (simpl; lra).
  destruct (compute_density_pressure_spec close_pair_solver
              close_pair_solver_well_formed Hh)
    as (D & P & g' & Hrun & Hbuild & _).
  destruct (build_spec (take (n_active close_pair_solver)
                          (positions (particles close_pair_solver)))
              (spatial_grid close_pair_solver) Hcs) as (g1 & Hb1 & Hsize & Hmem).
  rewrite Hbuild in Hb1. injection Hb1 as <-.
  destruct (get_neighbors_spec g' (0.525, 0.525, 0.525) (h close_pair_solver))
    as (ns & Hq & Hns); [by rewrite Hsize|].
  assert (norm (vsub (0.545, 0.525, 0.525) (0.525, 0.525, 0.525)) = 0.02) as Hd1.
  { replace (vsub (0.545, 0.525, 0.525) (0.525, 0.525, 0.525)) with (0.02, 0, 0).
    - rewrite norm_along_x; lra.
    - unfold vsub. f_equal; [f_equal|]; lra. }
  assert (norm (vsub (0.525, 0.525, 0.525) (0.545, 0.525, 0.525)) = 0.02) as Hd0.
  { unfold vsub, norm.
    replace ((0.525 - 0.545) * (0.525 - 0.545) + (0.525 - 0.525) * (0.525 - 0.525)
             + (0.525 - 0.525) * (0.525 - 0.525)) with (0.02 * 0.02) by lra.
    apply sqrt_square. lra. }
  exists (with_density D P g' close_pair_solver), ns.
  split; [exact Hrun|]. split; [reflexivity|]. split; [reflexivity|].
  split; [exact Hq|]. split; [|rewrite Hd0; simpl; lra].
  apply Hns.
  destruct (near_cells (cell_size (spatial_grid close_pair_solver))
              (0.545, 0.525, 0.525) (0.525, 0.525, 0.525) Hcs)
    as (di & dj & dk & Hdi & Hdj & Hdk & Hcell); [rewrite Hd1; simpl; lra|].
  exists di, dj, dk. repeat (split; [done|]).
  rewrite Hsize, <- Hcell. apply Hmem.
  exists (0.545, 0.525, 0.525). split; reflexivity.
Qed.

Lemma semi_implicit_euler_witness :
  exists s',
    SPHSolver.integrate
      (with_forces [(0, -4, 0)]
         (single_particle_solver (1, 1, 1) 0.05 2 (0, 0, 0) 0.5
            (0.5, 0.5, 0.5) (0, 1, 0))) = (Ok tt, s') /\
    velocities (particles s') !! 0%nat
      = Some (vadd (0, 1, 0) (vmul (0 / 2, -4 / 2, 0 / 2) 0.5)) /\
    positions (particles s') !! 0%nat
      = Some (vadd (0.5, 0.5, 0.5)
                (vmul (vadd (0, 1, 0) (vmul (0 / 2, -4 / 2, 0 / 2) 0.5)) 0.5)).
Proof.
  apply (semi_implicit_euler
           (with_forces [(0, -4, 0)]
              (single_particle_solver (1, 1, 1) 0.05 2 (0, 0, 0) 0.5
                 (0.5, 0.5, 0.5) (0, 1, 0)))
           0 2 (0, -4, 0) (0, 1, 0) (0.5, 0.5, 0.5));
    try reflexivity.
  - apply with_forces_well_formed; [|reflexivity].
    apply single_particle_solver_well_formed.
  - simpl. lia.
  - lra.
  - unfold in_box. simpl. lra.
Defined.

(* ------------------------------------------------------------------ *)
(** ** Construction *)

(** C2 (amended). Construction validates none of the smoothing length,
    the time step, the particle mass and the domain extents: for any
    values of these and any non-negative capacity it returns a
    well-formed, empty solver that stores them as given. *)
Theorem init_accepts_any_parameters (extent : vec3)
    (smoothing_length mass rho0 stiffness mu : R)
    (g : vec3) (time_step : R) (capacity : Z) :
  (0 <= capacity)%Z ->
  exists s,
    SPHSolver.init extent smoothing_length mass rho0 stiffness mu g time_step
      capacity = Ok s /\
    domain_size s = extent /\
    h s = smoothing_length /\
    particle_mass s = mass /\
    dt s = time_step /\
    n_active s = 0%nat /\
    well_formed s.
Proof.
  intros Hmax. unfold SPHSolver.init, ParticleSystem.init.
  rewrite decide_False by lia. unfold mbind, result_bind.
  eexists. split; [reflexivity|]. repeat split; try done;
    simpl; try apply length_replicate. lia.
Qed.

Lemma init_accepts_any_parameters_witness :
  exists s,
    SPHSolver.init (2, 2, 2) 0.05 0.02 1000 2000 0.001 (0, -9.81, 0) 0.001 100000
      = Ok s /\
    domain_size s = (2, 2, 2) /\
    h s = 0.05 /\
    particle_mass s = 0.02 /\
    dt s = 0.001 /\
    n_active s = 0%nat /\
    well_formed s.
Proof.
  apply (init_accepts_any_parameters (2, 2, 2) 0.05 0.02 1000 2000 0.001
           (0, -9.81, 0) 0.001 100000). lia.
Defined.

(** C2 as stated fails: a zero smoothing length, a negative time step, a
    negative mass and a domain with non-positive extents are all
    accepted. *)
Lemma init_accepts_non_positive_parameters :
  exists s,
    SPHSolver.init (0, -1, 0) 0 (-0.02) 1000 2000 0.001 (0, -9.81, 0) (-0.001) 10
      = Ok s.
Proof. eexists. reflexivity. Qed.

(* ------------------------------------------------------------------ *)
(** ** Insertion helper: the number of particles placed *)

Lemma place_ok (s : SPHSolver) (position : vec3) (spacing : R)
    (fluid_properties : FluidProperties) (jit : vec3) (i j k : nat) :
  well_formed s ->
  (n_particles (particles s) < Z.to_nat (max_particles (particles s)))%nat ->
  (n_active s < Z.to_nat (max_particles (particles s)))%nat ->
  exists s',
    SPHSolver.place position spacing fluid_properties jit i j k s = (Ok tt, s') /\
    well_formed s' /\
    n_particles (particles s') = (n_particles (particles s) + 1)%nat /\
    n_active s' = (n_active s + 1)%nat /\
    max_particles (particles s') = max_particles (particles s).
Proof.
  intros (Hshape & Hn & Hcell) Hroom Hlive.
  unfold SPHSolver.place. rewrite run_get_bind.
  destruct (vadd _ _) as [[px p_y] pz], (domain_size s) as [[lx ly] lz] eqn:Hdom.
  match goal with |- context [ParticleSystem.add_particle ?a ?b ?c ?d ?e] =>
    destruct (add_particle_below_capacity (particles s) a b c d e Hshape)
      as (p' & Hadd & Hshape' & Hcount & Hmax & _); [lia|]
  end.
  rewrite run_bind. unfold zoom at 1. rewrite Hadd. unfold modify.
  eexists. split; [reflexivity|].
  unfold well_formed. fields.
  split; [|done]. split; [exact Hshape'|]. split; [lia | done].
Qed.

Section fill.
Variables (position : vec3) (spacing : R) (n_particles0 : Z)
  (fluid_properties : FluidProperties) (jitter : nat -> vec3).
Variables (stored live : nat) (capacity : Z).

(** The target count as a natural number. *)
Let target : nat := Z.to_nat n_particles0.

Hypothesis store_room : (stored + target <= Z.to_nat capacity)%nat.
Hypothesis live_room : (live + target <= Z.to_nat capacity)%nat.

(** After [m] lattice nodes have been visited, [min m target] particles
    have been placed. *)
Definition filled (m : nat) (s : SPHSolver) : Prop :=
  well_formed s /\
  max_particles (particles s) = capacity /\
  n_particles (particles s) = (stored + Nat.min m target)%nat /\
  n_active s = (live + Nat.min m target)%nat.

Lemma fill_row_count (i j : nat) (ks : list nat) :
  forall m s, filled m s ->
    exists s',
      SPHSolver.fill_row position spacing n_particles0 fluid_properties jitter
        i j ks (Nat.min m target) s
        = (Ok (Nat.min (m + length ks) target), s') /\
      filled (m + length ks) s'.
Proof.
  induction ks as [|k ks IH]; intros m s Hfilled; simpl.
  - exists s. by rewrite Nat.add_0_r.
  - destruct Hfilled as (Hwf & Hmax & Hstored & Hlive).
    assert (target = Z.to_nat n_particles0) as Htarget by done.
    case_decide as Hfull.
    + assert (target <= m)%nat as Hm by lia.
      exists s. rewrite !Nat.min_r by lia. split; [done|].
      unfold filled. by rewrite Nat.min_r in * by lia.
    + assert (m < target)%nat as Hm by lia.
      rewrite (Nat.min_l m target) in * by lia.
      destruct (place_ok s position spacing fluid_properties (jitter m) i j k Hwf)
        as (s1 & Hplace & Hwf1 & Hstored1 & Hlive1 & Hmax1); [lia | lia |].
      rewrite (run_bind_ok _ _ _ _ _ Hplace).
      destruct (IH (m + 1)%nat s1) as (s' & Hrun & Hfilled').
      { unfold filled. rewrite (Nat.min_l (m + 1) target) by lia.
        split; [done|]. split; [congruence|]. split; lia. }
      rewrite (Nat.min_l (m + 1) target) in Hrun by lia.
      exists s'. replace (m + S (length ks))%nat with (m + 1 + length ks)%nat by lia.
      done.
Qed.

(** A loop whose every pass visits [w] lattice nodes. *)
Lemma fold_count {A} (body : nat -> A -> M SPHSolver nat) (w : nat) (l : list A) :
  (forall a m s, filled m s ->
     exists s', body (Nat.min m target) a s = (Ok (Nat.min (m + w) target), s') /\
                filled (m + w) s') ->
  forall m s, filled m s ->
    exists s',
      foldM body l (Nat.min m target) s
        = (Ok (Nat.min (m + length l * w) target), s') /\
      filled (m + length l * w) s'.
Proof.
  intros Hbody. induction l as [|a l IH]; intros m s Hfilled; simpl.
  - exists s. by rewrite Nat.add_0_r.
  - destruct (Hbody a m s Hfilled) as (s1 & Hrun1 & Hfilled1).
    rewrite (run_bind_ok _ _ _ _ _ Hrun1).
    destruct (IH _ _ Hfilled1) as (s' & Hrun & Hfilled').
    exists s'. replace (m + (w + length l * w))%nat with (m + w + length l * w)%nat by lia.
    done.
Qed.

(** The lattice loops place [min (nx * ny * nz) n_particles] particles. *)
Lemma fill_box_count (nx ny nz : Z) (s : SPHSolver) :
  filled 0 s ->
  exists s',
    SPHSolver.fill_box position spacing n_particles0 fluid_properties jitter
      nx ny nz s
      = (Ok (Nat.min (Z.to_nat nx * (Z.to_nat ny * Z.to_nat nz)) target), s') /\
    filled (Z.to_nat nx * (Z.to_nat ny * Z.to_nat nz)) s'.
Proof.
  intros Hfilled. unfold SPHSolver.fill_box.
  match goal with |- context [foldM ?body ?l 0%nat s] =>
    destruct (fold_count body (Z.to_nat ny * Z.to_nat nz) l) with (m := 0%nat) (s := s)
      as (s' & Hrun & Hfilled'); [|done|]
  end.
  - intros i m s0 Hfilled0.
    match goal with |- context [foldM ?body ?l _ s0] =>
      destruct (fold_count body (Z.to_nat nz) l) with (m := m) (s := s0)
        as (s' & Hrun & Hfilled'); [|done|]
    end.
    + intros j m1 s1 Hfilled1.
      destruct (fill_row_count i j (seq 0 (Z.to_nat nz)) m1 s1 Hfilled1)
        as (s' & Hrun & Hfilled').
      rewrite length_seq in Hrun, Hfilled'. by exists s'.
    + rewrite length_seq in Hrun, Hfilled'. by exists s'.
  - rewrite length_seq in Hrun, Hfilled'. simpl in Hrun. by exists s'.
Qed.
End fill.

(** In exact arithmetic the cube root of a cube is its base. *)
Lemma cube_root_of_cube (x : R) : 0 < x -> Rpower (x * x * x) (1 / 3) = x.
Proof.
  intros Hx. replace (x * x * x) with (x ^ 3) by ring.
  rewrite <- (Rpower_pow 3 x Hx), Rpower_mult.
  replace (INR 3 * (1 / 3)) with 1 by (simpl; field).
  by apply Rpower_1.
Qed.

Lemma Int_part_IZR (z : Z) : Int_part (IZR z) = z.
Proof. symmetry. apply Int_part_spec. lra. Qed.

Lemma lattice_spacing_exact :
  SPHSolver.lattice_spacing (0.4 * 0.4 * 0.4) 64 = Ok 0.1.
Proof.
  unfold SPHSolver.lattice_spacing, py_div.
  rewrite decide_False by lra. unfold mbind, result_bind.
  rewrite decide_False by lra. rewrite decide_False by lra.
  replace (0.4 * 0.4 * 0.4 / 64) with (0.1 * 0.1 * 0.1) by lra.
  rewrite cube_root_of_cube by lra. done.
Qed.

Lemma lattice_dim_exact : SPHSolver.lattice_dim 0.4 0.1 = Ok 4%Z.
Proof.
  unfold SPHSolver.lattice_dim, py_div.
  rewrite decide_False by lra. unfold mbind, result_bind, py_int.
  replace (0.4 / 0.1) with (IZR 4) by lra.
  rewrite decide_False by lra. by rewrite Int_part_IZR.
Qed.

(** The intended behaviour of the scenario of C7: evaluated in exact
    arithmetic, a box of size [(0.4, 0.4, 0.4)] with target count 64 gets
    spacing 0.1, a 4 x 4 x 4 lattice and 64 particles. *)
Lemma add_fluid_box_exact (s : SPHSolver) (position : vec3)
    (fluid_properties : FluidProperties) (jitter : nat -> vec3) :
  well_formed s ->
  (n_particles (particles s) + 64 <= Z.to_nat (max_particles (particles s)))%nat ->
  (n_active s + 64 <= Z.to_nat (max_particles (particles s)))%nat ->
  exists s',
    SPHSolver.add_fluid_box position (0.4, 0.4, 0.4) 64 fluid_properties jitter s
      = (Ok tt, s') /\
    n_active s' = (n_active s + 64)%nat /\
    n_particles (particles s') = (n_particles (particles s) + 64)%nat.
Proof.
  intros Hwf Hstored Hlive. unfold SPHSolver.add_fluid_box.
  rewrite lattice_spacing_exact, run_lift_bind.
  rewrite lattice_dim_exact, !run_lift_bind.
  destruct (fill_box_count position 0.1 64 fluid_properties jitter
              (n_particles (particles s)) (n_active s)
              (max_particles (particles s)) Hstored Hlive 4 4 4 s)
    as (s' & Hrun & _ & _ & Hstored' & Hlive').
  { unfold filled. split; [done|]. split; [done|]. split; simpl; lia. }
  rewrite (run_bind_ok _ _ _ _ _ Hrun).
  exists s'. split; [done|]. split; [exact Hlive' | exact Hstored'].
Qed.

(* ------------------------------------------------------------------ *)
(** ** Insertion helper: the lattice in binary64 arithmetic

    [int(size / spacing)] truncates, so the lattice dimension jumps at the
    exact quotient 4 of the scenario above, and rounding decides on which
    side the computed quotient falls.  This module evaluates the lattice
    computation of [add_fluid_box] on IEEE binary64 numbers, the Python
    [float].  Python's [**] calls the platform's [pow], which is taken as
    a parameter.  The step count [int(duration / self.dt)] of [run] is
    evaluated in the same way. *)

Set Warnings "-inexact-float".

Module Binary64.
Import PrimFloat FloatOps SpecFloat.

(** Python's [float(n)] for an integer of small magnitude. *)
Definition of_int (n : Z) : float :=
  if (n <? 0)%Z then (- of_uint63 (Uint63.of_Z (- n)))%float
  else of_uint63 (Uint63.of_Z n).

(** The real number a finite binary64 number stands for. *)
Definition to_R (x : float) : R :=
  match Prim2SF x with
  | S754_finite sign m e =>
      (if sign then - IZR (Zpos m) else IZR (Zpos m)) * powerRZ 2 e
  | _ => 0
  end.

(** Python's [int(x)]: truncation towards zero; infinities and NaN raise. *)
Definition py_int (x : float) : result Z :=
  match Prim2SF x with
  | S754_zero _ => Ok 0%Z
  | S754_finite sign m e =>
      let magnitude :=
        if (0 <=? e)%Z then Z.shiftl (Zpos m) e else Z.shiftr (Zpos m) (- e) in
      Ok (if sign then (- magnitude)%Z else magnitude)
  | S754_infinity _ => Raise OverflowError
  | S754_nan => Raise ValueError
  end.

Definition py_div (x y : float) : result float :=
  if (y =? 0)%float then Raise ZeroDivisionError else Ok (x / y)%float.

(** [(volume / n_particles) ** (1/3)] for a non-negative quotient. *)
Definition lattice_spacing (pow : float -> float -> float) (volume : float)
    (n_particles : Z) : result float :=
  q ← py_div volume (of_int n_particles);
  if (q <? 0)%float then Raise TypeError else Ok (pow q (1 / 3)%float).

(** [max(1, int(size / spacing))]. *)
Definition lattice_dim (size spacing : float) : result Z :=
  q ← py_div size spacing;
  n ← py_int q;
  Ok (Z.max 1 n).

(** Spacing and lattice dimensions as [add_fluid_box] computes them. *)
Definition lattice (pow : float -> float -> float) (size : float * float * float)
    (n_particles : Z) : result (float * Z * Z * Z) :=
  let '(sx, sy, sz) := size in
  let volume := (sx * sy * sz)%float in
  spacing ← lattice_spacing pow volume n_particles;
  nx ← lattice_dim sx spacing;
  ny ← lattice_dim sy spacing;
  nz ← lattice_dim sz spacing;
  Ok (spacing, nx, ny, nz).

(** [add_fluid_box] with the lattice computed in binary64; the lattice
    loops are those of the solver. *)
Definition add_fluid_box (pow : float -> float -> float) (position : vec3)
    (size : float * float * float) (n_particles : Z)
    (fluid_properties : FluidProperties) (jitter : nat -> vec3) : M SPHSolver unit :=
  '(spacing, nx, ny, nz) ← lift (lattice pow size n_particles);
  SPHSolver.fill_box position (to_R spacing) n_particles fluid_properties
    jitter nx ny nz;;
  mret tt.

(** The numbers of the scenario: the box side, the quotient
    [volume / n_particles], the exponent [1/3], and the two binary64
    numbers that follow the one nearest to 0.1. *)
Definition side : float := 0.4%float.
Definition volume_per_particle : float := (0.4 * 0.4 * 0.4 / 64)%float.
Definition one_third : float := (1 / 3)%float.
Definition tenth : float := 0.1%float.
Definition above_tenth : float := 0.10000000000000002%float.
Definition above_tenth' : float := 0.10000000000000003%float.

(** The results a [pow] with an error below one unit in the last place
    can return in the scenario (see [exact_power_bracket]). *)
Definition faithful_in_scenario (pow : float -> float -> float) : Prop :=
  pow volume_per_particle one_third = above_tenth \/
  pow volume_per_particle one_third = above_tenth'.

Lemma volume_per_particle_value :
  volume_per_particle = 0.0010000000000000002%float.
Proof. reflexivity. Qed.

Lemma above_tenth_next : above_tenth = next_up tenth.
Proof. reflexivity. Qed.

Lemma above_tenth'_next : above_tenth' = next_up above_tenth.
Proof. reflexivity. Qed.

(** With the spacing that exact arithmetic suggests the dimension is 4;
    with either of the next two binary64 numbers it is 3. *)
Lemma lattice_dim_at_tenth : lattice_dim side tenth = Ok 4%Z.
Proof. reflexivity. Qed.

Lemma lattice_dim_above_tenth : lattice_dim side above_tenth = Ok 3%Z.
Proof. reflexivity. Qed.

Lemma lattice_dim_above_tenth' : lattice_dim side above_tenth' = Ok 3%Z.
Proof. reflexivity. Qed.

(** The lattice of the scenario is 3 x 3 x 3. *)
Lemma lattice_of_scenario (pow : float -> float -> float) :
  faithful_in_scenario pow ->
  exists spacing,
    lattice pow (side, side, side) 64 = Ok (spacing, 3%Z, 3%Z, 3%Z).
Proof.
  intros Hpow. unfold lattice, lattice_spacing.
  change (py_div (side * side * side) (of_int 64)) with (Ok volume_per_particle).
  unfold mbind, result_bind. cbv beta iota.
  assert ((volume_per_particle <? 0)%float = false) as -> by reflexivity.
  change (1 / 3)%float with one_third.
  destruct Hpow as [-> | ->].
  - exists above_tenth. by rewrite lattice_dim_above_tenth.
  - exists above_tenth'. by rewrite lattice_dim_above_tenth'.
Qed.

(** *** The exact value of the power

    The real number [x ^ y], for the binary64 numbers [x = volume / n] and
    [y = 1/3] of the scenario, lies strictly between the consecutive
    binary64 numbers [above_tenth] and [above_tenth']. *)

Lemma ln_upper (u : R) : 0 < u -> ln u <= u - 1.
Proof.
  intros Hu. pose proof (exp_ineq1_le (ln u)) as H.
  rewrite exp_ln in H by done. lra.
Qed.

Lemma ln_lower (u : R) : 0 < u -> 1 - / u <= ln u.
Proof.
  intros Hu. assert (0 < / u) as Hi by (by apply Rinv_0_lt_compat).
  pose proof (ln_upper (/ u) Hi) as H. rewrite ln_Rinv in H by done. lra.
Qed.

Definition X : R := 4611686018427389 / 2 ^ 62.
Definition Y : R := 6004799503160661 / 2 ^ 54.
Definition S1 : R := 7205759403792795 / 2 ^ 56.
Definition S2 : R := 7205759403792796 / 2 ^ 56.

Lemma to_R_volume_per_particle : to_R volume_per_particle = X.
Proof.
  unfold to_R.
  change (Prim2SF volume_per_particle)
    with (S754_finite false 4611686018427389 (-62)).
  reflexivity.
Qed.

Lemma to_R_one_third : to_R one_third = Y.
Proof.
  unfold to_R.
  change (Prim2SF one_third) with (S754_finite false 6004799503160661 (-54)).
  reflexivity.
Qed.

Lemma to_R_above_tenth : to_R above_tenth = S1.
Proof.
  unfold to_R.
  change (Prim2SF above_tenth) with (S754_finite false 7205759403792795 (-56)).
  reflexivity.
Qed.

Lemma to_R_above_tenth' : to_R above_tenth' = S2.
Proof.
  unfold to_R.
  change (Prim2SF above_tenth') with (S754_finite false 7205759403792796 (-56)).
  reflexivity.
Qed.

Lemma ln_S1_bound : ln S1 < - 2.08.
Proof.
  apply exp_lt_inv. rewrite exp_ln by (unfold S1; lra).
  replace (- 2.08) with (- (1 + (1 + 0.08))) by lra.
  rewrite exp_Ropp, !exp_plus.
  pose proof exp_le_3 as H3. pose proof (exp_pos 1) as Hp1.
  pose proof (exp_pos 0.08) as Hp.
  assert (exp 0.08 <= / 0.92) as Hs.
  { pose proof (exp_ineq1_le (Ropp 0.08)) as H. rewrite exp_Ropp in H.
    apply (Rmult_le_reg_l (/ exp 0.08)); [by apply Rinv_0_lt_compat|].
    rewrite Rinv_l by lra.
    apply (Rmult_le_reg_r 0.92); [lra|]. rewrite Rmult_assoc, Rinv_l by lra. lra. }
  assert (0 < exp 1 * exp 0.08) as Hpos1 by (by apply Rmult_lt_0_compat).
  assert (exp 1 * exp 0.08 <= 3 * / 0.92) as Hb1
    by (apply Rmult_le_compat; lra).
  assert (0 < exp 1 * (exp 1 * exp 0.08)) as Hpos by (by apply Rmult_lt_0_compat).
  assert (exp 1 * (exp 1 * exp 0.08) <= 3 * (3 * / 0.92)) as Hb
    by (apply Rmult_le_compat; lra).
  apply (Rmult_lt_reg_r (exp 1 * (exp 1 * exp 0.08))); [done|].
  rewrite Rinv_l by lra. unfold S1. lra.
Qed.

Lemma ln_S2_bound : - 4 < ln S2.
Proof.
  apply exp_lt_inv. rewrite exp_ln by (unfold S2; lra).
  replace (- 4) with (- (1 + (1 + (1 + 1)))) by lra.
  rewrite exp_Ropp, !exp_plus.
  assert (2 <= exp 1) as H2 by (pose proof (exp_ineq1_le 1); lra).
  assert (2 * 2 <= exp 1 * exp 1) as Hb1 by (apply Rmult_le_compat; lra).
  assert (2 * (2 * 2) <= exp 1 * (exp 1 * exp 1)) as Hb2
    by (apply Rmult_le_compat; lra).
  assert (2 * (2 * (2 * 2)) <= exp 1 * (exp 1 * (exp 1 * exp 1))) as Hb
    by (apply Rmult_le_compat; lra).
  apply (Rmult_lt_reg_r (exp 1 * (exp 1 * (exp 1 * exp 1)))); [lra|].
  rewrite Rinv_l by lra. unfold S2. lra.
Qed.

Lemma power_above_S1 : S1 < Rpower X Y.
Proof.
  unfold Rpower. rewrite <- (exp_ln S1) at 1 by (unfold S1; lra).
  apply exp_increasing.
  assert (0 < S1) as HS by (unfold S1; lra).
  assert (0 < X / (S1 * S1 * S1)) as Hr by (unfold X, S1; lra).
  assert (0 < S1 * S1) as HS' by (by apply Rmult_lt_0_compat).
  assert (0 < S1 * S1 * S1) as HS'' by (by apply Rmult_lt_0_compat).
  assert (ln X = ln S1 + ln S1 + ln S1 + ln (X / (S1 * S1 * S1))) as ->.
  { rewrite <- !ln_mult by done. f_equal. field. lra. }
  pose proof ln_S1_bound as Ht.
  pose proof (ln_lower _ Hr) as Hw.
  assert (1 - / (X / (S1 * S1 * S1)) = 1 - S1 * S1 * S1 / X) as Hc.
  { unfold X, S1. field. }
  rewrite Hc in Hw. unfold X, Y, S1 in *. lra.
Qed.

Lemma power_below_S2 : Rpower X Y < S2.
Proof.
  unfold Rpower. rewrite <- (exp_ln S2) at 1 by (unfold S2; lra).
  apply exp_increasing.
  assert (0 < S2) as HS by (unfold S2; lra).
  assert (0 < X / (S2 * S2 * S2)) as Hr by (unfold X, S2; lra).
  assert (0 < S2 * S2) as HS' by (by apply Rmult_lt_0_compat).
  assert (0 < S2 * S2 * S2) as HS'' by (by apply Rmult_lt_0_compat).
  assert (ln X = ln S2 + ln S2 + ln S2 + ln (X / (S2 * S2 * S2))) as ->.
  { rewrite <- !ln_mult by done. f_equal. field. lra. }
  pose proof ln_S2_bound as Ht.
  pose proof (ln_upper _ Hr) as Hw.
  unfold X, Y, S2 in *. lra.
Qed.

(** The exact power lies strictly between two consecutive binary64
    numbers, both above the one nearest to 0.1. *)
Lemma exact_power_bracket :
  to_R above_tenth < Rpower (to_R volume_per_particle) (to_R one_third)
    < to_R above_tenth'.
Proof.
  rewrite to_R_volume_per_particle, to_R_one_third, to_R_above_tenth,
    to_R_above_tenth'.
  split; [apply power_above_S1 | apply power_below_S2].
Qed.

(** *** The lattice dimensions are positive *)

Lemma lattice_dim_at_least_one (size spacing : float) (n : Z) :
  lattice_dim size spacing = Ok n -> (1 <= n)%Z.
Proof.
  unfold lattice_dim.
  destruct (py_div size spacing) as [q|]; [|done].
  unfold mbind at 1, result_bind.
  destruct (py_int q) as [k|]; [|done].
  intros [= <-]. lia.
Qed.

Lemma lattice_dims_at_least_one (pow : float -> float -> float)
    (size : float * float * float) (n : Z) (spacing : float) (nx ny nz : Z) :
  lattice pow size n = Ok (spacing, nx, ny, nz) ->
  (1 <= nx)%Z /\ (1 <= ny)%Z /\ (1 <= nz)%Z.
Proof.
  destruct size as [[sx sy] sz]. unfold lattice.
  destruct (lattice_spacing _ _ _) as [sp|]; [|done].
  unfold mbind at 1, result_bind.
  destruct (lattice_dim sx sp) as [a|] eqn:Ha; [|done].
  unfold mbind at 1, result_bind.
  destruct (lattice_dim sy sp) as [b|] eqn:Hb; [|done].
  unfold mbind at 1, result_bind.
  destruct (lattice_dim sz sp) as [c|] eqn:Hc; [|done].
  intros [= <- <- <- <-].
  split; [|split]; by eapply lattice_dim_at_least_one.
Qed.

(** The box of sides 0.4, 0.2 and 0.1. *)
Definition slab : float * float * float := (0.4, 0.2, 0.1)%float.

(** Its volume per particle for 8 particles is the quotient of the cubic
    scenario, so the same spacing is computed. *)
Lemma slab_volume_per_particle :
  (0.4 * 0.2 * 0.1 / 8)%float = volume_per_particle.
Proof. reflexivity. Qed.

Lemma lattice_of_slab :
  lattice (fun _ _ => above_tenth) slab 8
    = Ok (above_tenth, 3%Z, 1%Z, 1%Z).
Proof. reflexivity. Qed.

(** *** The step count of [run] *)

(** [int(duration / self.dt)], with [time_step] the binary64 number held
    by [self.dt]. *)
Definition n_steps (duration time_step : float) : result Z :=
  q ← py_div duration time_step;
  py_int q.

(** [run] without a callback; a negative count gives an empty range. *)
Definition run (duration time_step : float) : M SPHSolver unit :=
  n ← lift (n_steps duration time_step);
  SPHSolver.steps (Z.to_nat n).

(** A duration of 0.3, and two numbers whose quotient overflows. *)
Definition three_tenths : float := 0.3%float.
Definition huge : float := 1e308%float.
Definition tiny : float := 1e-308%float.

(** The binary64 quotient [0.3 / 0.1] is [2.9999999999999996]: two steps. *)
Lemma n_steps_three_tenths : n_steps three_tenths tenth = Ok 2%Z.
Proof. reflexivity. Qed.

Lemma n_steps_overflow : n_steps huge tiny = Raise OverflowError.
Proof. reflexivity. Qed.

Lemma n_steps_zero_time_step (duration time_step : float) :
  (time_step =? 0)%float = true -> n_steps duration time_step = Raise ZeroDivisionError.
Proof. unfold n_steps, py_div. by intros ->. Qed.

Lemma n_steps_raises (duration time_step : float) (e : exn) :
  n_steps duration time_step = Raise e ->
  e = ZeroDivisionError \/ e = OverflowError \/ e = ValueError.
Proof.
  unfold n_steps, py_div. destruct (time_step =? 0)%float.
  - intros [= <-]. by left.
  - unfold mbind, result_bind, py_int.
    destruct (Prim2SF _); try done; intros [= <-]; auto.
Qed.

End Binary64.

(** C7, on the running code.  The exact value of
    [(0.4 * 0.4 * 0.4 / 64) ** (1 / 3)] on binary64 operands lies between the
    two binary64 numbers that follow the one nearest to 0.1
    ([Binary64.exact_power_bracket]); Python returns the lower of them,
    [0.10000000000000002].  For any [pow] that returns one of the two, the
    lattice of the scenario is 3 x 3 x 3 and [add_fluid_box] places 27
    particles, not 64. *)
Theorem add_fluid_box_binary64_places_27
    (pow : PrimFloat.float -> PrimFloat.float -> PrimFloat.float)
    (s : SPHSolver) (position : vec3)
    (fluid_properties : FluidProperties) (jitter : nat -> vec3) :
  Binary64.faithful_in_scenario pow ->
  well_formed s ->
  (n_particles (particles s) + 64 <= Z.to_nat (max_particles (particles s)))%nat ->
  (n_active s + 64 <= Z.to_nat (max_particles (particles s)))%nat ->
  (exists spacing,
     Binary64.lattice pow (Binary64.side, Binary64.side, Binary64.side) 64
       = Ok (spacing, 3%Z, 3%Z, 3%Z)) /\
  exists s',
    Binary64.add_fluid_box pow position
      (Binary64.side, Binary64.side, Binary64.side) 64 fluid_properties jitter s
      = (Ok tt, s') /\
    n_active s' = (n_active s + 27)%nat /\
    n_particles (particles s') = (n_particles (particles s) + 27)%nat.
Proof.
  intros Hpow Hwf Hstored Hlive.
  destruct (Binary64.lattice_of_scenario pow Hpow) as [spacing Hlattice].
  split; [by exists spacing|].
  unfold Binary64.add_fluid_box. rewrite Hlattice, run_lift_bind.
  destruct (fill_box_count position (Binary64.to_R spacing) 64 fluid_properties
              jitter (n_particles (particles s)) (n_active s)
              (max_particles (particles s)) Hstored Hlive 3 3 3 s)
    as (s' & Hrun & _ & _ & Hstored' & Hlive').
  { unfold filled. split; [done|]. split; [done|]. split; simpl; lia. }
  rewrite (run_bind_ok _ _ _ _ _ Hrun).
  exists s'. split; [done|]. split; [exact Hlive' | exact Hstored'].
Qed.

(** An empty solver of capacity 100 with the default parameters. *)
Definition empty_solver : SPHSolver :=
  mkSPHSolver (2, 2, 2) 0.05 0.02 1000 2000 0.001 (0, -9.81, 0) 0.001
    (mkParticleSystem 100 0
       (replicate 100 vzero) (replicate 100 vzero) (replicate 100 vzero)
       (replicate 100 0) (replicate 100 0) (replicate 100 0)
       (replicate 100 vzero) (replicate 100 (1 * 0.001)))
    0 (SpatialHashGrid.init 0.05) 0 0.

Lemma empty_solver_built :
  SPHSolver.init (2, 2, 2) 0.05 0.02 1000 2000 0.001 (0, -9.81, 0) 0.001 100
    = Ok empty_solver.
Proof. reflexivity. Qed.

Lemma add_fluid_box_binary64_places_27_witness :
  (exists spacing,
     Binary64.lattice (fun _ _ => Binary64.above_tenth)
       (Binary64.side, Binary64.side, Binary64.side) 64
       = Ok (spacing, 3%Z, 3%Z, 3%Z)) /\
  exists s',
    Binary64.add_fluid_box (fun _ _ => Binary64.above_tenth) (0.3, 0.3, 0.3)
      (Binary64.side, Binary64.side, Binary64.side) 64
      (mkFluidProperties None None) (fun _ => (0, 0, 0)) empty_solver
      = (Ok tt, s') /\
    n_active s' = (n_active empty_solver + 27)%nat /\
    n_particles (particles s')
      = (n_particles (particles empty_solver) + 27)%nat.
Proof.
  apply (add_fluid_box_binary64_places_27 (fun _ _ => Binary64.above_tenth)
           empty_solver (0.3, 0.3, 0.3) (mkFluidProperties None None)
           (fun _ => (0, 0, 0))).
  - by left.
  - repeat split; try reflexivity. simpl. lia.
  - simpl. lia.
  - simpl. lia.
Defined.

(* ================================================================== *)
(** * Further properties of the core modules

    The remaining methods of the four modules: removal and the live
    views of the particle store, the statistics and the query helpers of
    the grid, the gradient and the vectorized kernels, and, for the
    solver, the insertion helper, the reflection, [run] and
    [get_info]. *)

(* ------------------------------------------------------------------ *)
(** ** Particle store: removal and the live views *)

(** The data of slot [i], one entry per array. *)
Definition row (p : ParticleSystem) (i : nat) :=
  (positions p !! i, velocities p !! i, forces p !! i, masses p !! i,
   densities p !! i, pressures p !! i, colors p !! i, viscosities p !! i).

(** The live particles, slot by slot. *)
Definition live_rows (p : ParticleSystem) := map (row p) (seq 0 (n_particles p)).

(** Projections of a store written with the setters. *)
Ltac store_fields :=
  cbn [max_particles n_particles positions velocities forces masses densities
       pressures colors viscosities
       set_n_particles set_positions set_velocities set_forces set_masses
       set_densities set_pressures set_colors set_viscosities].

Lemma row_insert_lookup {A} (l : list A) (dst src i : nat) (x : A) :
  l !! src = Some x -> (dst < length l)%nat ->
  <[dst := x]> l !! i = if decide (i = dst) then l !! src else l !! i.
Proof.
  intros Hsrc Hdst. case_decide as Hi.
  - subst i. by rewrite list_lookup_insert_eq.
  - by rewrite list_lookup_insert_ne.
Qed.

(** Removal of a live slot: the last live row is copied over it, unless it
    is the last one itself, and the count drops by one. *)
Lemma remove_particle_live (p : ParticleSystem) (index : nat) :
  ParticleSystem.shaped p ->
  (n_particles p <= Z.to_nat (max_particles p))%nat ->
  (index < n_particles p)%nat ->
  exists p',
    ParticleSystem.remove_particle index p = (Ok tt, p') /\
    n_particles p' = (n_particles p - 1)%nat /\
    max_particles p' = max_particles p /\
    ParticleSystem.shaped p' /\
    forall i, row p' i = if decide (i = index) then row p (n_particles p - 1) else row p i.
Proof.
  intros (Hp & Hv & Hf & Hm & Hd & Hpr & Hc & Hvi) Hcap Hi.
  unfold ParticleSystem.remove_particle.
  rewrite run_get_bind, decide_False by lia.
  set (last_idx := (n_particles p - 1)%nat).
  destruct (decide (index <> last_idx)) as [Hne|Heq].
  - destruct (lookup_lt_is_Some_2 (positions p) last_idx) as [x1 H1]; [lia|].
    destruct (lookup_lt_is_Some_2 (velocities p) last_idx) as [x2 H2]; [lia|].
    destruct (lookup_lt_is_Some_2 (forces p) last_idx) as [x3 H3]; [lia|].
    destruct (lookup_lt_is_Some_2 (masses p) last_idx) as [x4 H4]; [lia|].
    destruct (lookup_lt_is_Some_2 (densities p) last_idx) as [x5 H5]; [lia|].
    destruct (lookup_lt_is_Some_2 (pressures p) last_idx) as [x6 H6]; [lia|].
    destruct (lookup_lt_is_Some_2 (colors p) last_idx) as [x7 H7]; [lia|].
    destruct (lookup_lt_is_Some_2 (viscosities p) last_idx) as [x8 H8]; [lia|].
    unfold ParticleSystem.copy_row, mbind, M_bind, get, lift.
    store_fields.
    rewrite (getitem_ok _ _ _ H1), assign_ok by lia. store_fields.
    rewrite (getitem_ok _ _ _ H2), assign_ok by (store_fields; lia). store_fields.
    rewrite (getitem_ok _ _ _ H3), assign_ok by (store_fields; lia). store_fields.
    rewrite (getitem_ok _ _ _ H4), assign_ok by (store_fields; lia). store_fields.
    rewrite (getitem_ok _ _ _ H5), assign_ok by (store_fields; lia). store_fields.
    rewrite (getitem_ok _ _ _ H6), assign_ok by (store_fields; lia). store_fields.
    rewrite (getitem_ok _ _ _ H7), assign_ok by (store_fields; lia). store_fields.
    rewrite (getitem_ok _ _ _ H8), assign_ok by (store_fields; lia). store_fields.
    unfold modify. eexists. split; [reflexivity|]. simpl.
    split; [done|]. split; [done|]. split.
    { unfold ParticleSystem.shaped. simpl. rewrite !length_insert. done. }
    intros i. unfold row. simpl.
    rewrite (row_insert_lookup _ _ _ i _ H1), (row_insert_lookup _ _ _ i _ H2),
      (row_insert_lookup _ _ _ i _ H3), (row_insert_lookup _ _ _ i _ H4),
      (row_insert_lookup _ _ _ i _ H5), (row_insert_lookup _ _ _ i _ H6),
      (row_insert_lookup _ _ _ i _ H7), (row_insert_lookup _ _ _ i _ H8) by lia.
    by case_decide.
  - assert (index = last_idx) as -> by (destruct (decide (index = last_idx)); [done | tauto]).
    rewrite run_bind. unfold mret at 1, M_ret, modify.
    eexists. split; [reflexivity|]. simpl.
    split; [done|]. split; [done|]. split; [done|].
    intros i. unfold row. simpl. case_decide; by subst.
Qed.

Lemma remove_particle_out_of_range (p : ParticleSystem) (index : nat) :
  (n_particles p <= index)%nat ->
  ParticleSystem.remove_particle index p = (Ok tt, p).
Proof.
  intros Hi. unfold ParticleSystem.remove_particle.
  by rewrite run_get_bind, decide_True.
Qed.

(** Overwriting a slot with the last element and dropping the last slot
    removes the slot's old element, up to order. *)
Lemma swap_remove_perm {A} (l0 : list A) (x : A) (index : nat) :
  (index <= length l0)%nat ->
  take (length l0) (<[index := x]> (l0 ++ [x])) ≡ₚ delete index (l0 ++ [x]).
Proof.
  intros Hi. destruct (decide (index = length l0)) as [->|Hne].
  - rewrite insert_app_r_alt, Nat.sub_diag by lia. simpl.
    rewrite take_app_length.
    rewrite delete_take_drop, take_app_length, drop_ge by (rewrite length_app; simpl; lia).
    by rewrite app_nil_r.
  - assert (index < length l0)%nat as Hlt by lia.
    rewrite insert_app_l by done.
    rewrite take_app_length' by (by rewrite length_insert).
    destruct (lookup_lt_is_Some_2 l0 index Hlt) as [y Hy].
    rewrite delete_take_drop.
    rewrite take_app_le by lia.
    rewrite drop_app_le by lia.
    rewrite insert_take_drop by done.
    rewrite <- Permutation_middle. rewrite app_assoc.
    by rewrite <- Permutation_cons_append.
Qed.

Lemma live_rows_lookup (p : ParticleSystem) (i : nat) :
  (i < n_particles p)%nat -> live_rows p !! i = Some (row p i).
Proof.
  intros Hi. unfold live_rows.
  by rewrite list_lookup_fmap, lookup_seq_lt.
Qed.

Lemma length_live_rows (p : ParticleSystem) : length (live_rows p) = n_particles p.
Proof. unfold live_rows. by rewrite length_map, length_seq. Qed.

Lemma live_rows_after_removal (p p' : ParticleSystem) (index : nat) :
  (index < n_particles p)%nat ->
  n_particles p' = (n_particles p - 1)%nat ->
  (forall i, row p' i = if decide (i = index) then row p (n_particles p - 1) else row p i) ->
  live_rows p' ≡ₚ delete index (live_rows p).
Proof.
  intros Hi Hn Hrows.
  set (l0 := map (row p) (seq 0 (n_particles p - 1))).
  assert (length l0 = (n_particles p - 1)%nat) as Hl0.
  { unfold l0. by rewrite length_map, length_seq. }
  assert (live_rows p = l0 ++ [row p (n_particles p - 1)]) as Hsplit.
  { unfold live_rows, l0.
    replace (n_particles p) with (n_particles p - 1 + 1)%nat at 1 by lia.
    by rewrite seq_app, map_app. }
  assert (live_rows p' = take (length l0)
            (<[index := row p (n_particles p - 1)]> (l0 ++ [row p (n_particles p - 1)]))) as ->.
  { apply list_eq. intros i.
    destruct (decide (i < n_particles p - 1)%nat) as [Hlt|Hge].
    - rewrite live_rows_lookup by lia.
      rewrite lookup_take_lt by lia. rewrite Hrows.
      case_decide as Hii.
      + subst i. by rewrite list_lookup_insert_eq by (rewrite length_app; simpl; lia).
      + rewrite list_lookup_insert_ne by done.
        rewrite <- Hsplit. by rewrite live_rows_lookup by lia.
    - rewrite lookup_ge_None_2 by (rewrite length_live_rows; lia).
      by rewrite lookup_take_ge by lia. }
  rewrite Hsplit. apply swap_remove_perm. lia.
Qed.

(** Below capacity [add_particle] writes slot [n_particles] only. *)
Lemma add_particle_frame (p : ParticleSystem) (position velocity : vec3)
    (mass : R) (color : vec3) (viscosity : R) :
  ParticleSystem.shaped p ->
  (Z.of_nat (n_particles p) < max_particles p)%Z ->
  exists p',
    ParticleSystem.add_particle position velocity mass color viscosity p
      = (Ok (n_particles p), p') /\
    ParticleSystem.shaped p' /\
    n_particles p' = (n_particles p + 1)%nat /\
    max_particles p' = max_particles p /\
    row p' (n_particles p)
      = (Some position, Some velocity, Some (0, 0, 0), Some mass, Some 0, Some 0,
         Some color, Some viscosity) /\
    forall i, i <> n_particles p -> row p' i = row p i.
Proof.
  intros (Hp & Hv & Hf & Hm & Hd & Hpr & Hc & Hvi) HN.
  assert (n_particles p < Z.to_nat (max_particles p))%nat as Hlt by lia.
  unfold ParticleSystem.add_particle, mbind, M_bind, get, modify, mret, M_ret.
  rewrite decide_False by lia.
  repeat (rewrite assign_ok by (simpl; lia); simpl).
  eexists. split; [reflexivity|]. simpl. split.
  { unfold ParticleSystem.shaped. simpl. rewrite !length_insert. done. }
  split; [done|]. split; [done|]. split.
  - unfold row. simpl. by rewrite !list_lookup_insert_eq by lia.
  - intros i Hi. unfold row. simpl. by rewrite !list_lookup_insert_ne by done.
Qed.

Lemma row_positions (p p' : ParticleSystem) (i : nat) :
  row p' i = row p i ->
  positions p' !! i = positions p !! i /\ velocities p' !! i = velocities p !! i.
Proof. unfold row. intros [=]. done. Qed.

(** A live view after one more row was written at its end. *)
Lemma take_grown {A} (l l' : list A) (n : nat) (x : A) :
  (forall i, i <> n -> l' !! i = l !! i) -> l' !! n = Some x ->
  take (n + 1) l' = take n l ++ [x].
Proof.
  intros Hsame Hx. rewrite Nat.add_1_r, (take_S_r _ _ _ Hx). f_equal.
  apply list_eq. intros i. destruct (decide (i < n)%nat).
  - rewrite !lookup_take_lt by done. apply Hsame. lia.
  - by rewrite !lookup_take_ge by lia.
Qed.

(** X1. [remove_particle] on a store whose arrays have [max_particles]
    rows and hold [N] live particles.  An index at or beyond [N] is
    ignored: nothing changes and nothing is raised.  A live index is
    overwritten, in all eight arrays, with the last live row, and the
    count drops to [N - 1]; every other slot, the vacated last one
    included, keeps its data. *)
Theorem remove_particle_contract (p : ParticleSystem) (index : nat) :
  ParticleSystem.shaped p ->
  (n_particles p <= Z.to_nat (max_particles p))%nat ->
  let N := n_particles p in
  ((N <= index)%nat -> ParticleSystem.remove_particle index p = (Ok tt, p)) /\
  ((index < N)%nat ->
     exists p',
       ParticleSystem.remove_particle index p = (Ok tt, p') /\
       n_particles p' = (N - 1)%nat /\
       max_particles p' = max_particles p /\
       ParticleSystem.shaped p' /\
       row p' index = row p (N - 1) /\
       forall i, i <> index -> row p' i = row p i).
Proof.
  intros Hshape Hcap N. split.
  - apply remove_particle_out_of_range.
  - intros Hi.
    destruct (remove_particle_live p index Hshape Hcap Hi)
      as (p' & Hrun & Hn & Hmax & Hshape' & Hrows).
    exists p'. repeat (split; [done|]). split.
    + by rewrite Hrows, decide_True.
    + intros i Hne. by rewrite Hrows, decide_False.
Qed.

Definition two_live_store : ParticleSystem :=
  mkParticleSystem 2 2 [(1, 1, 1); (2, 2, 2)] [(3, 3, 3); (4, 4, 4)]
    [(0, 0, 0); (0, 0, 0)] [5; 6] [7; 8] [9; 10] [(0, 0, 1); (0, 1, 0)] [0.001; 0.002].

Lemma two_live_store_shaped : ParticleSystem.shaped two_live_store.
Proof. repeat split; reflexivity. Qed.

Lemma remove_particle_contract_witness :
  ParticleSystem.remove_particle 2 two_live_store = (Ok tt, two_live_store) /\
  exists p',
    ParticleSystem.remove_particle 0 two_live_store = (Ok tt, p') /\
    n_particles p' = 1%nat /\
    max_particles p' = 2%Z /\
    ParticleSystem.shaped p' /\
    row p' 0 = row two_live_store 1 /\
    forall i, i <> 0%nat -> row p' i = row two_live_store i.
Proof.
  split.
  - apply (remove_particle_contract two_live_store 2).
    + repeat split; reflexivity.
    + simpl. lia.
    + simpl. lia.
  - apply (remove_particle_contract two_live_store 0).
    + repeat split; reflexivity.
    + simpl. lia.
    + simpl. lia.
Defined.

(** X2. Removing a live particle removes that particle and no other: the
    live rows after [remove_particle index] are the live rows before it
    without row [index], up to order. *)
Theorem remove_particle_keeps_the_others (p : ParticleSystem) (index : nat) :
  ParticleSystem.shaped p ->
  (n_particles p <= Z.to_nat (max_particles p))%nat ->
  (index < n_particles p)%nat ->
  exists p',
    ParticleSystem.remove_particle index p = (Ok tt, p') /\
    live_rows p' ≡ₚ delete index (live_rows p).
Proof.
  intros Hshape Hcap Hi.
  destruct (remove_particle_live p index Hshape Hcap Hi)
    as (p' & Hrun & Hn & _ & _ & Hrows).
  exists p'. split; [done|]. by apply live_rows_after_removal.
Qed.

Lemma remove_particle_keeps_the_others_witness :
  exists p',
    ParticleSystem.remove_particle 0 two_live_store = (Ok tt, p') /\
    live_rows p' ≡ₚ delete 0%nat (live_rows two_live_store).
Proof.
  apply (remove_particle_keeps_the_others two_live_store 0).
  - repeat split; reflexivity.
  - simpl. lia.
  - simpl. lia.
Defined.

(** X3. Appending a particle and removing it again is a round trip on the
    live particles: the count and every live row are as before, and so
    are the views returned by [get_positions] and [get_velocities]. *)
Theorem add_then_remove_round_trip (p : ParticleSystem) (position velocity : vec3)
    (mass : R) (color : vec3) (viscosity : R) :
  ParticleSystem.shaped p ->
  (Z.of_nat (n_particles p) < max_particles p)%Z ->
  exists idx p1 p2,
    ParticleSystem.add_particle position velocity mass color viscosity p
      = (Ok idx, p1) /\
    ParticleSystem.remove_particle idx p1 = (Ok tt, p2) /\
    n_particles p2 = n_particles p /\
    live_rows p2 = live_rows p /\
    ParticleSystem.get_positions p2 = ParticleSystem.get_positions p /\
    ParticleSystem.get_velocities p2 = ParticleSystem.get_velocities p.
Proof.
  intros Hshape HN.
  destruct (add_particle_frame p position velocity mass color viscosity Hshape HN)
    as (p1 & Hadd & Hshape1 & Hn1 & Hmax1 & _ & Hframe).
  destruct (remove_particle_live p1 (n_particles p)) as (p2 & Hrem & Hn2 & _ & _ & Hrows);
    [done | lia | lia |].
  exists (n_particles p), p1, p2. split; [done|]. split; [done|].
  assert (n_particles p2 = n_particles p) as Hn by lia.
  assert (forall i, (i < n_particles p)%nat -> row p2 i = row p i) as Hsame.
  { intros i Hi. rewrite Hrows, decide_False by lia. apply Hframe. lia. }
  split; [done|]. split; [|split].
  - unfold live_rows. rewrite Hn. apply map_ext_in. intros i Hi.
    apply Hsame. apply in_seq in Hi. lia.
  - unfold ParticleSystem.get_positions. rewrite Hn. apply list_eq. intros i.
    destruct (decide (i < n_particles p)%nat) as [Hi|Hi].
    + rewrite !lookup_take_lt by done. by apply row_positions, Hsame.
    + by rewrite !lookup_take_ge by lia.
  - unfold ParticleSystem.get_velocities. rewrite Hn. apply list_eq. intros i.
    destruct (decide (i < n_particles p)%nat) as [Hi|Hi].
    + rewrite !lookup_take_lt by done. by apply row_positions, Hsame.
    + by rewrite !lookup_take_ge by lia.
Qed.

Lemma add_then_remove_round_trip_witness :
  exists idx p1 p2,
    ParticleSystem.add_particle (1, 2, 3) (4, 5, 6) 7 (0, 0, 1) 8 store_of_two
      = (Ok idx, p1) /\
    ParticleSystem.remove_particle idx p1 = (Ok tt, p2) /\
    n_particles p2 = n_particles store_of_two /\
    live_rows p2 = live_rows store_of_two /\
    ParticleSystem.get_positions p2 = ParticleSystem.get_positions store_of_two /\
    ParticleSystem.get_velocities p2 = ParticleSystem.get_velocities store_of_two.
Proof.
  apply (add_then_remove_round_trip store_of_two (1, 2, 3) (4, 5, 6) 7 (0, 0, 1) 8).
  - repeat split; reflexivity.
  - reflexivity.
Defined.

(** X4. The live views grow at their end: after a successful
    [add_particle], [get_positions] and [get_velocities] return the
    former views followed by the new position and the new velocity. *)
Theorem live_views_after_add (p : ParticleSystem) (position velocity : vec3)
    (mass : R) (color : vec3) (viscosity : R) :
  ParticleSystem.shaped p ->
  (Z.of_nat (n_particles p) < max_particles p)%Z ->
  exists idx p',
    ParticleSystem.add_particle position velocity mass color viscosity p
      = (Ok idx, p') /\
    ParticleSystem.get_positions p' = ParticleSystem.get_positions p ++ [position] /\
    ParticleSystem.get_velocities p' = ParticleSystem.get_velocities p ++ [velocity] /\
    ParticleSystem.get_positions p' !! idx = Some position.
Proof.
  intros Hshape HN.
  destruct (add_particle_frame p position velocity mass color viscosity Hshape HN)
    as (p' & Hadd & _ & Hn & _ & Hnew & Hframe).
  exists (n_particles p), p'. split; [done|].
  unfold row in Hnew. injection Hnew as Hpos Hvel _ _ _ _ _ _.
  assert (ParticleSystem.get_positions p' = ParticleSystem.get_positions p ++ [position]) as Hgp.
  { unfold ParticleSystem.get_positions. rewrite Hn. apply take_grown; [|done].
    intros i Hi. by apply row_positions, Hframe. }
  split; [done|]. split.
  - unfold ParticleSystem.get_velocities. rewrite Hn. apply take_grown; [|done].
    intros i Hi. by apply row_positions, Hframe.
  - rewrite Hgp. rewrite lookup_app_r; unfold ParticleSystem.get_positions;
      rewrite length_take, Nat.min_l.
    + by rewrite Nat.sub_diag.
    + destruct Hshape as (Hp & _). lia.
    + lia.
    + destruct Hshape as (Hp & _). lia.
Qed.

Lemma live_views_after_add_witness :
  exists idx p',
    ParticleSystem.add_particle (1, 2, 3) (4, 5, 6) 7 (0, 0, 1) 8 store_of_two
      = (Ok idx, p') /\
    ParticleSystem.get_positions p'
      = ParticleSystem.get_positions store_of_two ++ [(1, 2, 3)] /\
    ParticleSystem.get_velocities p'
      = ParticleSystem.get_velocities store_of_two ++ [(4, 5, 6)] /\
    ParticleSystem.get_positions p' !! idx = Some (1, 2, 3).
Proof.
  apply (live_views_after_add store_of_two (1, 2, 3) (4, 5, 6) 7 (0, 0, 1) 8).
  - repeat split; reflexivity.
  - reflexivity.
Defined.

(* ------------------------------------------------------------------ *)
(** ** Spatial index: the shape of a built grid *)

Section grid_shape.
Import SpatialHashGrid.

(** The number of indices stored in the grid, over all buckets. *)
Definition stored_indices (g : SpatialHashGrid) : nat :=
  sum_list ((fun kv => length kv.2) <$> map_to_list (grid g)).

(** No bucket of the grid is empty. *)
Definition populated (g : SpatialHashGrid) : Prop :=
  forall c b, grid g !! c = Some b -> b <> [].

Lemma stored_indices_insert (m : gmap cell (list nat)) (c : cell) (b : list nat) :
  sum_list ((fun kv => length kv.2) <$> map_to_list (<[c := b]> m))
  = (length b + sum_list ((fun kv => length kv.2) <$> map_to_list (delete c m)))%nat.
Proof.
  rewrite <- insert_delete_eq.
  rewrite map_to_list_insert by apply lookup_delete_eq.
  done.
Qed.

Lemma stored_indices_delete (m : gmap cell (list nat)) (c : cell) :
  sum_list ((fun kv => length kv.2) <$> map_to_list m)
  = (length (default [] (m !! c))
     + sum_list ((fun kv => length kv.2) <$> map_to_list (delete c m)))%nat.
Proof.
  destruct (m !! c) as [b|] eqn:Hc; simpl.
  - by rewrite <- (map_to_list_delete m c b Hc).
  - by rewrite delete_id.
Qed.

Lemma stored_indices_append_at g c idx :
  stored_indices (append_at c idx g) = S (stored_indices g).
Proof.
  unfold stored_indices, append_at. simpl.
  rewrite stored_indices_insert, (stored_indices_delete (grid g) c).
  rewrite length_app. simpl. lia.
Qed.

Lemma populated_append_at g c idx : populated g -> populated (append_at c idx g).
Proof.
  intros Hg c' b. unfold append_at. simpl.
  destruct (decide (c' = c)) as [->|Hne].
  - rewrite lookup_insert_eq. intros [= <-]. by destruct (default [] _).
  - rewrite lookup_insert_ne by done. apply Hg.
Qed.

Lemma bucket_append_at_eq g c idx c' :
  bucket (append_at c idx g) c'
  = if decide (c' = c) then bucket g c ++ [idx] else bucket g c'.
Proof.
  unfold bucket, append_at. simpl. case_decide as Hc.
  - subst. by rewrite lookup_insert_eq.
  - by rewrite lookup_insert_ne.
Qed.

(** The loop of [build] stores every index once: it adds one stored
    index per position, leaves no bucket empty and repeats no index
    inside a bucket. *)
Lemma build_loop_shape (ips : list (nat * vec3)) :
  forall g g',
    forM_ ips (fun '(idx, pos) =>
      self ← get; c ← lift (hash_position self pos); modify (append_at c idx)) g
      = (Ok tt, g') ->
    NoDup ips.*1 ->
    (forall x c, x ∈ ips.*1 -> x ∉ bucket g c) ->
    stored_indices g' = (stored_indices g + length ips)%nat /\
    (populated g -> populated g') /\
    ((forall c, NoDup (bucket g c)) -> forall c, NoDup (bucket g' c)).
Proof.
  unfold forM_.
  induction ips as [|[idx pos] ips IH]; intros g g' Hrun Hnd Hfresh; simpl in *.
  - injection Hrun as <-. split; [lia | done].
  - rewrite run_bind, run_get_bind, run_bind in Hrun. unfold lift at 1 in Hrun.
    destruct (hash_position g pos) as [c|e]; [|done].
    unfold modify at 1 in Hrun.
    apply NoDup_cons in Hnd as [Hidx Hnd].
    destruct (IH _ _ Hrun Hnd) as (Hsum & Hpop & Hbuckets).
    { intros x c' Hx. rewrite bucket_append_at_eq. case_decide.
      - rewrite elem_of_app, list_elem_of_singleton. intros [Hin| ->].
        + by apply (Hfresh x c); [right|].
        + done.
      - apply Hfresh. by right. }
    split; [|split].
    + rewrite Hsum, stored_indices_append_at. lia.
    + intros Hg. by apply Hpop, populated_append_at.
    + intros Hg. apply Hbuckets. intros c'. rewrite bucket_append_at_eq.
      case_decide; [|done].
      apply NoDup_app. split; [done|]. split; [|apply NoDup_singleton].
      intros x Hx ->%list_elem_of_singleton. by apply (Hfresh idx c); [left|].
Qed.

Lemma imap_pair_indices {A} (l : list A) : (imap pair l).*1 = seq 0 (length l).
Proof.
  apply list_eq. intros i. rewrite list_lookup_fmap, list_lookup_imap.
  destruct (l !! i) as [x|] eqn:Hi; simpl.
  - apply lookup_lt_Some in Hi. by rewrite lookup_seq_lt.
  - apply lookup_ge_None in Hi. by rewrite lookup_seq_ge.
Qed.

(** [build] with a non-zero cell size: the grid it leaves. *)
Lemma build_shape (positions : list vec3) g :
  cell_size g <> 0 ->
  exists g',
    build positions g = (Ok tt, g') /\
    cell_size g' = cell_size g /\
    (forall c i, i ∈ bucket g' c <->
       exists p, positions !! i = Some p /\ cell_of (cell_size g) p = c) /\
    stored_indices g' = length positions /\
    populated g' /\
    forall c, NoDup (bucket g' c).
Proof.
  intros Hc.
  destruct (build_spec positions g Hc) as (g' & Hrun & Hsize & Hmem).
  exists g'. split; [done|]. split; [done|]. split; [done|].
  unfold build in Hrun. rewrite run_modify_bind in Hrun.
  destruct (build_loop_shape _ _ _ Hrun) as (Hsum & Hpop & Hnd).
  - rewrite imap_pair_indices. apply NoDup_seq.
  - intros x c _. unfold bucket. simpl. rewrite lookup_empty. apply not_elem_of_nil.
  - split; [|split].
    + rewrite Hsum. unfold stored_indices. simpl.
      rewrite map_to_list_empty, length_imap. done.
    + apply Hpop. intros c b. simpl. by rewrite lookup_empty.
    + apply Hnd. intros c. unfold bucket. simpl. rewrite lookup_empty. apply NoDup_nil_2.
Qed.
End grid_shape.

Lemma Rsum_INR (l : list nat) : Rsum (INR <$> l) = INR (sum_list l).
Proof.
  induction l as [|n l IH]; simpl; [done|].
  by rewrite plus_INR, <- IH.
Qed.

Lemma max_list_le_sum_list (l : list nat) : (max_list l <= sum_list l)%nat.
Proof. induction l as [|n l IH]; simpl; lia. Qed.

Lemma length_le_sum_list (l : list nat) :
  (forall n, n ∈ l -> (1 <= n)%nat) -> (length l <= sum_list l)%nat.
Proof.
  induction l as [|n l IH]; intros Hl; simpl; [done|].
  pose proof (Hl n ltac:(by left)). 
  assert (length l <= sum_list l)%nat by (apply IH; intros n' Hn'; apply Hl; by right).
  lia.
Qed.

(** The bucket sizes of a populated grid are all positive. *)
Lemma populated_sizes g :
  populated g ->
  forall n, n ∈ (fun kv : cell * list nat => length kv.2) <$> map_to_list (grid g) ->
    (1 <= n)%nat.
Proof.
  intros Hg n Hn. apply list_elem_of_fmap in Hn as ([c b] & -> & Hcb).
  apply elem_of_map_to_list in Hcb. apply Hg in Hcb. simpl.
  destruct b; [done | simpl; lia].
Qed.

(** X5. Grid statistics after a rebuild.  On the grid built from
    [positions] with a non-zero cell size, [get_cells_info] counts every
    position once and no empty cell: [num_particles] is the number of
    positions, [num_cells] and [max_particles_per_cell] do not exceed
    it, and the average times the number of cells gives it back; from
    one position on there is at least one cell, holding at least one
    index. *)
Theorem cells_info_after_build (g : SpatialHashGrid) (positions : list vec3) :
  cell_size g <> 0 ->
  exists g' info,
    SpatialHashGrid.build positions g = (Ok tt, g') /\
    SpatialHashGrid.get_cells_info g' = Ok info /\
    num_particles info = length positions /\
    (num_cells info <= length positions)%nat /\
    (max_particles_per_cell info <= length positions)%nat /\
    avg_particles_per_cell info * INR (num_cells info) = INR (length positions) /\
    (positions <> [] ->
       (1 <= num_cells info)%nat /\ (1 <= max_particles_per_cell info)%nat).
Proof.
  intros Hc.
  destruct (build_shape positions g Hc) as (g' & Hrun & _ & _ & Hsum & Hpop & _).
  exists g'. unfold SpatialHashGrid.get_cells_info.
  pose proof (populated_sizes g' Hpop) as Hsizes.
  unfold stored_indices in Hsum.
  set (ppc := (fun kv : cell * list nat => length kv.2) <$> map_to_list (grid g')) in *.
  assert (length ppc = size (grid g')) as Hlen.
  { unfold ppc. by rewrite length_fmap, length_map_to_list. }
  pose proof (length_le_sum_list ppc Hsizes) as Hcells.
  pose proof (max_list_le_sum_list ppc) as Hmax.
  case_decide as Hempty.
  - eexists. split; [done|]. split; [reflexivity|]. simpl.
    assert (length positions = 0%nat) as Hnil.
    { rewrite <- Hsum. unfold ppc. by rewrite Hempty, map_to_list_empty. }
    split; [done|]. split; [lia|]. split; [lia|]. split.
    + rewrite Hnil. simpl. lra.
    + intros Hne. by destruct positions.
  - assert (size (grid g') <> 0%nat) as Hsize.
    { intros Hs. by apply map_size_empty_iff in Hs. }
    unfold np_mean, np_div. rewrite decide_False.
    2:{ rewrite length_fmap, Hlen. by apply not_0_INR. }
    unfold mbind, result_bind.
    eexists. split; [done|]. split; [reflexivity|]. simpl.
    rewrite length_fmap, Hlen, Rsum_INR, Hsum.
    split; [done|]. split; [lia|]. split; [lia|]. split.
    + field. by apply not_0_INR.
    + intros _. split; [lia|].
      assert (ppc <> []) as Hppc.
      { intros Hnil. rewrite Hnil in Hlen. simpl in Hlen. lia. }
      apply Hsizes. by apply max_list_elem_of.
Qed.

Definition sample_positions : list vec3 :=
  [(0.05, 0.05, 0.05); (0.15, 0.05, 0.05); (0.95, 0.95, 0.95)].

Lemma cells_info_after_build_witness :
  exists g' info,
    SpatialHashGrid.build sample_positions (SpatialHashGrid.init 0.1) = (Ok tt, g') /\
    SpatialHashGrid.get_cells_info g' = Ok info /\
    num_particles info = length sample_positions /\
    (num_cells info <= length sample_positions)%nat /\
    (max_particles_per_cell info <= length sample_positions)%nat /\
    avg_particles_per_cell info * INR (num_cells info)
      = INR (length sample_positions) /\
    (sample_positions <> [] ->
       (1 <= num_cells info)%nat /\ (1 <= max_particles_per_cell info)%nat).
Proof.
  apply (cells_info_after_build (SpatialHashGrid.init 0.1) sample_positions).
  simpl. lra.
Defined.

(* ------------------------------------------------------------------ *)
(** ** Spatial index: what a query returns *)

Lemma NoDup_offsets : NoDup SpatialHashGrid.offsets.
Proof.
  unfold SpatialHashGrid.offsets.
  repeat (apply NoDup_cons; split; [rewrite ?elem_of_cons, elem_of_nil; lia|]).
  apply NoDup_nil_2.
Qed.

(** On a grid whose buckets repeat no index and share no index, a query
    returns no index twice. *)
Lemma get_neighbors_NoDup g q radius ns :
  cell_size g <> 0 ->
  (forall c, NoDup (bucket g c)) ->
  (forall c c' x, x ∈ bucket g c -> x ∈ bucket g c' -> c = c') ->
  SpatialHashGrid.get_neighbors g q radius = Ok ns ->
  NoDup ns.
Proof.
  intros Hc Hnd Hdisj. unfold SpatialHashGrid.get_neighbors.
  rewrite hash_position_ok by done. unfold mbind at 1, result_bind.
  destruct (cell_of (cell_size g) q) as [[ci cj] ck]. cbv beta iota.
  match goal with |- Ok ?E = Ok ns -> _ =>
    intros Heq; assert (ns = E) as -> by congruence; clear Heq
  end.
  assert (forall c, match grid g !! c with Some b => b | None => [] end = bucket g c)
    as Hb by (intros c; unfold bucket; by destruct (grid g !! c)).
  apply NoDup_bind; [| |apply NoDup_offsets].
  - intros d1 d2 x _ _ Hx1 Hx2.
    apply list_elem_of_bind in Hx1 as (dj1 & Hx1 & _).
    apply list_elem_of_bind in Hx1 as (dk1 & Hx1 & _).
    apply list_elem_of_bind in Hx2 as (dj2 & Hx2 & _).
    apply list_elem_of_bind in Hx2 as (dk2 & Hx2 & _).
    rewrite Hb in Hx1, Hx2.
    pose proof (Hdisj _ _ _ Hx1 Hx2) as [= ? ? ?]. lia.
  - intros di _. apply NoDup_bind; [| |apply NoDup_offsets].
    + intros d1 d2 x _ _ Hx1 Hx2.
      apply list_elem_of_bind in Hx1 as (dk1 & Hx1 & _).
      apply list_elem_of_bind in Hx2 as (dk2 & Hx2 & _).
      rewrite Hb in Hx1, Hx2.
      pose proof (Hdisj _ _ _ Hx1 Hx2) as [= ? ?]. lia.
    + intros dj _. apply NoDup_bind; [| |apply NoDup_offsets].
      * intros d1 d2 x _ _ Hx1 Hx2. rewrite Hb in Hx1, Hx2.
        pose proof (Hdisj _ _ _ Hx1 Hx2) as [= ?]. lia.
      * intros dk _. rewrite Hb. apply Hnd.
Qed.

(** X6. A query after a rebuild returns each candidate once.  On the
    grid built from [positions], [get_neighbors] returns a list without
    repetition whose entries are all indices of [positions]; so
    [get_neighbor_count] never exceeds the number of positions. *)
Theorem neighbor_count_bounded (g : SpatialHashGrid) (positions : list vec3)
    (q : vec3) (radius : R) :
  cell_size g <> 0 ->
  exists g' ns,
    SpatialHashGrid.build positions g = (Ok tt, g') /\
    SpatialHashGrid.get_neighbors g' q radius = Ok ns /\
    NoDup ns /\
    (forall j, j ∈ ns -> (j < length positions)%nat) /\
    SpatialHashGrid.get_neighbor_count g' q radius = Ok (length ns) /\
    (length ns <= length positions)%nat.
Proof.
  intros Hc.
  destruct (build_shape positions g Hc) as (g' & Hrun & Hsize & Hmem & _ & _ & Hnd).
  destruct (get_neighbors_spec g' q radius) as (ns & Hq & Hns); [by rewrite Hsize|].
  exists g', ns. split; [done|]. split; [done|].
  assert (NoDup ns) as Hnodup.
  { apply (get_neighbors_NoDup g' q radius); [by rewrite Hsize | done | | done].
    intros c c' x Hx Hx'.
    apply Hmem in Hx as (p & Hp & <-). apply Hmem in Hx' as (p' & Hp' & <-).
    congruence. }
  assert (forall j, j ∈ ns -> (j < length positions)%nat) as Hlive.
  { intros j Hj. apply Hns in Hj as (di & dj & dk & _ & _ & _ & Hj).
    apply Hmem in Hj as (p & Hp & _). by apply lookup_lt_Some in Hp. }
  split; [done|]. split; [done|]. split.
  - unfold SpatialHashGrid.get_neighbor_count. by rewrite Hq.
  - assert (length ns <= length (seq 0 (length positions)))%nat as Hle.
    { apply submseteq_length, NoDup_submseteq; [done|].
      intros j Hj. apply elem_of_seq. apply Hlive in Hj. lia. }
    by rewrite length_seq in Hle.
Qed.

Lemma neighbor_count_bounded_witness :
  exists g' ns,
    SpatialHashGrid.build sample_positions (SpatialHashGrid.init 0.1) = (Ok tt, g') /\
    SpatialHashGrid.get_neighbors g' (0.05, 0.05, 0.05) 0.1 = Ok ns /\
    NoDup ns /\
    (forall j, j ∈ ns -> (j < length sample_positions)%nat) /\
    SpatialHashGrid.get_neighbor_count g' (0.05, 0.05, 0.05) 0.1 = Ok (length ns) /\
    (length ns <= length sample_positions)%nat.
Proof.
  apply (neighbor_count_bounded (SpatialHashGrid.init 0.1) sample_positions).
  simpl. lra.
Defined.

(** [mapM] in the exception monad over a function that never raises. *)
Lemma mapM_result_ok {A B} (f : A -> result B) (l : list A) :
  (forall x, x ∈ l -> exists y, f x = Ok y) ->
  exists ys, mapM f l = Ok ys /\ length ys = length l /\
    forall i x, l !! i = Some x -> exists y, ys !! i = Some y /\ f x = Ok y.
Proof.
  induction l as [|x l IH]; intros Hf; simpl.
  - exists []. split; [done|]. split; [done|]. intros i x Hx. done.
  - destruct (Hf x) as (y & Hy); [by left|].
    destruct IH as (ys & Hys & Hlen & Hall); [intros x' Hx'; apply Hf; by right|].
    exists (y :: ys). unfold mbind, result_bind. rewrite Hy.
    change (mapM f l) with (mapM f l). rewrite Hys. unfold mret, result_ret.
    split; [done|]. split; [simpl; lia|].
    intros [|i] x' Hx'; simpl in *.
    + injection Hx' as <-. by exists y.
    + by apply Hall.
Qed.

Lemma offsets_opp (d : Z) :
  d ∈ SpatialHashGrid.offsets -> (- d)%Z ∈ SpatialHashGrid.offsets.
Proof.
  unfold SpatialHashGrid.offsets. rewrite !elem_of_cons, !elem_of_nil.
  intros [->|[->|[->|[]]]]; simpl; tauto.
Qed.

Lemma offsets_zero : 0%Z ∈ SpatialHashGrid.offsets.
Proof. unfold SpatialHashGrid.offsets. rewrite !elem_of_cons. tauto. Qed.

(** X7. Candidate lists of a rebuilt grid.  On the grid built from
    [positions], [get_all_neighbors positions] returns one list per
    position; the list of particle [i] contains [i] itself, and
    candidacy is symmetric: if [j] is in the list of [i] then [i] is in
    the list of [j]. *)
Theorem all_neighbors_symmetric (g : SpatialHashGrid) (positions : list vec3)
    (radius : R) :
  cell_size g <> 0 ->
  exists g' nss,
    SpatialHashGrid.build positions g = (Ok tt, g') /\
    SpatialHashGrid.get_all_neighbors g' positions radius = Ok nss /\
    length nss = length positions /\
    (forall i ns_i, nss !! i = Some ns_i -> i ∈ ns_i) /\
    (forall i j ns_i ns_j, nss !! i = Some ns_i -> nss !! j = Some ns_j ->
       j ∈ ns_i -> i ∈ ns_j).
Proof.
  intros Hc.
  destruct (build_shape positions g Hc) as (g' & Hrun & Hsize & Hmem & _).
  assert (cell_size g' <> 0) as Hc' by (by rewrite Hsize).
  destruct (mapM_result_ok (fun pos => SpatialHashGrid.get_neighbors g' pos radius) positions)
    as (nss & Hall & Hlen & Hrows).
  { intros q _. destruct (get_neighbors_spec g' q radius Hc') as (ns & Hq & _). by exists ns. }
  exists g', nss. split; [done|]. split; [done|]. split; [done|].
  assert (forall i ns_i, nss !! i = Some ns_i ->
    exists p_i, positions !! i = Some p_i /\
      forall x, x ∈ ns_i <->
        exists di dj dk, di ∈ SpatialHashGrid.offsets /\ dj ∈ SpatialHashGrid.offsets /\
          dk ∈ SpatialHashGrid.offsets /\
          exists p, positions !! x = Some p /\
            cell_of (cell_size g) p
            = ((cell_of (cell_size g) p_i).1.1 + di, (cell_of (cell_size g) p_i).1.2 + dj,
               (cell_of (cell_size g) p_i).2 + dk)%Z) as Hchar.
  { intros i ns_i Hi.
    destruct (lookup_lt_is_Some_2 positions i) as [p_i Hp_i].
    { rewrite <- Hlen. by apply lookup_lt_Some in Hi. }
    exists p_i. split; [done|].
    destruct (Hrows i p_i Hp_i) as (ns & Hns & Hq). 
    assert (ns = ns_i) as -> by congruence.
    destruct (get_neighbors_spec g' p_i radius Hc') as (ns' & Hq' & Hspec).
    assert (ns' = ns_i) as -> by congruence.
    intros x. rewrite Hspec. rewrite Hsize.
    split; intros (di & dj & dk & Hdi & Hdj & Hdk & Hx); exists di, dj, dk;
      (split; [done|]); (split; [done|]); (split; [done|]); by apply Hmem. }
  split.
  - intros i ns_i Hi. destruct (Hchar i ns_i Hi) as (p_i & Hp_i & Hx).
    apply Hx. exists 0%Z, 0%Z, 0%Z. repeat (split; [apply offsets_zero|]).
    exists p_i. split; [done|].
    generalize (cell_of (cell_size g) p_i). intros [[a b] c]. simpl.
    f_equal; [f_equal|]; lia.
  - intros i j ns_i ns_j Hi Hj Hji.
    destruct (Hchar i ns_i Hi) as (p_i & Hp_i & Hxi).
    destruct (Hchar j ns_j Hj) as (p_j & Hp_j & Hxj).
    destruct (proj1 (Hxi j) Hji) as (di & dj & dk & Hdi & Hdj & Hdk & p & Hp & Hcell).
    assert (p = p_j) as -> by congruence.
    apply Hxj. exists (- di)%Z, (- dj)%Z, (- dk)%Z.
    repeat (split; [by apply offsets_opp|]).
    exists p_i. split; [done|]. rewrite Hcell.
    generalize (cell_of (cell_size g) p_i). intros [[a b] c]. simpl.
    f_equal; [f_equal|]; lia.
Qed.

Lemma all_neighbors_symmetric_witness :
  exists g' nss,
    SpatialHashGrid.build sample_positions (SpatialHashGrid.init 0.1) = (Ok tt, g') /\
    SpatialHashGrid.get_all_neighbors g' sample_positions 0.1 = Ok nss /\
    length nss = length sample_positions /\
    (forall i ns_i, nss !! i = Some ns_i -> i ∈ ns_i) /\
    (forall i j ns_i ns_j, nss !! i = Some ns_i -> nss !! j = Some ns_j ->
       j ∈ ns_i -> i ∈ ns_j).
Proof.
  apply (all_neighbors_symmetric (SpatialHashGrid.init 0.1) sample_positions).
  simpl. lra.
Defined.

(** Two reals whose floors differ by at most one are less than two apart. *)
Lemma Int_part_offsets_close (x y : R) (d : Z) :
  d ∈ SpatialHashGrid.offsets -> Int_part x = (Int_part y + d)%Z -> Rabs (x - y) < 2.
Proof.
  intros Hd Hxy.
  destruct (base_Int_part x) as [Hx1 Hx2], (base_Int_part y) as [Hy1 Hy2].
  rewrite Hxy, plus_IZR in Hx1, Hx2.
  assert (-1 <= IZR d <= 1) as Hrange.
  { unfold SpatialHashGrid.offsets in Hd. rewrite !elem_of_cons, elem_of_nil in Hd.
    destruct Hd as [->|[->|[->|[]]]]; lra. }
  apply Rabs_def1; lra.
Qed.

Lemma axis_within_two_cells (c p q : R) (d : Z) :
  c <> 0 -> d ∈ SpatialHashGrid.offsets ->
  Int_part (p / c) = (Int_part (q / c) + d)%Z ->
  Rabs (p - q) < 2 * Rabs c.
Proof.
  intros Hc Hd Hpq.
  pose proof (Int_part_offsets_close _ _ _ Hd Hpq) as Hclose.
  replace (p - q) with ((p / c - q / c) * c) by (field; done).
  rewrite Rabs_mult. apply Rmult_lt_compat_r; [by apply Rabs_pos_lt | done].
Qed.

(** X8. A query returns nearby particles only.  On the grid built from
    [positions], every index returned by [get_neighbors] at [q] belongs
    to a position less than two cell sides away from [q] along each
    axis. *)
Theorem candidates_within_two_cells (g : SpatialHashGrid) (positions : list vec3)
    (q : vec3) (radius : R) :
  cell_size g <> 0 ->
  exists g' ns,
    SpatialHashGrid.build positions g = (Ok tt, g') /\
    SpatialHashGrid.get_neighbors g' q radius = Ok ns /\
    forall j p, j ∈ ns -> positions !! j = Some p ->
      Rabs (p.1.1 - q.1.1) < 2 * Rabs (cell_size g) /\
      Rabs (p.1.2 - q.1.2) < 2 * Rabs (cell_size g) /\
      Rabs (p.2 - q.2) < 2 * Rabs (cell_size g).
Proof.
  intros Hc.
  destruct (build_spec positions g Hc) as (g' & Hrun & Hsize & Hmem).
  destruct (get_neighbors_spec g' q radius) as (ns & Hq & Hns); [by rewrite Hsize|].
  exists g', ns. split; [done|]. split; [done|].
  intros j p Hj Hp.
  apply Hns in Hj as (di & dj & dk & Hdi & Hdj & Hdk & Hj).
  apply Hmem in Hj as (p' & Hp' & Hcell).
  assert (p' = p) as -> by congruence.
  rewrite Hsize in Hcell.
  destruct p as [[px p_y] pz], q as [[qx qy] qz].
  cbn [cell_of fst snd] in *. injection Hcell as Hx Hy Hz.
  split; [|split].
  - by apply (axis_within_two_cells _ _ _ di).
  - by apply (axis_within_two_cells _ _ _ dj).
  - by apply (axis_within_two_cells _ _ _ dk).
Qed.

Lemma candidates_within_two_cells_witness :
  exists g' ns,
    SpatialHashGrid.build sample_positions (SpatialHashGrid.init 0.1) = (Ok tt, g') /\
    SpatialHashGrid.get_neighbors g' (0.05, 0.05, 0.05) 0.1 = Ok ns /\
    forall j p, j ∈ ns -> sample_positions !! j = Some p ->
      Rabs (p.1.1 - 0.05) < 2 * Rabs (cell_size (SpatialHashGrid.init 0.1)) /\
      Rabs (p.1.2 - 0.05) < 2 * Rabs (cell_size (SpatialHashGrid.init 0.1)) /\
      Rabs (p.2 - 0.05) < 2 * Rabs (cell_size (SpatialHashGrid.init 0.1)).
Proof.
  apply (candidates_within_two_cells (SpatialHashGrid.init 0.1) sample_positions
           (0.05, 0.05, 0.05) 0.1).
  simpl. lra.
Defined.

(* ------------------------------------------------------------------ *)
(** ** Kernels: values, symmetry and errors *)

Lemma norm_nonneg (r : vec3) : 0 <= norm r.
Proof. destruct r as [[x y] z]. apply sqrt_pos. Qed.

Lemma norm_vscale (c : R) (r : vec3) : norm (vscale c r) = Rabs c * norm r.
Proof.
  destruct r as [[x y] z]. unfold norm, vscale.
  replace (c * x * (c * x) + c * y * (c * y) + c * z * (c * z))
    with (Rsqr c * (x * x + y * y + z * z)) by (unfold Rsqr; ring).
  rewrite sqrt_mult_alt by apply Rle_0_sqr.
  by rewrite sqrt_Rsqr_abs.
Qed.

Lemma norm_opp (r : vec3) : norm (vscale (-1) r) = norm r.
Proof.
  rewrite norm_vscale. replace (Rabs (-1)) with 1; [lra|].
  unfold Rabs. destruct (Rcase_abs (-1)); lra.
Qed.

Lemma poly6_coef_pos (c : R) : 0 < c -> 0 < 64 * PI * c ^ 9.
Proof. intros Hc. pose proof PI_RGT_0. pose proof (pow_lt c 9 Hc). nra. Qed.

Lemma visc_coef_pos (c : R) : 0 < c -> 0 < PI * c ^ 6.
Proof. intros Hc. pose proof PI_RGT_0. pose proof (pow_lt c 6 Hc). nra. Qed.

(** The Poly6 kernel inside its support. *)
Lemma poly6_inside (r : vec3) (c : R) :
  0 < c -> norm r <= c ->
  SPHKernel.poly6 r c = Ok (315 / (64 * PI * c ^ 9) * (c ^ 2 - norm r ^ 2) ^ 3).
Proof.
  intros Hc Hr. unfold SPHKernel.poly6. rewrite decide_False by lra.
  unfold py_div. pose proof (poly6_coef_pos c Hc). by rewrite decide_False by lra.
Qed.

Lemma viscosity_laplacian_inside (r : vec3) (c : R) :
  0 < c -> norm r <= c ->
  SPHKernel.viscosity_laplacian r c = Ok (45 / (PI * c ^ 6) * (c - norm r)).
Proof.
  intros Hc Hr. unfold SPHKernel.viscosity_laplacian. rewrite decide_False by lra.
  unfold py_div. pose proof (visc_coef_pos c Hc). by rewrite decide_False by lra.
Qed.

Lemma cube_le (a b : R) : 0 <= a <= b -> a ^ 3 <= b ^ 3.
Proof. intros Hab. apply pow_incr. lra. Qed.

(** X10. Values of the scalar kernels.  For a smoothing length [h > 0]
    the Poly6 kernel and the viscosity Laplacian return a value for
    every displacement; the values lie between 0 and the value at the
    centre, [315 / (64 pi h^3)] and [45 / (pi h^5)], which is taken at
    [|r| = 0], and they are 0 from [|r| = h] on, the edge of the support
    included. *)
Theorem kernel_values_bounded (r : vec3) (h : R) :
  0 < h ->
  exists w l,
    SPHKernel.poly6 r h = Ok w /\
    SPHKernel.viscosity_laplacian r h = Ok l /\
    0 <= w <= 315 / (64 * PI * h ^ 3) /\
    0 <= l <= 45 / (PI * h ^ 5) /\
    (norm r >= h -> w = 0 /\ l = 0) /\
    (norm r = 0 -> w = 315 / (64 * PI * h ^ 3) /\ l = 45 / (PI * h ^ 5)).
Proof.
  intros Hh. pose proof (norm_nonneg r) as Hn.
  pose proof PI_RGT_0 as Hpi.
  pose proof (poly6_coef_pos h Hh) as Hc9. pose proof (visc_coef_pos h Hh) as Hc6.
  assert (0 < h ^ 3) as Hh3 by (by apply pow_lt).
  assert (0 < h ^ 5) as Hh5 by (by apply pow_lt).
  assert (0 < 315 / (64 * PI * h ^ 3)) as Hw0.
  { apply Rdiv_lt_0_compat; [lra | nra]. }
  assert (0 < 45 / (PI * h ^ 5)) as Hl0.
  { apply Rdiv_lt_0_compat; [lra | nra]. }
  destruct (Rle_or_lt (norm r) h) as [Hin|Hout].
  - rewrite poly6_inside, viscosity_laplacian_inside by done.
    eexists _, _. split; [reflexivity|]. split; [reflexivity|].
    assert (0 <= h ^ 2 - norm r ^ 2 <= h ^ 2) as Hd by nra.
    assert (0 <= (h ^ 2 - norm r ^ 2) ^ 3 <= (h ^ 2) ^ 3) as Hd3.
    { split; [apply pow_le; lra | apply cube_le; lra]. }
    assert (315 / (64 * PI * h ^ 9) * (h ^ 2) ^ 3 = 315 / (64 * PI * h ^ 3)) as Hw.
    { field. split; lra. }
    assert (45 / (PI * h ^ 6) * h = 45 / (PI * h ^ 5)) as Hl.
    { field. split; lra. }
    assert (0 < 315 / (64 * PI * h ^ 9)) as Hk9 by (apply Rdiv_lt_0_compat; lra).
    assert (0 < 45 / (PI * h ^ 6)) as Hk6 by (apply Rdiv_lt_0_compat; lra).
    split; [|split; [|split]].
    + rewrite <- Hw. split; [apply Rmult_le_pos; lra|].
      apply Rmult_le_compat_l; lra.
    + rewrite <- Hl. split; [apply Rmult_le_pos; lra|].
      apply Rmult_le_compat_l; lra.
    + intros Hge. assert (norm r = h) as -> by lra. split; ring.
    + intros ->. rewrite <- Hw, <- Hl. split; ring.
  - rewrite poly6_outside, viscosity_laplacian_outside by lra.
    exists 0, 0. repeat split; try lra. 
Qed.

Lemma kernel_values_bounded_witness :
  exists w l,
    SPHKernel.poly6 (0.05, 0, 0) 0.1 = Ok w /\
    SPHKernel.viscosity_laplacian (0.05, 0, 0) 0.1 = Ok l /\
    0 <= w <= 315 / (64 * PI * 0.1 ^ 3) /\
    0 <= l <= 45 / (PI * 0.1 ^ 5) /\
    (norm (0.05, 0, 0) >= 0.1 -> w = 0 /\ l = 0) /\
    (norm (0.05, 0, 0) = 0 -> w = 315 / (64 * PI * 0.1 ^ 3) /\ l = 45 / (PI * 0.1 ^ 5)).
Proof. apply (kernel_values_bounded (0.05, 0, 0) 0.1). lra. Defined.

(** X11. Closer neighbours weigh more.  For a smoothing length [h > 0]
    the Poly6 kernel and the viscosity Laplacian do not increase with
    the distance: if [|r1| <= |r2|] then the value at [r2] is at most
    the value at [r1]. *)
Theorem kernels_decrease_with_distance (r1 r2 : vec3) (h : R) :
  0 < h -> norm r1 <= norm r2 ->
  exists w1 w2 l1 l2,
    SPHKernel.poly6 r1 h = Ok w1 /\ SPHKernel.poly6 r2 h = Ok w2 /\
    SPHKernel.viscosity_laplacian r1 h = Ok l1 /\
    SPHKernel.viscosity_laplacian r2 h = Ok l2 /\
    w2 <= w1 /\ l2 <= l1.
Proof.
  intros Hh H12. pose proof (norm_nonneg r1) as Hn1.
  pose proof (poly6_coef_pos h Hh) as Hc9. pose proof (visc_coef_pos h Hh) as Hc6.
  assert (0 < 315 / (64 * PI * h ^ 9)) as Hk9 by (apply Rdiv_lt_0_compat; lra).
  assert (0 < 45 / (PI * h ^ 6)) as Hk6 by (apply Rdiv_lt_0_compat; lra).
  destruct (Rle_or_lt (norm r2) h) as [Hin2|Hout2].
  - rewrite !poly6_inside, !viscosity_laplacian_inside by lra.
    eexists _, _, _, _. repeat (split; [reflexivity|]). split.
    + apply Rmult_le_compat_l; [lra|]. apply cube_le. nra.
    + apply Rmult_le_compat_l; lra.
  - rewrite (poly6_outside r2), (viscosity_laplacian_outside r2) by lra.
    destruct (Rle_or_lt (norm r1) h) as [Hin1|Hout1].
    + rewrite !poly6_inside, !viscosity_laplacian_inside by lra.
      eexists _, _, _, _. repeat (split; [reflexivity|]). split.
      * apply Rmult_le_pos; [lra|]. apply pow_le. nra.
      * apply Rmult_le_pos; lra.
    + rewrite poly6_outside, viscosity_laplacian_outside by lra.
      exists 0, 0, 0, 0. repeat split; lra.
Qed.

Lemma kernels_decrease_with_distance_witness :
  exists w1 w2 l1 l2,
    SPHKernel.poly6 (0, 0, 0) 0.1 = Ok w1 /\ SPHKernel.poly6 (0.05, 0, 0) 0.1 = Ok w2 /\
    SPHKernel.viscosity_laplacian (0, 0, 0) 0.1 = Ok l1 /\
    SPHKernel.viscosity_laplacian (0.05, 0, 0) 0.1 = Ok l2 /\
    w2 <= w1 /\ l2 <= l1.
Proof.
  apply (kernels_decrease_with_distance (0, 0, 0) (0.05, 0, 0) 0.1); [lra|].
  rewrite !norm_along_x; lra.
Defined.

(** The gradient kernels inside their support, away from the centre. *)
Lemma spiky_gradient_inside (r : vec3) (c : R) :
  1e-6 <= norm r <= c ->
  SPHKernel.spiky_gradient r c
  = Ok ((-45 / (PI * c ^ 6) * (c - norm r) ^ 2 * r.1.1) / norm r,
        (-45 / (PI * c ^ 6) * (c - norm r) ^ 2 * r.1.2) / norm r,
        (-45 / (PI * c ^ 6) * (c - norm r) ^ 2 * r.2) / norm r).
Proof.
  intros Hr. unfold SPHKernel.spiky_gradient.
  rewrite decide_False by lra.
  pose proof (visc_coef_pos c ltac:(lra)).
  unfold py_div. rewrite decide_False by lra. unfold mbind, result_bind.
  rewrite np_vdiv_ok by lra. by destruct r as [[x y] z].
Qed.

Lemma poly6_gradient_inside (r : vec3) (c : R) :
  1e-6 <= norm r <= c ->
  SPHKernel.poly6_gradient r c
  = Ok (vscale (-945 / (32 * PI * c ^ 9) * (c ^ 2 - norm r ^ 2) ^ 2) r).
Proof.
  intros Hr. unfold SPHKernel.poly6_gradient.
  rewrite decide_False by lra.
  assert (0 < 32 * PI * c ^ 9).
  { pose proof PI_RGT_0. pose proof (pow_lt c 9 ltac:(lra)). nra. }
  unfold py_div. by rewrite decide_False by lra.
Qed.

Lemma gradient_outside (r : vec3) (c : R) :
  ~ (1e-6 <= norm r <= c) ->
  SPHKernel.spiky_gradient r c = Ok vzero /\ SPHKernel.poly6_gradient r c = Ok vzero.
Proof.
  intros Hr. unfold SPHKernel.spiky_gradient, SPHKernel.poly6_gradient.
  rewrite !decide_True; [done| |];
    destruct (Rle_or_lt (norm r) c), (Rle_or_lt 1e-6 (norm r)); lra || tauto.
Qed.

(** X12. The kernels are symmetric.  Poly6 and the viscosity Laplacian
    depend on the distance only: they take the same value at [-r] as at
    [r], the value of the scalar branch at [|r|].  The two gradient
    kernels never raise and are odd: the gradient at [-r] is the
    opposite of the gradient at [r]. *)
Theorem kernels_symmetric (r : vec3) (h : R) :
  SPHKernel.poly6 (vscale (-1) r) h = SPHKernel.poly6 r h /\
  SPHKernel.viscosity_laplacian (vscale (-1) r) h = SPHKernel.viscosity_laplacian r h /\
  SPHKernel.poly6 r h = SPHKernel.poly6_scalar (norm r) h /\
  SPHKernel.viscosity_laplacian r h = SPHKernel.viscosity_laplacian_scalar (norm r) h /\
  (exists g, SPHKernel.spiky_gradient r h = Ok g /\
             SPHKernel.spiky_gradient (vscale (-1) r) h = Ok (vscale (-1) g)) /\
  (exists g, SPHKernel.poly6_gradient r h = Ok g /\
             SPHKernel.poly6_gradient (vscale (-1) r) h = Ok (vscale (-1) g)).
Proof.
  pose proof (norm_nonneg r) as Hn.
  split; [|split; [|split; [|split; [|split]]]].
  - unfold SPHKernel.poly6. by rewrite norm_opp.
  - unfold SPHKernel.viscosity_laplacian. by rewrite norm_opp.
  - unfold SPHKernel.poly6, SPHKernel.poly6_scalar. by rewrite Rabs_pos_eq.
  - unfold SPHKernel.viscosity_laplacian, SPHKernel.viscosity_laplacian_scalar.
    by rewrite Rabs_pos_eq.
  - destruct (decide (1e-6 <= norm r <= h)) as [Hin|Hout].
    + rewrite !spiky_gradient_inside by (by rewrite ?norm_opp).
      eexists. split; [reflexivity|]. rewrite norm_opp.
      pose proof PI_neq0. assert (h <> 0) by lra. assert (norm r <> 0) by lra.
      destruct r as [[x y] z]. cbn [vscale fst snd]. f_equal.
      apply vec3_eq; cbn [fst snd]; field; done.
    + destruct (gradient_outside r h Hout) as [-> _].
      destruct (gradient_outside (vscale (-1) r) h) as [-> _]; [by rewrite norm_opp|].
      exists vzero. split; [done|]. f_equal. apply vec3_eq; simpl; ring.
  - destruct (decide (1e-6 <= norm r <= h)) as [Hin|Hout].
    + rewrite !poly6_gradient_inside by (by rewrite ?norm_opp).
      eexists. split; [reflexivity|]. rewrite norm_opp.
      destruct r as [[x y] z]. cbn [vscale fst snd]. f_equal.
      apply vec3_eq; cbn [fst snd]; ring.
    + destruct (gradient_outside r h Hout) as [_ ->].
      destruct (gradient_outside (vscale (-1) r) h) as [_ ->]; [by rewrite norm_opp|].
      exists vzero. split; [done|]. f_equal. apply vec3_eq; simpl; ring.
Qed.

(** X13. The Spiky gradient inside the support.  For [h > 0] and a
    displacement with [1e-6 <= |r| <= h] the gradient is [r] scaled by a
    factor [-k] with [k >= 0], so it points against [r], and its length
    is [45 / (pi h^6) * (h - |r|)^2]. *)
Theorem spiky_gradient_points_inward (r : vec3) (h : R) :
  1e-6 <= norm r <= h ->
  exists k g,
    0 <= k /\
    SPHKernel.spiky_gradient r h = Ok g /\
    g = vscale (- k) r /\
    norm g = 45 / (PI * h ^ 6) * (h - norm r) ^ 2.
Proof.
  intros Hr. pose proof (visc_coef_pos h ltac:(lra)) as Hc6.
  assert (0 <= 45 / (PI * h ^ 6) * (h - norm r) ^ 2) as Hlen.
  { apply Rmult_le_pos; [left; apply Rdiv_lt_0_compat; lra | apply pow2_ge_0]. }
  set (k := 45 / (PI * h ^ 6) * (h - norm r) ^ 2 / norm r).
  assert (0 <= k) as Hk.
  { unfold k. apply Rmult_le_pos; [done|]. left. apply Rinv_0_lt_compat. lra. }
  exists k, (vscale (- k) r). split; [done|]. split; [|split; [done|]].
  - rewrite spiky_gradient_inside by done. f_equal.
    pose proof PI_neq0. assert (h <> 0) by lra. assert (norm r <> 0) by lra.
    destruct r as [[x y] z]. unfold k. cbn [vscale fst snd].
    apply vec3_eq; cbn [fst snd]; field; done.
  - rewrite norm_vscale, Rabs_Ropp, Rabs_pos_eq by done.
    pose proof PI_neq0. assert (h <> 0) by lra. assert (norm r <> 0) by lra.
    unfold k. field. done.
Qed.

Lemma spiky_gradient_points_inward_witness :
  exists k g,
    0 <= k /\
    SPHKernel.spiky_gradient (0.05, 0, 0) 0.1 = Ok g /\
    g = vscale (- k) (0.05, 0, 0) /\
    norm g = 45 / (PI * 0.1 ^ 6) * (0.1 - norm (0.05, 0, 0)) ^ 2.
Proof.
  apply (spiky_gradient_points_inward (0.05, 0, 0) 0.1).
  rewrite norm_along_x; lra.
Defined.

(** X14. The kernels at a non-positive smoothing length.  A negative
    [h] is accepted silently: every displacement is then outside the
    support, and the four kernels return zero.  With [h = 0] the two
    gradient kernels return the zero vector for every displacement, and
    the two value kernels raise [ZeroDivisionError] at the displacement
    [(0, 0, 0)], where they divide by a power of [h]. *)
Theorem kernels_at_non_positive_smoothing_length (r : vec3) (h : R) :
  (h < 0 ->
     SPHKernel.poly6 r h = Ok 0 /\
     SPHKernel.viscosity_laplacian r h = Ok 0 /\
     SPHKernel.spiky_gradient r h = Ok vzero /\
     SPHKernel.poly6_gradient r h = Ok vzero) /\
  (h = 0 ->
     SPHKernel.spiky_gradient r h = Ok vzero /\
     SPHKernel.poly6_gradient r h = Ok vzero /\
     (r = (0, 0, 0) ->
        SPHKernel.poly6 r h = Raise ZeroDivisionError /\
        SPHKernel.viscosity_laplacian r h = Raise ZeroDivisionError)).
Proof.
  pose proof (norm_nonneg r) as Hn. split.
  - intros Hh. rewrite poly6_outside, viscosity_laplacian_outside by lra.
    split; [done|]. split; [done|]. apply gradient_outside. lra.
  - intros ->. destruct (gradient_outside r 0) as [-> ->]; [lra|].
    split; [done|]. split; [done|]. intros ->.
    assert (norm (0, 0, 0) = 0) as Hzero by (rewrite norm_along_x; lra).
    unfold SPHKernel.poly6, SPHKernel.viscosity_laplacian.
    rewrite !decide_False by lra. unfold py_div.
    rewrite !decide_True by ring. done.
Qed.

Lemma kernels_at_non_positive_smoothing_length_witness :
  (SPHKernel.poly6 (0.05, 0, 0) (-0.1) = Ok 0 /\
   SPHKernel.viscosity_laplacian (0.05, 0, 0) (-0.1) = Ok 0 /\
   SPHKernel.spiky_gradient (0.05, 0, 0) (-0.1) = Ok vzero /\
   SPHKernel.poly6_gradient (0.05, 0, 0) (-0.1) = Ok vzero) /\
  (SPHKernel.spiky_gradient (0, 0, 0) 0 = Ok vzero /\
   SPHKernel.poly6_gradient (0, 0, 0) 0 = Ok vzero /\
   ((0, 0, 0) = (0, 0, 0) ->
      SPHKernel.poly6 (0, 0, 0) 0 = Raise ZeroDivisionError /\
      SPHKernel.viscosity_laplacian (0, 0, 0) 0 = Raise ZeroDivisionError)).
Proof.
  split.
  - apply (kernels_at_non_positive_smoothing_length (0.05, 0, 0) (-0.1)). lra.
  - by apply (kernels_at_non_positive_smoothing_length (0, 0, 0) 0).
Defined.

(* ------------------------------------------------------------------ *)
(** ** Vectorized kernels *)

Lemma select_map {A B} (b : A -> bool) (g : A -> B) (l : list A) :
  select (map b l) (map g l) = map g (List.filter b l).
Proof.
  induction l as [|x l IH]; simpl; [done|].
  destruct (b x); simpl; by rewrite IH.
Qed.

Lemma select_filter {A} (b : A -> bool) (l : list A) :
  select (map b l) l = List.filter b l.
Proof.
  induction l as [|x l IH]; simpl; [done|].
  destruct (b x); simpl; by rewrite IH.
Qed.

(** Writing [f] of the selected rows back under the same mask leaves
    [f x] in the selected rows and the old content in the others. *)
Lemma assign_mask_filter {A B} (b : A -> bool) (f : A -> B) (z : B) (l : list A) :
  assign_mask (map b l) (replicate (length l) z) (map f (List.filter b l))
  = Ok (map (fun x => if b x then f x else z) l).
Proof.
  induction l as [|x l IH]; simpl; [done|].
  destruct (b x); simpl; rewrite IH; done.
Qed.

Lemma mapM_result_map {A B} (f : A -> result B) (g : A -> B) (l : list A) :
  (forall x, x ∈ l -> f x = Ok (g x)) -> mapM f l = Ok (map g l).
Proof.
  induction l as [|x l IH]; intros Hf; simpl; [done|].
  rewrite (Hf x) by (by left). unfold mbind, result_bind.
  change (mapM f l) with (mapM f l).
  rewrite IH by (intros x' Hx'; apply Hf; by right). done.
Qed.

Lemma poly6_cases (r : vec3) (c : R) :
  c <> 0 ->
  SPHKernel.poly6 r c
  = Ok (if bool_decide (norm r <= c)
        then 315 / (64 * PI * c ^ 9) * (c ^ 2 - norm r ^ 2) ^ 3 else 0).
Proof.
  intros Hc. unfold SPHKernel.poly6. case_bool_decide as Hr.
  - rewrite decide_False by lra. unfold py_div. rewrite decide_False; [done|].
    pose proof PI_neq0. pose proof (pow_nonzero c 9 Hc).
    apply Rmult_integral_contrapositive_currified; [|done].
    apply Rmult_integral_contrapositive_currified; [lra | done].
  - by rewrite decide_True by lra.
Qed.

Lemma viscosity_laplacian_cases (r : vec3) (c : R) :
  c <> 0 ->
  SPHKernel.viscosity_laplacian r c
  = Ok (if bool_decide (norm r <= c) then 45 / (PI * c ^ 6) * (c - norm r) else 0).
Proof.
  intros Hc. unfold SPHKernel.viscosity_laplacian. case_bool_decide as Hr.
  - rewrite decide_False by lra. unfold py_div. rewrite decide_False; [done|].
    pose proof PI_neq0. pose proof (pow_nonzero c 6 Hc).
    by apply Rmult_integral_contrapositive_currified.
  - by rewrite decide_True by lra.
Qed.

(** X15. The vectorized value kernels.  For [h <> 0],
    [poly6_vectorized] and [viscosity_laplacian_vectorized] return, row
    by row, what the scalar kernels return.  For [h = 0] they raise
    [ZeroDivisionError] on every input, an empty array and rows outside
    the support included, because the coefficient is computed first. *)
Theorem vectorized_value_kernels (r_vectors : list vec3) (h : R) :
  (h <> 0 ->
     VectorizedKernels.poly6_vectorized r_vectors h
       = mapM (fun r => SPHKernel.poly6 r h) r_vectors /\
     VectorizedKernels.viscosity_laplacian_vectorized r_vectors h
       = mapM (fun r => SPHKernel.viscosity_laplacian r h) r_vectors) /\
  (h = 0 ->
     VectorizedKernels.poly6_vectorized r_vectors h = Raise ZeroDivisionError /\
     VectorizedKernels.viscosity_laplacian_vectorized r_vectors h
       = Raise ZeroDivisionError).
Proof.
  split.
  - intros Hh. pose proof PI_neq0 as Hpi. split.
    + rewrite (mapM_result_map _ _ _ (fun r _ => poly6_cases r h Hh)).
      unfold VectorizedKernels.poly6_vectorized, py_div.
      rewrite decide_False.
      2:{ pose proof (pow_nonzero h 9 Hh).
          apply Rmult_integral_contrapositive_currified; [|done].
          apply Rmult_integral_contrapositive_currified; [lra | done]. }
      unfold mbind, result_bind. cbv zeta.
      rewrite select_filter.
      rewrite (assign_mask_filter (fun n => bool_decide (n <= h))
                 (fun n => 315 / (64 * PI * h ^ 9) * (h ^ 2 - n ^ 2) ^ 3) 0 (map norm r_vectors)).
      by rewrite map_map.
    + rewrite (mapM_result_map _ _ _ (fun r _ => viscosity_laplacian_cases r h Hh)).
      unfold VectorizedKernels.viscosity_laplacian_vectorized, py_div.
      rewrite decide_False.
      2:{ pose proof (pow_nonzero h 6 Hh).
          by apply Rmult_integral_contrapositive_currified. }
      unfold mbind, result_bind. cbv zeta.
      rewrite select_filter.
      rewrite (assign_mask_filter (fun n => bool_decide (n <= h))
                 (fun n => 45 / (PI * h ^ 6) * (h - n)) 0 (map norm r_vectors)).
      by rewrite map_map.
  - intros ->. unfold VectorizedKernels.poly6_vectorized,
      VectorizedKernels.viscosity_laplacian_vectorized, py_div.
    rewrite !decide_True by ring. done.
Qed.

Lemma vectorized_value_kernels_witness :
  (VectorizedKernels.poly6_vectorized [(0, 0, 0); (0.05, 0, 0); (0.15, 0, 0)] 0.1
     = mapM (fun r => SPHKernel.poly6 r 0.1) [(0, 0, 0); (0.05, 0, 0); (0.15, 0, 0)] /\
   VectorizedKernels.viscosity_laplacian_vectorized
       [(0, 0, 0); (0.05, 0, 0); (0.15, 0, 0)] 0.1
     = mapM (fun r => SPHKernel.viscosity_laplacian r 0.1)
         [(0, 0, 0); (0.05, 0, 0); (0.15, 0, 0)]) /\
  (VectorizedKernels.poly6_vectorized [] 0 = Raise ZeroDivisionError /\
   VectorizedKernels.viscosity_laplacian_vectorized [] 0 = Raise ZeroDivisionError).
Proof.
  split.
  - apply (vectorized_value_kernels [(0, 0, 0); (0.05, 0, 0); (0.15, 0, 0)] 0.1). lra.
  - apply (vectorized_value_kernels [] 0). done.
Defined.

(** A row inside the support of the vectorized Spiky gradient:
    [1e-6 < |r| <= h]. *)
Definition in_spiky_support (h : R) (r : vec3) : bool :=
  bool_decide (norm r <= h) && bool_decide (norm r > 1e-6).

Lemma in_spiky_support_range (h : R) (r : vec3) :
  in_spiky_support h r = true <-> 1e-6 < norm r <= h.
Proof.
  unfold in_spiky_support. rewrite andb_true_iff, !bool_decide_eq_true. lra.
Qed.

Lemma spiky_mask (h : R) (r_vectors : list vec3) :
  map (fun n => bool_decide (n <= h) && bool_decide (n > 1e-6)) (map norm r_vectors)
  = map (in_spiky_support h) r_vectors.
Proof. by rewrite map_map. Qed.

Lemma existsb_filter {A} (b : A -> bool) (l : list A) :
  existsb (fun x : bool => x) (map b l) = negb (Nat.eqb (length (List.filter b l)) 0).
Proof.
  induction l as [|x l IH]; simpl; [done|].
  destruct (b x); simpl; done.
Qed.

Lemma spiky_coef_defined (h : R) : h <> 0 -> PI * h ^ 6 <> 0.
Proof.
  intros Hh. pose proof PI_neq0. pose proof (pow_nonzero h 6 Hh).
  by apply Rmult_integral_contrapositive_currified.
Qed.

(** X16. The vectorized Spiky gradient fails on two rows in the support.
    When exactly two rows of the input, or four or more, satisfy
    [1e-6 < |r| <= h], [spiky_gradient_vectorized] raises [ValueError]:
    the weights [coef * (h - r_norms[mask].squeeze())**2] have shape
    [(k,)], which does not broadcast against the [(k, 3)] rows. *)
Theorem spiky_gradient_vectorized_shape_error (r_vectors : list vec3) (h : R) :
  let k := length (List.filter (in_spiky_support h) r_vectors) in
  k = 2%nat \/ (4 <= k)%nat ->
  VectorizedKernels.spiky_gradient_vectorized r_vectors h = Raise ValueError.
Proof.
  intros k Hk. subst k.
  remember (List.filter (in_spiky_support h) r_vectors) as L eqn:HL.
  assert (h <> 0) as Hh.
  { destruct L as [|r l]; [simpl in Hk; lia|].
    assert (In r (List.filter (in_spiky_support h) r_vectors)) as Hin
      by (rewrite <- HL; by left).
    apply filter_In in Hin as [_ Hin]. apply in_spiky_support_range in Hin. lra. }
  unfold VectorizedKernels.spiky_gradient_vectorized, py_div.
  rewrite decide_False by (by apply spiky_coef_defined).
  unfold mbind at 1, result_bind. cbv zeta.
  rewrite spiky_mask, existsb_filter, <- HL.
  destruct (Nat.eqb_spec (length L) 0) as [H0|_]; [lia|]. simpl negb. cbv iota.
  assert (select (map (in_spiky_support h) r_vectors) (map norm r_vectors)
          = map norm (List.filter (in_spiky_support h) r_vectors)) as -> by apply select_map.
  rewrite select_filter, <- HL.
  destruct L as [|a [|b [|c [|d l]]]]; simpl in Hk; try lia; reflexivity.
Qed.

Lemma spiky_gradient_vectorized_shape_error_witness :
  VectorizedKernels.spiky_gradient_vectorized
    [(0.05, 0, 0); (0, 0.05, 0); (0.15, 0, 0)] 0.1 = Raise ValueError.
Proof.
  apply (spiky_gradient_vectorized_shape_error
           [(0.05, 0, 0); (0, 0.05, 0); (0.15, 0, 0)] 0.1).
  left. unfold in_spiky_support. simpl.
  replace (0 * 0 + 0.05 * 0.05 + 0 * 0) with (0.05 * 0.05) by lra.
  replace (0.05 * 0.05 + 0 * 0 + 0 * 0) with (0.05 * 0.05) by lra.
  replace (0.15 * 0.15 + 0 * 0 + 0 * 0) with (0.15 * 0.15) by lra.
  rewrite !sqrt_square by lra.
  rewrite !bool_decide_eq_true_2 by lra.
  rewrite (bool_decide_eq_false_2 (0.15 <= 0.1)) by lra.
  reflexivity.
Defined.

(** The Spiky gradient of a row inside the support. *)
Definition spiky_row (h : R) (r : vec3) : vec3 :=
  ((-45 / (PI * h ^ 6) * (h - norm r) ^ 2 * r.1.1) / norm r,
   (-45 / (PI * h ^ 6) * (h - norm r) ^ 2 * r.1.2) / norm r,
   (-45 / (PI * h ^ 6) * (h - norm r) ^ 2 * r.2) / norm r).

Lemma spiky_gradient_cases (r : vec3) (h : R) :
  norm r <> 1e-6 ->
  SPHKernel.spiky_gradient r h
  = Ok (if in_spiky_support h r then spiky_row h r else vzero).
Proof.
  intros Hr. destruct (in_spiky_support h r) eqn:Hin.
  - apply in_spiky_support_range in Hin. apply spiky_gradient_inside. lra.
  - apply gradient_outside. intros Hrange.
    assert (in_spiky_support h r = true) as Hin'
      by (apply in_spiky_support_range; lra).
    congruence.
Qed.

Lemma map_unselected {A B} (b : A -> bool) (f : A -> B) (z : B) (l : list A) :
  List.filter b l = [] ->
  map (fun x => if b x then f x else z) l = replicate (length l) z.
Proof.
  induction l as [|x l IH]; simpl; [done|].
  destruct (b x); [done|]. intros Hl. by rewrite IH.
Qed.

(** X17. The vectorized Spiky gradient on at most one row in the
    support.  For [h <> 0], when at most one row satisfies
    [1e-6 < |r| <= h] and no row has length exactly [1e-6],
    [spiky_gradient_vectorized] returns, row by row, what the scalar
    [spiky_gradient] returns. *)
Theorem spiky_gradient_vectorized_single_row (r_vectors : list vec3) (h : R) :
  h <> 0 ->
  (length (List.filter (in_spiky_support h) r_vectors) <= 1)%nat ->
  (forall r, r ∈ r_vectors -> norm r <> 1e-6) ->
  VectorizedKernels.spiky_gradient_vectorized r_vectors h
  = mapM (fun r => SPHKernel.spiky_gradient r h) r_vectors.
Proof.
  intros Hh Hk Hedge.
  rewrite (mapM_result_map _ _ _ (fun r Hr => spiky_gradient_cases r h (Hedge r Hr))).
  unfold VectorizedKernels.spiky_gradient_vectorized, py_div.
  rewrite decide_False by (by apply spiky_coef_defined).
  unfold mbind at 1, result_bind. cbv zeta.
  rewrite spiky_mask, existsb_filter.
  assert (select (map (in_spiky_support h) r_vectors) (map norm r_vectors)
          = map norm (List.filter (in_spiky_support h) r_vectors)) as -> by apply select_map.
  rewrite select_filter.
  destruct (List.filter (in_spiky_support h) r_vectors) as [|r0 [|r1 l]] eqn:HL;
    [| |simpl in Hk; lia].
  - simpl. by rewrite map_unselected.
  - assert (1e-6 < norm r0 <= h) as Hr0.
    { apply in_spiky_support_range.
      assert (In r0 (List.filter (in_spiky_support h) r_vectors)) as Hin
        by (rewrite HL; by left).
      by apply filter_In in Hin as [_ Hin]. }
    cbn [length Nat.eqb negb map broadcast_mul]. unfold mbind at 1, result_bind.
    cbn [zip zip_with mapM]. rewrite np_vdiv_ok by lra.
    unfold mbind, result_bind, mret, result_ret.
    match goal with |- assign_mask _ _ ?vals = _ =>
      replace vals with (map (spiky_row h) [r0]) by (by destruct r0 as [[x y] z])
    end.
    rewrite <- HL. apply assign_mask_filter.
Qed.

Lemma spiky_gradient_vectorized_single_row_witness :
  VectorizedKernels.spiky_gradient_vectorized [(0.05, 0, 0); (0.15, 0, 0)] 0.1
  = mapM (fun r => SPHKernel.spiky_gradient r 0.1) [(0.05, 0, 0); (0.15, 0, 0)].
Proof.
  assert (norm (0.05, 0, 0) = 0.05) as H1 by (rewrite norm_along_x; lra).
  assert (norm (0.15, 0, 0) = 0.15) as H2 by (rewrite norm_along_x; lra).
  apply (spiky_gradient_vectorized_single_row [(0.05, 0, 0); (0.15, 0, 0)] 0.1).
  - lra.
  - unfold in_spiky_support. cbn [List.filter]. rewrite H1, H2.
    rewrite (bool_decide_eq_false_2 (0.15 <= 0.1)) by lra. simpl.
    destruct (_ && _); simpl; lia.
  - intros r Hr. apply elem_of_cons in Hr as [->|Hr].
    + rewrite H1. lra.
    + apply list_elem_of_singleton in Hr as ->. rewrite H2. lra.
Defined.

(* ------------------------------------------------------------------ *)
(** ** Solver: what a time step leaves alone *)

(** [s'] has the particles of [s], with their masses, viscosities and
    colours, and the parameters of [s]. *)
Definition same_setup (s s' : SPHSolver) : Prop :=
  n_active s' = n_active s /\
  n_particles (particles s') = n_particles (particles s) /\
  max_particles (particles s') = max_particles (particles s) /\
  masses (particles s') = masses (particles s) /\
  viscosities (particles s') = viscosities (particles s) /\
  colors (particles s') = colors (particles s) /\
  domain_size s' = domain_size s /\
  h s' = h s /\
  particle_mass s' = particle_mass s /\
  rest_density s' = rest_density s /\
  gas_constant s' = gas_constant s /\
  viscosity s' = viscosity s /\
  gravity s' = gravity s /\
  dt s' = dt s /\
  cell_size (spatial_grid s') = cell_size (spatial_grid s).

Lemma same_setup_refl (s : SPHSolver) : same_setup s s.
Proof. by repeat split. Qed.

Lemma same_setup_trans (s1 s2 s3 : SPHSolver) :
  same_setup s1 s2 -> same_setup s2 s3 -> same_setup s1 s3.
Proof. unfold same_setup. intuition congruence. Qed.

(** A method that keeps the setup from every state it is run in. *)
Definition keeps_setup {A} (m : M SPHSolver A) : Prop :=
  forall s, wpe m (fun _ s' => same_setup s s') (fun _ s' => same_setup s s') s.

Lemma keeps_setup_bind {A B} (m : M SPHSolver A) (f : A -> M SPHSolver B) :
  keeps_setup m -> (forall a, keeps_setup (f a)) -> keeps_setup (m ≫= f).
Proof.
  intros Hm Hf s. apply wpe_bind.
  eapply wpe_mono; [apply Hm | | done].
  intros a s1 Hs1. cbv beta.
  eapply wpe_mono; [apply Hf | |]; intros ? s2 Hs2; by apply (same_setup_trans s s1).
Qed.

Lemma keeps_setup_get {B} (f : SPHSolver -> M SPHSolver B) :
  (forall s0, keeps_setup (f s0)) -> keeps_setup (get ≫= f).
Proof. intros Hf s. apply wpe_bind, wpe_get, Hf. Qed.

Lemma keeps_setup_lift {A B} (r : result A) (f : A -> M SPHSolver B) :
  (forall a, keeps_setup (f a)) -> keeps_setup (lift r ≫= f).
Proof.
  intros Hf s. apply wpe_lift_bind; [intros a _; apply Hf|].
  intros e _. apply same_setup_refl.
Qed.

Lemma keeps_setup_ret {A} (a : A) : keeps_setup (mret a).
Proof. intros s. apply wpe_ret, same_setup_refl. Qed.

Lemma keeps_setup_for {A} (l : list A) (body : A -> M SPHSolver unit) :
  (forall a, keeps_setup (body a)) -> keeps_setup (forM_ l body).
Proof.
  intros Hbody. unfold forM_. generalize tt.
  induction l as [|a l IH]; intros u; simpl.
  - apply keeps_setup_ret.
  - apply keeps_setup_bind; [apply Hbody | intros u'; apply IH].
Qed.

(** Writes to the five arrays a step computes keep the setup. *)
Lemma keeps_setup_assign_R (proj : ParticleSystem -> list R) upd i x :
  (forall l p, n_particles (upd l p) = n_particles p /\
               max_particles (upd l p) = max_particles p /\
               masses (upd l p) = masses p /\
               viscosities (upd l p) = viscosities p /\
               colors (upd l p) = colors p) ->
  keeps_setup (SPHSolver.assign_particles proj upd i x).
Proof.
  intros Hupd s. apply wpe_assign_particles; [|intros; apply same_setup_refl].
  intros _. unfold same_setup. fields.
  destruct (Hupd (<[i:=x]> (proj (particles s))) (particles s)) as (? & ? & ? & ? & ?).
  repeat (split; [done|]). done.
Qed.

Lemma keeps_setup_assign_vec (proj : ParticleSystem -> list vec3) upd i x :
  (forall l p, n_particles (upd l p) = n_particles p /\
               max_particles (upd l p) = max_particles p /\
               masses (upd l p) = masses p /\
               viscosities (upd l p) = viscosities p /\
               colors (upd l p) = colors p) ->
  keeps_setup (SPHSolver.assign_particles proj upd i x).
Proof.
  intros Hupd s. apply wpe_assign_particles; [|intros; apply same_setup_refl].
  intros _. unfold same_setup. fields.
  destruct (Hupd (<[i:=x]> (proj (particles s))) (particles s)) as (? & ? & ? & ? & ?).
  repeat (split; [done|]). done.
Qed.

Lemma build_loop_keeps_cell_size (ips : list (nat * vec3)) (c : R) :
  forall g, cell_size g = c ->
    wpe (forM_ ips (fun '(idx, pos) =>
           self ← get;
           cl ← lift (SpatialHashGrid.hash_position self pos);
           modify (SpatialHashGrid.append_at cl idx)))
      (fun _ g' => cell_size g' = c) (fun _ g' => cell_size g' = c) g.
Proof.
  unfold forM_. generalize tt.
  induction ips as [|[idx pos] l IH]; intros u g Hg; simpl.
  - by apply wpe_ret.
  - apply wpe_bind, wpe_bind, wpe_get.
    apply wpe_lift_bind; [intros cl _ | by intros].
    apply wpe_modify. by apply IH.
Qed.

(** [build] keeps the cell size, whether it returns or raises. *)
Lemma build_keeps_cell_size (positions : list vec3) (g : SpatialHashGrid) :
  wpe (SpatialHashGrid.build positions)
    (fun _ g' => cell_size g' = cell_size g) (fun _ g' => cell_size g' = cell_size g) g.
Proof.
  unfold SpatialHashGrid.build. apply wpe_bind, wpe_modify.
  by apply build_loop_keeps_cell_size.
Qed.

Lemma compute_density_pressure_keeps_setup : keeps_setup SPHSolver.compute_density_pressure.
Proof.
  unfold SPHSolver.compute_density_pressure.
  apply keeps_setup_get. intros s0. apply keeps_setup_bind.
  - intros s. apply wpe_zoom.
    eapply wpe_mono; [apply build_keeps_cell_size | |];
      intros ? g' Hg'; unfold same_setup; fields; by repeat split.
  - intros _. apply keeps_setup_for. intros i.
    apply keeps_setup_get. intros s1.
    apply keeps_setup_lift. intros pos_i.
    apply keeps_setup_lift. intros ns.
    apply keeps_setup_lift. intros d.
    apply keeps_setup_bind; [|intros _]; by apply keeps_setup_assign_R.
Qed.

Lemma compute_forces_keeps_setup : keeps_setup SPHSolver.compute_forces.
Proof.
  unfold SPHSolver.compute_forces.
  apply keeps_setup_bind.
  { intros s. apply wpe_modify. unfold same_setup, SPHSolver.reset_forces. fields.
    by repeat split. }
  intros _. apply keeps_setup_get. intros s0.
  apply keeps_setup_for. intros i.
  apply keeps_setup_get. intros s1.
  apply keeps_setup_lift. intros pos_i.
  apply keeps_setup_lift. intros vel_i.
  apply keeps_setup_lift. intros ns.
  apply keeps_setup_lift. intros [fp fv].
  apply keeps_setup_lift. intros m_i.
  by apply keeps_setup_assign_vec.
Qed.

Lemma apply_boundary_conditions_keeps_setup (i : nat) :
  keeps_setup (SPHSolver.apply_boundary_conditions i).
Proof.
  unfold SPHSolver.apply_boundary_conditions.
  apply keeps_setup_get. intros s0.
  apply keeps_setup_lift. intros [[px p_y] pz].
  apply keeps_setup_lift. intros [[v_x v_y] v_z].
  destruct (domain_size s0) as [[lx ly] lz].
  destruct (SPHSolver.bounce_axis px v_x lx) as [bx bvx].
  destruct (SPHSolver.bounce_axis p_y v_y ly) as [b_y bvy].
  destruct (SPHSolver.bounce_axis pz v_z lz) as [bz bvz].
  apply keeps_setup_bind; [|intros _]; by apply keeps_setup_assign_vec.
Qed.

Lemma integrate_keeps_setup : keeps_setup SPHSolver.integrate.
Proof.
  unfold SPHSolver.integrate.
  apply keeps_setup_get. intros s0.
  apply keeps_setup_for. intros i.
  apply keeps_setup_get. intros s1.
  apply keeps_setup_lift. intros m_i.
  apply keeps_setup_bind.
  { case_decide; [|apply keeps_setup_ret].
    apply keeps_setup_lift. intros f_i s. apply wpe_lift.
    destruct (np_vdiv f_i m_i); apply same_setup_refl. }
  intros a. apply keeps_setup_lift. intros vel_i.
  apply keeps_setup_bind; [by apply keeps_setup_assign_vec | intros _].
  apply keeps_setup_lift. intros pos_i.
  apply keeps_setup_bind; [by apply keeps_setup_assign_vec | intros _].
  apply apply_boundary_conditions_keeps_setup.
Qed.

Lemma step_keeps_setup : keeps_setup SPHSolver.step.
Proof.
  unfold SPHSolver.step. apply keeps_setup_get. intros s0.
  case_decide; [apply keeps_setup_ret|].
  apply keeps_setup_bind; [apply compute_density_pressure_keeps_setup | intros _].
  apply keeps_setup_bind; [apply compute_forces_keeps_setup | intros _].
  apply keeps_setup_bind; [apply integrate_keeps_setup | intros _].
  intros s. apply wpe_modify. unfold same_setup. fields. by repeat split.
Qed.

(** X18. A time step only moves particles.  Any number of [step] calls
    from any solver state, also a run that ends in an exception, leaves
    the number of live particles, the store's count and capacity, the
    masses, viscosities and colours, the domain, the smoothing length
    and the other parameters, and the grid's cell size as they were. *)
Theorem steps_keep_setup (s : SPHSolver) (n : nat) (r : result unit) (s' : SPHSolver) :
  SPHSolver.steps n s = (r, s') ->
  n_active s' = n_active s /\
  n_particles (particles s') = n_particles (particles s) /\
  max_particles (particles s') = max_particles (particles s) /\
  masses (particles s') = masses (particles s) /\
  viscosities (particles s') = viscosities (particles s) /\
  colors (particles s') = colors (particles s) /\
  domain_size s' = domain_size s /\
  h s' = h s /\
  particle_mass s' = particle_mass s /\
  rest_density s' = rest_density s /\
  gas_constant s' = gas_constant s /\
  viscosity s' = viscosity s /\
  gravity s' = gravity s /\
  dt s' = dt s /\
  cell_size (spatial_grid s') = cell_size (spatial_grid s).
Proof.
  intros Hrun.
  pose proof (keeps_setup_for (seq 0 n) (fun _ => SPHSolver.step)
                (fun _ => step_keeps_setup) s) as Hwp.
  unfold wpe in Hwp. unfold SPHSolver.steps in Hrun. rewrite Hrun in Hwp.
  by destruct r.
Qed.

Definition resting_particle_solver : SPHSolver :=
  single_particle_solver (1, 1, 1) 0.1 0.02 (0, -9.81, 0) 0.001 (0.5, 0.5, 0.5) (0, 0, 0).

Lemma steps_keep_setup_witness :
  exists r s',
    SPHSolver.steps 2 resting_particle_solver = (r, s') /\
    n_active s' = n_active resting_particle_solver /\
    n_particles (particles s') = n_particles (particles resting_particle_solver) /\
    max_particles (particles s') = max_particles (particles resting_particle_solver) /\
    masses (particles s') = masses (particles resting_particle_solver) /\
    viscosities (particles s') = viscosities (particles resting_particle_solver) /\
    colors (particles s') = colors (particles resting_particle_solver) /\
    domain_size s' = domain_size resting_particle_solver /\
    h s' = h resting_particle_solver /\
    particle_mass s' = particle_mass resting_particle_solver /\
    rest_density s' = rest_density resting_particle_solver /\
    gas_constant s' = gas_constant resting_particle_solver /\
    viscosity s' = viscosity resting_particle_solver /\
    gravity s' = gravity resting_particle_solver /\
    dt s' = dt resting_particle_solver /\
    cell_size (spatial_grid s') = cell_size (spatial_grid resting_particle_solver).
Proof.
  destruct (SPHSolver.steps 2 resting_particle_solver) as [r s'] eqn:Hrun.
  exists r, s'. split; [done|].
  apply (steps_keep_setup resting_particle_solver 2 r s' Hrun).
Defined.

(* ------------------------------------------------------------------ *)
(** ** Solver: the clock and [run] *)

(** One [step] of a non-empty solver advances the clock by one tick. *)
Lemma step_clock (s : SPHSolver) :
  well_formed s -> h s <> 0 -> n_active s <> 0%nat ->
  exists s',
    SPHSolver.step s = (Ok tt, s') /\
    well_formed s' /\ h s' = h s /\ n_active s' = n_active s /\ dt s' = dt s /\
    time s' = time s + dt s /\ step_count s' = (step_count s + 1)%nat.
Proof.
  intros Hwf Hh Hn.
  destruct (step_spec s Hwf Hh Hn)
    as (D & P & g' & F & X & V & Hrun & HD & HP & HF & HX & HV & Hg & _).
  eexists. split; [exact Hrun|]. split; [|done].
  apply set_clock_well_formed, with_motion_well_formed; [|done|done].
  apply with_forces_well_formed; [|done].
  by apply with_density_well_formed.
Qed.

Lemma steps_clock (n : nat) :
  forall (a : nat) (s : SPHSolver),
    well_formed s -> h s <> 0 -> n_active s <> 0%nat ->
    exists s',
      forM_ (seq a n) (fun _ => SPHSolver.step) s = (Ok tt, s') /\
      well_formed s' /\ n_active s' = n_active s /\
      time s' = time s + INR n * dt s /\ step_count s' = (step_count s + n)%nat.
Proof.
  induction n as [|n IH]; intros a s Hwf Hh Hn.
  - exists s. split; [done|]. split; [done|]. split; [done|]. simpl. split; [lra | lia].
  - destruct (step_clock s Hwf Hh Hn) as (s1 & Hrun & Hwf1 & Hh1 & Hn1 & Hdt1 & Ht1 & Hc1).
    destruct (IH (S a) s1) as (s' & Hrest & Hwf' & Hn' & Ht' & Hc'); try congruence.
    exists s'. split.
    { unfold forM_ in *. simpl. by rewrite (run_bind_ok _ _ _ _ _ Hrun). }
    split; [done|]. split; [congruence|]. split.
    + rewrite Ht', Ht1, Hdt1, S_INR. lra.
    + lia.
Qed.

(** [steps] on an empty solver does nothing. *)
Lemma steps_empty (n : nat) (s : SPHSolver) :
  n_active s = 0%nat -> SPHSolver.steps n s = (Ok tt, s).
Proof.
  intros Hn. unfold SPHSolver.steps, forM_. generalize 0%nat.
  induction n as [|n IH]; intros a; simpl; [done|].
  assert (SPHSolver.step s = (Ok tt, s)) as Hstep.
  { unfold SPHSolver.step. by rewrite run_get_bind, decide_True. }
  rewrite (run_bind_ok _ _ _ _ _ Hstep). apply IH.
Qed.

(** X19. The contract of [run].  The step count is
    [n = int(duration / self.dt)], computed on binary64 numbers.  When
    that computation raises, [ZeroDivisionError] for a zero time step,
    [OverflowError] or [ValueError] for an infinite or undefined
    quotient, [run] raises the same before any step and leaves the solver
    as it was.  Otherwise, on a solver without particles it returns
    without advancing the clock, and on a well-formed, non-empty solver
    with [h <> 0] it returns after [n] steps, none for a negative [n]:
    the step count grows by [n] and the time by [n * dt]. *)
Theorem run_contract (s : SPHSolver) (duration time_step : PrimFloat.float) :
  (PrimFloat.eqb time_step PrimFloat.zero = true ->
     Binary64.run duration time_step s = (Raise ZeroDivisionError, s)) /\
  (forall e, Binary64.n_steps duration time_step = Raise e ->
     Binary64.run duration time_step s = (Raise e, s) /\
     (e = ZeroDivisionError \/ e = OverflowError \/ e = ValueError)) /\
  (forall n, Binary64.n_steps duration time_step = Ok n ->
     (n_active s = 0%nat -> Binary64.run duration time_step s = (Ok tt, s)) /\
     (well_formed s -> h s <> 0 -> n_active s <> 0%nat ->
      dt s = Binary64.to_R time_step ->
        exists s',
          Binary64.run duration time_step s = (Ok tt, s') /\
          step_count s' = (step_count s + Z.to_nat n)%nat /\
          time s' = time s + INR (Z.to_nat n) * Binary64.to_R time_step /\
          n_active s' = n_active s /\
          well_formed s')).
Proof.
  unfold Binary64.run. split; [|split].
  - intros Hzero. by rewrite (Binary64.n_steps_zero_time_step _ _ Hzero).
  - intros e He. rewrite He. split; [done|]. by apply (Binary64.n_steps_raises _ _ _ He).
  - intros n Hn. rewrite Hn, run_lift_bind. split.
    + intros Hempty. by apply steps_empty.
    + intros Hwf Hh Hlive Hdt.
      destruct (steps_clock (Z.to_nat n) 0 s Hwf Hh Hlive)
        as (s' & Hrun & Hwf' & Hn' & Ht & Hc).
      exists s'. rewrite <- Hdt. done.
Qed.

(** A particle at rest in the middle of the unit box, with the binary64
    number nearest to 0.1 as time step. *)
Definition tenth_step_solver : SPHSolver :=
  single_particle_solver (1, 1, 1) 0.1 0.02 (0, -9.81, 0)
    (Binary64.to_R Binary64.tenth) (0.5, 0.5, 0.5) (0, 0, 0).

Lemma run_contract_witness :
  Binary64.run Binary64.three_tenths PrimFloat.zero tenth_step_solver
    = (Raise ZeroDivisionError, tenth_step_solver) /\
  (Binary64.run Binary64.huge Binary64.tiny tenth_step_solver
     = (Raise OverflowError, tenth_step_solver) /\
   (OverflowError = ZeroDivisionError \/ OverflowError = OverflowError \/
    OverflowError = ValueError)) /\
  Binary64.run Binary64.three_tenths Binary64.tenth empty_solver = (Ok tt, empty_solver) /\
  exists s',
    Binary64.run Binary64.three_tenths Binary64.tenth tenth_step_solver = (Ok tt, s') /\
    step_count s' = (step_count tenth_step_solver + Z.to_nat 2)%nat /\
    time s' = time tenth_step_solver
              + INR (Z.to_nat 2) * Binary64.to_R Binary64.tenth /\
    n_active s' = n_active tenth_step_solver /\
    well_formed s'.
Proof.
  split; [|split; [|split]].
  - by apply (run_contract tenth_step_solver Binary64.three_tenths PrimFloat.zero).
  - by apply (run_contract tenth_step_solver Binary64.huge Binary64.tiny).
  - by apply (run_contract empty_solver Binary64.three_tenths Binary64.tenth) with (n := 2%Z).
  - apply (run_contract tenth_step_solver Binary64.three_tenths Binary64.tenth);
      try reflexivity.
    + apply single_particle_solver_well_formed.
    + simpl. lra.
    + simpl. lia.
Defined.

(* ------------------------------------------------------------------ *)
(** ** Solver: a zero smoothing length *)

(** X20. A zero smoothing length stops the simulation at its first step.
    The constructor accepts [h = 0]; on a well-formed solver with live
    particles every run of one or more steps then raises [ValueError] or
    [OverflowError] from the first cell computation.  Only the grid has
    been cleared: the particle arrays, the time and the step count are
    as before. *)
Theorem zero_smoothing_length_stops_simulation (s : SPHSolver) (n : nat) :
  well_formed s -> h s = 0 -> n_active s <> 0%nat ->
  exists e s',
    SPHSolver.steps (S n) s = (Raise e, s') /\
    (e = ValueError \/ e = OverflowError) /\
    particles s' = particles s /\
    time s' = time s /\
    step_count s' = step_count s /\
    n_active s' = n_active s.
Proof.
  intros ((Hp & _) & Hn & Hcell) Hh Hlive.
  destruct (take (n_active s) (positions (particles s))) as [|p rest] eqn:Htake.
  { apply (f_equal length) in Htake. rewrite length_take in Htake. simpl in Htake. lia. }
  destruct (build_raises (spatial_grid s) p rest) as (e & g' & Hbuild & He);
    [congruence|].
  exists e, (set_spatial_grid g' s).
  split; [|done].
  assert (SPHSolver.step s = (Raise e, set_spatial_grid g' s)) as Hstep.
  { unfold SPHSolver.step. rewrite run_get_bind, decide_False by done.
    unfold SPHSolver.compute_density_pressure.
    rewrite run_bind, run_get_bind, run_bind. unfold zoom at 1.
    by rewrite Htake, Hbuild. }
  unfold SPHSolver.steps, forM_. simpl. by rewrite run_bind, Hstep.
Qed.

Definition unsmoothed_particle_solver : SPHSolver :=
  single_particle_solver (1, 1, 1) 0 0.02 (0, -9.81, 0) 0.001 (0.5, 0.5, 0.5) (0, 0, 0).

Lemma zero_smoothing_length_stops_simulation_witness :
  exists e s',
    SPHSolver.steps 3 unsmoothed_particle_solver = (Raise e, s') /\
    (e = ValueError \/ e = OverflowError) /\
    particles s' = particles unsmoothed_particle_solver /\
    time s' = time unsmoothed_particle_solver /\
    step_count s' = step_count unsmoothed_particle_solver /\
    n_active s' = n_active unsmoothed_particle_solver.
Proof.
  apply (zero_smoothing_length_stops_simulation unsmoothed_particle_solver 2).
  - apply single_particle_solver_well_formed.
  - reflexivity.
  - simpl. lia.
Defined.

(* ------------------------------------------------------------------ *)
(** ** Solver: the density of an isolated particle *)

Section density_sums.
Variable s : SPHSolver.
Hypothesis Hwf : well_formed s.
Hypothesis Hh : h s <> 0.

(** The density pass, with the sum it takes for every live particle. *)
Lemma compute_density_pressure_sums :
  exists D P g',
    SPHSolver.compute_density_pressure s = (Ok tt, with_density D P g' s) /\
    SpatialHashGrid.build (take (n_active s) (positions (particles s)))
      (spatial_grid s) = (Ok tt, g') /\
    forall i, (i < n_active s)%nat ->
      exists pos_i ns d0,
        positions (particles s) !! i = Some pos_i /\
        SpatialHashGrid.get_neighbors g' pos_i (h s) = Ok ns /\
        SPHSolver.density_sum s pos_i ns = Ok d0 /\
        D !! i = Some (py_max d0 (rest_density s * 0.01)) /\
        P !! i = Some (gas_constant s
                       * (py_max d0 (rest_density s * 0.01) - rest_density s)).
Proof.
  destruct Hwf as ((Hp & Hv & Hf & Hm & Hd & Hpr & Hc & Hvi) & Hn & Hcell).
  assert (cell_size (spatial_grid s) <> 0) as Hcs by (by rewrite Hcell).
  destruct (build_spec (take (n_active s) (positions (particles s)))
              (spatial_grid s) Hcs) as (g' & Hbuild & Hsize & Hmem).
  set (I := fun (k : nat) (s' : SPHSolver) =>
    exists D P, s' = with_density D P g' s /\
      length D = length (densities (particles s)) /\
      length P = length (pressures (particles s)) /\
      forall i, (i < k)%nat ->
        exists pos_i ns d0,
          positions (particles s) !! i = Some pos_i /\
          SpatialHashGrid.get_neighbors g' pos_i (h s) = Ok ns /\
          SPHSolver.density_sum s pos_i ns = Ok d0 /\
          D !! i = Some (py_max d0 (rest_density s * 0.01)) /\
          P !! i = Some (gas_constant s
                         * (py_max d0 (rest_density s * 0.01) - rest_density s))).
  assert (wp SPHSolver.compute_density_pressure
            (fun _ s' => I (n_active s) s') s) as Hwp.
  { unfold SPHSolver.compute_density_pressure.
    apply wpe_bind, wpe_get, wpe_bind, wpe_zoom.
    unfold wpe at 1. rewrite Hbuild.
    apply (wpe_for_range I _ _ (n_active s) 0%nat).
    - exists (densities (particles s)), (pressures (particles s)).
      split; [by destruct s as [? ? ? ? ? ? ? ? []]|].
      repeat split; try done. lia.
    - intros i s1 Hi (D & P & -> & HD & HP & Hall).
      unfold wpe. rewrite run_get_bind. fields.
      destruct (getitem_lt (positions (particles s)) i) as (pos_i & Hpi & ->); [lia|].
      rewrite run_lift_bind.
      destruct (get_neighbors_spec g' pos_i (h s)) as (ns & Hq & _);
        [by rewrite Hsize|].
      rewrite Hq, run_lift_bind.
      destruct (density_sum_total s pos_i ns) as (d & Hds).
      { done. }
      { intros j Hj.
        destruct (neighbors_live _ _ _ _ _ _ _ Hcs Hbuild Hq j Hj) as [_ Hlt].
        split; [done | lia]. }
      change (SPHSolver.density_sum (with_density D P g' s) pos_i ns)
        with (SPHSolver.density_sum s pos_i ns).
      rewrite Hds, run_lift_bind, run_bind.
      rewrite assign_particles_ok by (fields; lia).
      rewrite assign_particles_ok by (fields; lia).
      fields. exists (<[i := py_max d (rest_density s * 0.01)]> D),
        (<[i := gas_constant s * (py_max d (rest_density s * 0.01) - rest_density s)]> P).
      split; [done|]. rewrite !length_insert. repeat split; try done.
      intros i' Hi'. destruct (decide (i' = i)) as [->|Hne].
      + exists pos_i, ns, d. rewrite !list_lookup_insert_eq by lia. done.
      + rewrite !list_lookup_insert_ne by done. apply Hall. lia. }
  apply wp_run in Hwp as ([] & s' & Hrun & D & P & -> & HD & HP & Hall).
  by exists D, P, g'.
Qed.
End density_sums.

(** The Poly6 value at the centre. *)
Lemma poly6_at_centre (p : vec3) (c : R) :
  0 < c -> SPHKernel.poly6 (vsub p p) c = Ok (315 / (64 * PI * c ^ 3)).
Proof.
  intros Hc.
  assert (norm (vsub p p) = 0) as Hn.
  { destruct p as [[x y] z]. unfold norm, vsub.
    replace ((x - x) * (x - x) + (y - y) * (y - y) + (z - z) * (z - z)) with 0 by ring.
    apply sqrt_0. }
  rewrite poly6_inside by lra. rewrite Hn. f_equal.
  pose proof PI_neq0. field. split; lra.
Qed.

(** The density sum of a particle whose other candidates are all beyond
    the smoothing length: only its own term is left. *)
Lemma density_sum_isolated (s : SPHSolver) (i : nat) (m : R) (p : vec3)
    (ns : list nat) :
  0 < h s ->
  positions (particles s) !! i = Some p ->
  masses (particles s) !! i = Some m ->
  (forall j, j ∈ ns ->
     (j < length (positions (particles s)))%nat /\
     (j < length (masses (particles s)))%nat) ->
  (forall j pj, j ∈ ns -> j <> i -> positions (particles s) !! j = Some pj ->
     norm (vsub p pj) > h s) ->
  NoDup ns ->
  forall b, exists d,
    foldM (fun density j =>
      pos_j ← getitem (positions (particles s)) j;
      let r := vsub p pos_j in
      W ← SPHKernel.poly6 r (h s);
      m_j ← getitem (masses (particles s)) j;
      Ok (density + m_j * W)) ns b = Ok d /\
    d = b + (if decide (i ∈ ns) then m * (315 / (64 * PI * h s ^ 3)) else 0).
Proof.
  intros Hh Hp Hm Hlive Hfar.
  match goal with |- _ -> forall b, exists d, foldM ?f ns b = _ /\ _ => set (F := f) end.
  induction ns as [|j ns IH]; intros Hnd b; cbn [foldM].
  - exists b. split; [done|]. rewrite decide_False by apply not_elem_of_nil. lra.
  - apply NoDup_cons in Hnd as [Hj Hnd].
    destruct (Hlive j) as [Hjp Hjm]; [by left|].
    destruct (getitem_lt _ _ Hjp) as (pos_j & Hpj & Hgp).
    destruct (getitem_lt _ _ Hjm) as (m_j & Hmj & Hgm).
    specialize (IH ltac:(intros j' Hj'; apply Hlive; by right)
                   ltac:(intros j' pj Hj'; apply Hfar; by right) Hnd).
    destruct (decide (j = i)) as [->|Hne].
    + assert (pos_j = p) as -> by congruence.
      assert (m_j = m) as -> by congruence.
      assert (F b i = Ok (b + m * (315 / (64 * PI * h s ^ 3)))) as ->.
      { unfold F. rewrite Hgp. unfold mbind at 1, result_bind.
        rewrite poly6_at_centre by done. unfold mbind at 1, result_bind.
        by rewrite Hgm. }
      unfold mbind at 1, result_bind.
      destruct (IH (b + m * (315 / (64 * PI * h s ^ 3)))) as (d & Hd & ->).
      eexists. split; [exact Hd|].
      rewrite (decide_False (P := i ∈ ns)) by done.
      rewrite decide_True by (by left). lra.
    + assert (F b j = Ok (b + m_j * 0)) as ->.
      { unfold F. rewrite Hgp. unfold mbind at 1, result_bind.
        rewrite poly6_outside by (apply (Hfar j); [by left | done | done]).
        unfold mbind at 1, result_bind. by rewrite Hgm. }
      unfold mbind at 1, result_bind.
      destruct (IH (b + m_j * 0)) as (d & Hd & ->).
      eexists. split; [exact Hd|].
      destruct (decide (i ∈ ns)) as [Hin|Hnin].
      * rewrite decide_True by (by right). lra.
      * rewrite decide_False; [lra|]. rewrite elem_of_cons. intros [?|?]; congruence.
Qed.

(** X21. The density of an isolated particle.  Take a live particle of
    mass [m] such that every other live particle is farther than
    [h > 0] away.  The density pass gives it the density
    [max(m * 315 / (64 pi h^3), 0.01 * rest_density)], its own
    contribution or the floor, and the pressure
    [gas_constant * (density - rest_density)]. *)
Theorem isolated_particle_density (s : SPHSolver) (i : nat) (m : R) (p : vec3) :
  well_formed s -> 0 < h s ->
  (i < n_active s)%nat ->
  positions (particles s) !! i = Some p ->
  masses (particles s) !! i = Some m ->
  (forall j pj, (j < n_active s)%nat -> j <> i ->
     positions (particles s) !! j = Some pj -> norm (vsub p pj) > h s) ->
  let rho := py_max (m * (315 / (64 * PI * h s ^ 3))) (rest_density s * 0.01) in
  exists s',
    SPHSolver.compute_density_pressure s = (Ok tt, s') /\
    densities (particles s') !! i = Some rho /\
    pressures (particles s') !! i = Some (gas_constant s * (rho - rest_density s)).
Proof.
  intros Hwf Hh Hi Hp Hm Hfar rho.
  destruct (compute_density_pressure_sums s Hwf ltac:(lra))
    as (D & P & g' & Hrun & Hbuild & Hall).
  destruct (Hall i Hi) as (pos_i & ns & d0 & Hpi & Hq & Hsum & HD & HP).
  assert (pos_i = p) as -> by congruence.
  pose proof Hwf as ((Hpl & Hvl & Hfl & Hml & _) & Hcap & Hcell).
  assert (cell_size (spatial_grid s) <> 0) as Hcs by (rewrite Hcell; lra).
  destruct (build_shape (take (n_active s) (positions (particles s)))
              (spatial_grid s) Hcs) as (g1 & Hb1 & Hsize & Hmem & _ & _ & Hnd).
  assert (g1 = g') as -> by congruence.
  assert (NoDup ns) as Hnodup.
  { apply (get_neighbors_NoDup g' p (h s)); [by rewrite Hsize | done | | done].
    intros c c' x Hx Hx'.
    apply Hmem in Hx as (q & Hq1 & <-). apply Hmem in Hx' as (q' & Hq2 & <-).
    congruence. }
  assert (forall j, j ∈ ns -> (j < n_active s)%nat) as Hlive.
  { intros j Hj. by destruct (neighbors_live _ _ _ _ _ _ _ Hcs Hbuild Hq j Hj). }
  assert (i ∈ ns) as Hself.
  { destruct (get_neighbors_spec g' p (h s)) as (ns' & Hq' & Hns); [by rewrite Hsize|].
    assert (ns' = ns) as -> by congruence.
    apply Hns. exists 0%Z, 0%Z, 0%Z. repeat (split; [apply offsets_zero|]).
    apply Hmem. exists p. split; [by rewrite lookup_take_lt|].
    rewrite Hsize. generalize (cell_of (cell_size (spatial_grid s)) p).
    intros [[a b] c]. simpl. f_equal; [f_equal|]; lia. }
  destruct (density_sum_isolated s i m p ns Hh Hp Hm) with (b := 0) as (d & Hd & Hval);
    [intros j Hj; apply Hlive in Hj; lia | | done |].
  { intros j pj Hj. apply Hfar. by apply Hlive. }
  assert (Ok d0 = Ok d) as Heq by (rewrite <- Hsum, <- Hd; reflexivity).
  injection Heq as ->. rewrite Hval in HD, HP.
  rewrite decide_True in HD, HP by done.
  replace (0 + m * (315 / (64 * PI * h s ^ 3))) with (m * (315 / (64 * PI * h s ^ 3)))
    in HD, HP by lra.
  exists (with_density D P g' s). split; [done|]. by fields.
Qed.

Lemma isolated_particle_density_witness :
  exists s',
    SPHSolver.compute_density_pressure resting_particle_solver = (Ok tt, s') /\
    densities (particles s') !! 0%nat
      = Some (py_max (0.02 * (315 / (64 * PI * h resting_particle_solver ^ 3)))
                (rest_density resting_particle_solver * 0.01)) /\
    pressures (particles s') !! 0%nat
      = Some (gas_constant resting_particle_solver
              * (py_max (0.02 * (315 / (64 * PI * h resting_particle_solver ^ 3)))
                   (rest_density resting_particle_solver * 0.01)
                 - rest_density resting_particle_solver)).
Proof.
  apply (isolated_particle_density resting_particle_solver 0 0.02 (0.5, 0.5, 0.5)).
  - apply single_particle_solver_well_formed.
  - simpl. lra.
  - simpl. lia.
  - reflexivity.
  - reflexivity.
  - intros j pj Hj Hne. simpl in Hj. lia.
Defined.

(* ------------------------------------------------------------------ *)
(** ** Solver: the density floor as the float32 array holds it *)

Lemma powerRZ_2_nonpos (e : Z) : (e <= 0)%Z -> powerRZ 2 e <= 1.
Proof.
  intros He. replace e with (- (- e))%Z by lia. rewrite powerRZ_neg'.
  rewrite <- (Z2Nat.id (- e)) by lia. rewrite <- pow_powerRZ.
  apply Rle_trans with (/ 1); [|rewrite Rinv_1; lra].
  apply Rinv_le_contravar; [lra|]. apply pow_R1_Rle. lra.
Qed.

(** Every float32 number is below 8 in absolute value or a multiple of
    [2^-20], the spacing of float32 between 8 and 16. *)
Lemma float32_grid (z : R) :
  float32 z -> Rabs z < 8 \/ exists k : Z, z = IZR k / 2 ^ 20.
Proof.
  intros (m & e & Hm & He & ->).
  assert (Rabs (IZR m) < 2 ^ 24) as Hm'.
  { rewrite <- abs_IZR. replace (2 ^ 24) with (IZR (2 ^ 24)).
    - by apply IZR_lt.
    - simpl. lra. }
  destruct (Z_lt_le_dec e (-20)) as [Hlo|Hhi].
  - left. rewrite Rabs_mult. rewrite (Rabs_pos_eq (powerRZ 2 e)).
    2: { left. apply powerRZ_lt. lra. }
    assert (0 < powerRZ 2 e) as Hpos by (apply powerRZ_lt; lra).
    assert (powerRZ 2 (-21) = / 2 ^ 21) as Hv by reflexivity.
    assert (powerRZ 2 e <= powerRZ 2 (-21)) as Hp.
    { replace e with ((e + 21) + (-21))%Z at 1 by lia.
      rewrite powerRZ_add by lra.
      pose proof (powerRZ_2_nonpos (e + 21) ltac:(lia)).
      assert (0 < powerRZ 2 (-21)) by (apply powerRZ_lt; lra). nra. }
    pose proof (Rabs_pos (IZR m)).
    assert (/ 2 ^ 21 = 1 / 2097152) as Hv' by (simpl; lra).
    rewrite Hv, Hv' in Hp.
    assert (2 ^ 24 = 16777216) as H24 by (simpl; lra). rewrite H24 in Hm'.
    nra.
  - right. exists (m * 2 ^ (e + 20))%Z.
    replace e with ((e + 20) + (-20))%Z at 1 by lia.
    rewrite powerRZ_add by lra. rewrite mult_IZR.
    replace (powerRZ 2 (e + 20)) with (IZR (2 ^ (e + 20))).
    + change (powerRZ 2 (-20)) with (/ 2 ^ 20). unfold Rdiv. ring.
    + rewrite <- (Z2Nat.id (e + 20)) by lia.
      rewrite <- pow_IZR. by rewrite <- pow_powerRZ.
Qed.

(** The float32 number nearest to 14.2, the floor of a fluid of rest
    density 1420, is [14889779 * 2^-20 = 14.19999980926513671875]. *)
Lemma stored_honey_floor (y : R) :
  stored_as_float32 (1420 * 0.01) y <-> y = 14889779 / 2 ^ 20.
Proof.
  assert (2 ^ 20 = 1048576) as H20 by (simpl; lra).
  assert (forall z, float32 z ->
            Rabs (1420 * 0.01 - 14889779 / 2 ^ 20) <= Rabs (1420 * 0.01 - z) /\
            (Rabs (1420 * 0.01 - z) <= Rabs (1420 * 0.01 - 14889779 / 2 ^ 20) ->
             z = 14889779 / 2 ^ 20)) as Hgrid.
  { intros z Hz. rewrite H20.
    rewrite (Rabs_pos_eq (1420 * 0.01 - 14889779 / 1048576)) by lra.
    destruct (float32_grid z Hz) as [Hsmall|[k ->]].
    - apply Rabs_def2 in Hsmall as [H1 H2].
      rewrite (Rabs_pos_eq (1420 * 0.01 - z)) by lra. split; lra.
    - rewrite H20. destruct (Z_le_gt_dec k 14889779) as [Hk|Hk].
      + apply IZR_le in Hk.
        rewrite (Rabs_pos_eq (1420 * 0.01 - IZR k / 1048576)) by lra.
        split; [lra|]. intros Hle. lra.
      + assert (14889779 + 1 <= k)%Z as Hk' by lia. apply IZR_le in Hk'.
        rewrite plus_IZR in Hk'.
        rewrite (Rabs_left (1420 * 0.01 - IZR k / 1048576)) by lra.
        split; lra. }
  assert (float32 (14889779 / 2 ^ 20)) as Hf.
  { exists 14889779%Z, (-20)%Z. split; [reflexivity|]. split; [lia|].
    change (powerRZ 2 (-20)) with (/ 2 ^ 20). reflexivity. }
  split.
  - intros [Hy Hnear]. apply (Hgrid y Hy). by apply Hnear.
  - intros ->. split; [done|]. intros z Hz. by apply Hgrid.
Qed.

(** The density pass on a solver with a single live particle: its density
    is its own Poly6 term or the floor. *)
Lemma lone_particle_density (s : SPHSolver) (m : R) (p : vec3) :
  well_formed s -> 0 < h s -> n_active s = 1%nat ->
  positions (particles s) !! 0%nat = Some p ->
  masses (particles s) !! 0%nat = Some m ->
  exists s',
    SPHSolver.compute_density_pressure s = (Ok tt, s') /\
    n_active s' = 1%nat /\ rest_density s' = rest_density s /\
    densities (particles s') !! 0%nat
      = Some (py_max (m * (315 / (64 * PI * h s ^ 3))) (rest_density s * 0.01)).
Proof.
  intros Hwf Hh Hn Hp Hm.
  destruct (compute_density_pressure_sums s Hwf ltac:(lra))
    as (D & P & g' & Hrun & Hbuild & Hall).
  destruct (Hall 0%nat ltac:(lia)) as (pos_i & ns & d0 & Hpi & Hq & Hsum & HD & _).
  assert (pos_i = p) as -> by congruence.
  pose proof Hwf as ((Hpl & Hvl & Hfl & Hml & _) & Hcap & Hcell).
  assert (cell_size (spatial_grid s) <> 0) as Hcs by (rewrite Hcell; lra).
  destruct (build_shape (take (n_active s) (positions (particles s)))
              (spatial_grid s) Hcs) as (g1 & Hb1 & Hsize & Hmem & _ & _ & Hnd).
  assert (g1 = g') as -> by congruence.
  assert (NoDup ns) as Hnodup.
  { apply (get_neighbors_NoDup g' p (h s)); [by rewrite Hsize | done | | done].
    intros c c' x Hx Hx'.
    apply Hmem in Hx as (q & Hq1 & <-). apply Hmem in Hx' as (q' & Hq2 & <-).
    congruence. }
  assert (forall j, j ∈ ns -> (j < n_active s)%nat) as Hlive.
  { intros j Hj. by destruct (neighbors_live _ _ _ _ _ _ _ Hcs Hbuild Hq j Hj). }
  assert (0%nat ∈ ns) as Hself.
  { destruct (get_neighbors_spec g' p (h s)) as (ns' & Hq' & Hns); [by rewrite Hsize|].
    assert (ns' = ns) as -> by congruence.
    apply Hns. exists 0%Z, 0%Z, 0%Z. repeat (split; [apply offsets_zero|]).
    apply Hmem. exists p. split; [rewrite lookup_take_lt; [done | lia]|].
    rewrite Hsize. generalize (cell_of (cell_size (spatial_grid s)) p).
    intros [[a b] c]. simpl. f_equal; [f_equal|]; lia. }
  destruct (density_sum_isolated s 0 m p ns Hh Hp Hm) with (b := 0) as (d & Hd & Hval);
    [intros j Hj; apply Hlive in Hj; lia | | done |].
  { intros j pj Hj Hne. apply Hlive in Hj. lia. }
  assert (Ok d0 = Ok d) as Heq by (rewrite <- Hsum, <- Hd; reflexivity).
  injection Heq as ->. rewrite Hval in HD.
  rewrite decide_True in HD by done.
  replace (0 + m * (315 / (64 * PI * h s ^ 3))) with (m * (315 / (64 * PI * h s ^ 3)))
    in HD by lra.
  exists (with_density D P g' s). split; [done|]. by fields.
Qed.

(** A solver holding one particle of a fluid with the rest density of the
    preset [HONEY], 1420: with smoothing length 0.2 the particle's own
    density term is about 3.9, so the floor [0.01 * 1420] binds. *)
Definition honey_solver : SPHSolver :=
  mkSPHSolver (1, 1, 1) 0.2 0.02 1420 2000 0.001 (0, -9.81, 0) 0.001
    (mkParticleSystem 1 1 [(0.5, 0.5, 0.5)] [(0, 0, 0)] [(0, 0, 0)] [0.02] [0] [0]
       [(0.2, 0.5, 1.0)] [0.001])
    1 (SpatialHashGrid.init 0.2) 0 0.

Lemma honey_solver_well_formed : well_formed honey_solver.
Proof. repeat split; reflexivity. Qed.

Lemma density_floor_after_pass_witness :
  exists s',
    SPHSolver.compute_density_pressure honey_solver = (Ok tt, s') /\
    forall i, (i < n_active s')%nat ->
      exists d, densities (particles s') !! i = Some d /\
        forall y, stored_as_float32 d y ->
          forall f, float32 f -> f <= 0.01 * rest_density s' -> f <= y.
Proof.
  destruct (density_floor_after_pass honey_solver) as [Hfloor Hreturns].
  destruct Hreturns as [s' Hrun].
  - apply honey_solver_well_formed.
  - simpl. lra.
  - exists s'. split; [exact Hrun|]. by apply Hfloor.
Defined.

(** The density of the particle of [honey_solver] is the floor, 14.2. *)
Lemma honey_solver_density :
  exists s',
    SPHSolver.compute_density_pressure honey_solver = (Ok tt, s') /\
    n_active s' = 1%nat /\ rest_density s' = 1420 /\
    densities (particles s') !! 0%nat = Some (1420 * 0.01).
Proof.
  destruct (lone_particle_density honey_solver 0.02 (0.5, 0.5, 0.5))
    as (s' & Hrun & Hn & Hrho & Hd);
    [apply honey_solver_well_formed | simpl; lra | done | done | done |].
  exists s'. split; [done|]. split; [done|]. split; [done|].
  rewrite Hd. f_equal. cbn [h rest_density honey_solver].
  unfold py_max. rewrite decide_True; [done|].
  pose proof PI2_1 as Hpi.
  assert (0 < 64 * PI * 0.2 ^ 3) as Hpos by (simpl; lra).
  assert (315 / (64 * PI * 0.2 ^ 3) < 710) as Hw; [|lra].
  apply (Rmult_lt_reg_r (64 * PI * 0.2 ^ 3)); [done|].
  unfold Rdiv. rewrite Rmult_assoc, Rinv_l by lra. simpl. lra.
Qed.

(** C5 as stated fails: after the density pass on [honey_solver] the
    float32 array holds [14889779 * 2^-20 = 14.19999980926513671875],
    the float32 number nearest to the assigned floor 14.2, which is less
    than [0.01 * rest_density = 14.2]. *)
Lemma density_floor_as_stated_fails :
  exists s' d y,
    SPHSolver.compute_density_pressure honey_solver = (Ok tt, s') /\
    (0 < n_active s')%nat /\
    densities (particles s') !! 0%nat = Some d /\
    stored_as_float32 d y /\
    (forall y', stored_as_float32 d y' -> y' = y) /\
    y = 14889779 / 2 ^ 20 /\
    y < 0.01 * rest_density s'.
Proof.
  destruct honey_solver_density as (s' & Hrun & Hn & Hrho & Hd).
  exists s', (1420 * 0.01), (14889779 / 2 ^ 20).
  split; [done|]. split; [lia|]. split; [done|].
  split; [by apply stored_honey_floor|].
  split; [intros y' Hy'; by apply stored_honey_floor|].
  split; [done|]. rewrite Hrho. simpl. lra.
Qed.

(* ------------------------------------------------------------------ *)
(** ** Solver: an isolated particle *)

(** Candidates beyond the smoothing length add nothing to the pressure
    and viscosity forces. *)
Lemma pair_forces_isolated (s : SPHSolver) (i : nat) (pos_i vel_i : vec3)
    (ns : list nat) :
  ParticleSystem.shaped (particles s) ->
  (i < Z.to_nat (max_particles (particles s)))%nat ->
  (forall j, j ∈ ns -> (j < Z.to_nat (max_particles (particles s)))%nat) ->
  (forall j pj, j ∈ ns -> j <> i -> positions (particles s) !! j = Some pj ->
     norm (vsub pos_i pj) > h s) ->
  SPHSolver.pair_forces s i pos_i vel_i ns = Ok (vzero, vzero).
Proof.
  intros (Hp & Hv & Hf & Hm & Hd & Hpr & Hc & Hvi) Hi Hns Hfar.
  unfold SPHSolver.pair_forces.
  match goal with |- foldM ?f ns ?b = _ =>
    destruct (foldM_result_ok (fun b' => b' = (vzero, vzero)) f ns b) as (r & Hr & ->);
      [done | | exact Hr]
  end.
  intros b j Hj ->. pose proof (Hns j Hj) as Hjlt.
  case_decide as Hij; [by eexists|].
  destruct (getitem_lt (positions (particles s)) j) as (pos_j & Hpj & ->); [lia|].
  destruct (getitem_lt (velocities (particles s)) j) as (vel_j & _ & ->); [lia|].
  destruct (getitem_lt (densities (particles s)) j) as (rho_j & _ & Hrho); [lia|].
  destruct (getitem_lt (pressures (particles s)) i) as (P_i & _ & HPi); [lia|].
  destruct (getitem_lt (pressures (particles s)) j) as (P_j & _ & HPj); [lia|].
  destruct (getitem_lt (masses (particles s)) j) as (m_j & _ & Hmj); [lia|].
  destruct (getitem_lt (viscosities (particles s)) i) as (visc & _ & Hvisc); [lia|].
  assert (norm (vsub pos_i pos_j) > h s) as Hout.
  { apply (Hfar j); [done | congruence | done]. }
  unfold mbind, result_bind.
  rewrite spiky_gradient_outside, viscosity_laplacian_outside, Hrho by done.
  case_decide as Hpos.
  - rewrite HPi, HPj, Hmj, np_div_ok, Hvisc, np_vdiv_ok by lra.
    eexists. split; [reflexivity|].
    f_equal; apply vec3_eq; simpl; ring.
  - by eexists.
Qed.

Lemma vadd_zero_gravity (m : R) (g : vec3) :
  vadd (vadd vzero vzero) (vscale m g) = vscale m g.
Proof. destruct g as [[gx gy] gz]. apply vec3_eq; simpl; ring. Qed.

(** X22. An isolated particle falls freely.  Take a live particle of
    positive mass such that every other live particle is farther than
    [h] away, and whose next position stays inside the domain box.  One
    [step] gives it the velocity [v + g * dt] and the position
    [p + (v + g * dt) * dt]: pressure and viscosity forces vanish and
    gravity alone acts, independently of the mass. *)
Theorem isolated_particle_falls_freely (s : SPHSolver) (i : nat) (m : R)
    (v p : vec3) :
  well_formed s -> h s <> 0 ->
  (i < n_active s)%nat ->
  masses (particles s) !! i = Some m -> m > 0 ->
  velocities (particles s) !! i = Some v ->
  positions (particles s) !! i = Some p ->
  (forall j pj, (j < n_active s)%nat -> j <> i ->
     positions (particles s) !! j = Some pj -> norm (vsub p pj) > h s) ->
  let v_new := vadd v (vmul (gravity s) (dt s)) in
  let p_new := vadd p (vmul v_new (dt s)) in
  in_box p_new (domain_size s) ->
  exists s',
    SPHSolver.step s = (Ok tt, s') /\
    velocities (particles s') !! i = Some v_new /\
    positions (particles s') !! i = Some p_new.
Proof.
  intros Hwf Hh Hi Hm Hpos Hv Hp Hfar v_new p_new Hbox.
  destruct (step_spec s Hwf Hh)
    as (D & P & g' & F & X & V & Hrun & HD & HP & _ & _ & _ & Hg & _ & Hall); [lia|].
  pose proof (with_density_well_formed s D P g' Hwf HD HP Hg) as (Hshape1 & _ & _).
  destruct (Hall i Hi)
    as (m' & f' & v' & p' & ns & fp & fv & Hm' & Hv' & Hp' & _ & Hns & Hpf & Hf' & _ & HX & HV).
  assert (m' = m) as -> by congruence.
  assert (v' = v) as -> by congruence.
  assert (p' = p) as -> by congruence.
  destruct Hwf as (Hshape & Hn & _).
  rewrite pair_forces_isolated in Hpf.
  - injection Hpf as <- <-. subst f'. rewrite vadd_zero_gravity in HX, HV.
    assert (advance s m (vscale m (gravity s)) v p = (p_new, v_new)) as Hadv.
    { unfold advance, acceleration_of. rewrite decide_True by done.
      assert (((vscale m (gravity s)).1.1 / m, (vscale m (gravity s)).1.2 / m,
               (vscale m (gravity s)).2 / m) = gravity s) as ->.
      { destruct (gravity s) as [[gx gy] gz]. apply vec3_eq; simpl; field; lra. }
      by apply bounce_inside. }
    rewrite Hadv in HX, HV.
    eexists. split; [exact Hrun|]. unfold with_motion. by fields.
  - exact Hshape1.
  - fields. lia.
  - intros j Hj. apply Hns in Hj. fields. lia.
  - intros j pj Hj Hne. fields. apply Hfar; [by apply Hns | done].
Qed.

Lemma isolated_particle_falls_freely_witness :
  exists s',
    SPHSolver.step resting_particle_solver = (Ok tt, s') /\
    velocities (particles s') !! 0%nat
      = Some (vadd (0, 0, 0) (vmul (gravity resting_particle_solver)
                                (dt resting_particle_solver))) /\
    positions (particles s') !! 0%nat
      = Some (vadd (0.5, 0.5, 0.5)
                (vmul (vadd (0, 0, 0) (vmul (gravity resting_particle_solver)
                                         (dt resting_particle_solver)))
                   (dt resting_particle_solver))).
Proof.
  apply (isolated_particle_falls_freely resting_particle_solver 0 0.02
           (0, 0, 0) (0.5, 0.5, 0.5)).
  - apply single_particle_solver_well_formed.
  - simpl. lra.
  - simpl. lia.
  - reflexivity.
  - lra.
  - reflexivity.
  - reflexivity.
  - intros j pj Hj Hne. simpl in Hj. lia.
  - unfold in_box. simpl. lra.
Defined.

(* ------------------------------------------------------------------ *)
(** ** Solver: reflection at the walls *)

(** [apply_boundary_conditions] on a slot that holds position [p] and
    velocity [v]. *)
Lemma apply_boundary_conditions_spec (s : SPHSolver) (i : nat) (p v : vec3) :
  positions (particles s) !! i = Some p ->
  velocities (particles s) !! i = Some v ->
  SPHSolver.apply_boundary_conditions i s
  = (Ok tt, with_motion (<[i := (bounce p v (domain_size s)).1]> (positions (particles s)))
              (<[i := (bounce p v (domain_size s)).2]> (velocities (particles s))) s).
Proof.
  intros Hp Hv. unfold SPHSolver.apply_boundary_conditions.
  rewrite run_get_bind, (getitem_ok _ _ _ Hp), run_lift_bind,
    (getitem_ok _ _ _ Hv), run_lift_bind.
  apply lookup_lt_Some in Hp. apply lookup_lt_Some in Hv.
  unfold bounce.
  destruct p as [[px p_y] pz], v as [[v_x v_y] v_z], (domain_size s) as [[lx ly] lz].
  cbn [fst snd].
  destruct (SPHSolver.bounce_axis px v_x lx) as [bx bvx].
  destruct (SPHSolver.bounce_axis p_y v_y ly) as [b_y bvy].
  destruct (SPHSolver.bounce_axis pz v_z lz) as [bz bvz].
  cbn [fst snd]. rewrite run_bind.
  rewrite assign_particles_ok by done. fields.
  by rewrite assign_particles_ok by (fields; done).
Qed.

Lemma bounce_axis_slows (p v extent : R) :
  Rabs (SPHSolver.bounce_axis p v extent).2 <= Rabs v.
Proof.
  unfold SPHSolver.bounce_axis, SPHSolver.damping.
  pose proof (Rabs_pos v) as Hv.
  repeat case_decide; cbn [snd]; [| |lra].
  - rewrite Rabs_mult, Rabs_Rabsolu, (Rabs_pos_eq 0.5) by lra. lra.
  - rewrite Rabs_mult, Rabs_Ropp, Rabs_Rabsolu, (Rabs_pos_eq 0.5) by lra. lra.
Qed.

Lemma bounce_in_box (p v extent : vec3) :
  roomy extent -> in_box (bounce p v extent).1 extent.
Proof.
  intros (Hx & Hy & Hz). unfold bounce, in_box. cbn [fst snd].
  repeat split; by apply bounce_axis_in_range.
Qed.

(** X23. Reflection at the walls.  In a domain whose extents are all at
    least [epsilon], [apply_boundary_conditions] on a slot holding
    position [p] and velocity [v] returns; afterwards the position lies
    in the domain box, no velocity component has grown in absolute
    value, and a particle that was inside the box already keeps its
    position and velocity.  No other slot is touched, and applying the
    method a second time changes nothing. *)
Theorem boundary_conditions_contract (s : SPHSolver) (i : nat) (p v : vec3) :
  positions (particles s) !! i = Some p ->
  velocities (particles s) !! i = Some v ->
  roomy (domain_size s) ->
  exists s1 p1 v1,
    SPHSolver.apply_boundary_conditions i s = (Ok tt, s1) /\
    positions (particles s1) !! i = Some p1 /\
    velocities (particles s1) !! i = Some v1 /\
    in_box p1 (domain_size s) /\
    Rabs v1.1.1 <= Rabs v.1.1 /\ Rabs v1.1.2 <= Rabs v.1.2 /\ Rabs v1.2 <= Rabs v.2 /\
    (in_box p (domain_size s) -> p1 = p /\ v1 = v) /\
    (forall j, j <> i ->
       positions (particles s1) !! j = positions (particles s) !! j /\
       velocities (particles s1) !! j = velocities (particles s) !! j) /\
    SPHSolver.apply_boundary_conditions i s1 = (Ok tt, s1).
Proof.
  intros Hp Hv Hroomy.
  pose proof (lookup_lt_Some _ _ _ Hp) as Hpl.
  pose proof (lookup_lt_Some _ _ _ Hv) as Hvl.
  set (p1 := (bounce p v (domain_size s)).1).
  set (v1 := (bounce p v (domain_size s)).2).
  exists (with_motion (<[i := p1]> (positions (particles s)))
            (<[i := v1]> (velocities (particles s))) s), p1, v1.
  pose proof (bounce_in_box p v (domain_size s) Hroomy) as Hin. fold p1 in Hin.
  split; [by apply apply_boundary_conditions_spec|].
  unfold with_motion. fields.
  split; [by apply list_lookup_insert_eq|].
  split; [by apply list_lookup_insert_eq|].
  split; [done|].
  split; [apply bounce_axis_slows|]. split; [apply bounce_axis_slows|].
  split; [apply bounce_axis_slows|].
  split; [|split].
  - intros Hbox. unfold p1, v1. by rewrite bounce_inside.
  - intros j Hj. by rewrite !list_lookup_insert_ne by done.
  - rewrite (apply_boundary_conditions_spec _ i p1 v1);
      [| fields; by apply list_lookup_insert_eq | fields; by apply list_lookup_insert_eq].
    fields. rewrite (bounce_inside p1 v1) by done. cbn [fst snd].
    unfold with_motion. fields. by rewrite !list_insert_insert_eq.
Qed.

Definition escaped_particle_solver : SPHSolver :=
  single_particle_solver (1, 1, 1) 0.1 0.02 (0, -9.81, 0) 0.001
    (0.5, -0.2, 1.5) (1, -2, 3).

Lemma boundary_conditions_contract_witness :
  exists s1 p1 v1,
    SPHSolver.apply_boundary_conditions 0 escaped_particle_solver = (Ok tt, s1) /\
    positions (particles s1) !! 0%nat = Some p1 /\
    velocities (particles s1) !! 0%nat = Some v1 /\
    in_box p1 (domain_size escaped_particle_solver) /\
    Rabs v1.1.1 <= Rabs 1 /\ Rabs v1.1.2 <= Rabs (-2) /\ Rabs v1.2 <= Rabs 3 /\
    (in_box (0.5, -0.2, 1.5) (domain_size escaped_particle_solver) ->
       p1 = (0.5, -0.2, 1.5) /\ v1 = (1, -2, 3)) /\
    (forall j, j <> 0%nat ->
       positions (particles s1) !! j
         = positions (particles escaped_particle_solver) !! j /\
       velocities (particles s1) !! j
         = velocities (particles escaped_particle_solver) !! j) /\
    SPHSolver.apply_boundary_conditions 0 s1 = (Ok tt, s1).
Proof.
  apply (boundary_conditions_contract escaped_particle_solver 0
           (0.5, -0.2, 1.5) (1, -2, 3)).
  - reflexivity.
  - reflexivity.
  - unfold roomy, SPHSolver.epsilon. simpl. lra.
Defined.

(* ------------------------------------------------------------------ *)
(** ** Insertion helper: where the particles go and how it fails *)

(** A loop with a loop-carried value that keeps [J], also when it
    raises. *)
Lemma wpe_foldM_inv {S A B} (J : S -> Prop) (E : exn -> S -> Prop)
    (f : B -> A -> M S B) (l : list A) :
  (forall b a s, J s -> wpe (f b a) (fun _ s' => J s') E s) ->
  forall b s, J s -> wpe (foldM f l b) (fun _ s' => J s') E s.
Proof.
  intros Hf. induction l as [|a l IH]; intros b s Hs; simpl.
  - by apply wpe_ret.
  - apply wpe_bind. eapply wpe_mono; [by apply Hf | | done].
    intros b' s' Hs'. by apply IH.
Qed.

Lemma clip_in_range (x extent : R) : 0 <= extent -> 0 <= clip x 0 extent <= extent.
Proof.
  intros He. unfold clip, Rmin, Rmax.
  repeat destruct (Rle_dec _ _); lra.
Qed.

(** The state of a solver that [add_fluid_box] fills: well-formed, with
    every stored particle live and inside the box [extent]. *)
Definition filling (extent : vec3) (capacity : Z) (s : SPHSolver) : Prop :=
  well_formed s /\
  n_active s = n_particles (particles s) /\
  contained s /\
  domain_size s = extent /\
  max_particles (particles s) = capacity.

Lemma set_particles_id (s : SPHSolver) : set_particles (particles s) s = s.
Proof. by destruct s. Qed.

(** [place] in a box with non-negative extents: it stores one more
    particle inside the box, or raises [RuntimeError] on a full store
    and changes nothing. *)
Lemma place_filling (extent : vec3) (capacity : Z) (position : vec3) (spacing : R)
    (fluid_properties : FluidProperties) (jit : vec3) (i j k : nat) (s : SPHSolver) :
  0 <= extent.1.1 -> 0 <= extent.1.2 -> 0 <= extent.2 ->
  filling extent capacity s ->
  wpe (SPHSolver.place position spacing fluid_properties jit i j k)
    (fun _ s' => filling extent capacity s' /\
                 n_active s' = (n_active s + 1)%nat /\
                 forall q, (q < n_active s)%nat ->
                   row (particles s') q = row (particles s) q)
    (fun e s' => s' = s /\ e = RuntimeError /\
                 n_particles (particles s) = Z.to_nat capacity)
    s.
Proof.
  intros Hx Hy Hz (Hwf & Hsync & Hin & Hdom & Hcap).
  pose proof Hwf as (Hshape & Hn & Hcell).
  unfold wpe, SPHSolver.place. rewrite run_get_bind.
  destruct (vadd _ _) as [[px p_y] pz]. rewrite Hdom.
  destruct extent as [[lx ly] lz]. cbn [fst snd] in Hx, Hy, Hz.
  rewrite run_bind. unfold zoom at 1.
  destruct (decide (Z.of_nat (n_particles (particles s)) >= max_particles (particles s))%Z)
    as [Hfull|Hroom].
  - rewrite add_particle_at_capacity by done. rewrite set_particles_id.
    split; [done|]. split; [done|]. lia.
  - match goal with |- context [ParticleSystem.add_particle ?a ?b ?c ?d ?e] =>
      destruct (add_particle_frame (particles s) a b c d e Hshape)
        as (p' & Hadd & Hshape' & Hcount & Hmax & Hnew & Hframe); [lia|]
    end.
    rewrite Hadd. unfold modify. fields.
    split; [|split; [done|]].
    + unfold filling, well_formed, contained. fields.
      split; [split; [done|]; split; [lia | done]|].
      split; [lia|]. split; [|split; [done | congruence]].
      intros q pq Hq Hpq. rewrite Hdom.
      destruct (decide (q = n_particles (particles s))) as [->|Hne].
      * unfold row in Hnew. injection Hnew as Hpos _ _ _ _ _ _ _.
        rewrite Hpos in Hpq. injection Hpq as <-.
        unfold in_box. cbn [fst snd].
        repeat split; apply clip_in_range; done.
      * pose proof (Hframe q Hne) as Hrow.
        apply row_positions in Hrow as [Hrow _].
        rewrite Hrow in Hpq. rewrite <- Hdom. apply (Hin q); [lia | done].
    + intros q Hq. apply Hframe. lia.
Qed.

Section filling_a_box.
Variables (extent : vec3) (capacity : Z) (s0 : SPHSolver).
Hypothesis extent_x : 0 <= extent.1.1.
Hypothesis extent_y : 0 <= extent.1.2.
Hypothesis extent_z : 0 <= extent.2.

(** Reached from [s0] by placing particles: the particles of [s0] are
    still there, and the new ones lie in the box as well. *)
Definition grown (s : SPHSolver) : Prop :=
  filling extent capacity s /\
  (n_active s0 <= n_active s)%nat /\
  forall q, (q < n_active s0)%nat -> row (particles s) q = row (particles s0) q.

(** Stopped by a full store. *)
Definition stopped (e : exn) (s : SPHSolver) : Prop :=
  grown s /\ e = RuntimeError /\ n_particles (particles s) = Z.to_nat capacity.

Lemma place_grown (position : vec3) (spacing : R) (fluid_properties : FluidProperties)
    (jit : vec3) (i j k : nat) (s : SPHSolver) :
  grown s ->
  wpe (SPHSolver.place position spacing fluid_properties jit i j k)
    (fun _ s' => grown s') stopped s.
Proof.
  intros (Hfill & Hle & Hrows).
  eapply wpe_mono;
    [exact (place_filling extent capacity position spacing fluid_properties jit i j k s
              extent_x extent_y extent_z Hfill) | |].
  - intros [] s' (Hfill' & Hn' & Hrows'). split; [done|]. split; [lia|].
    intros q Hq. rewrite Hrows' by lia. by apply Hrows.
  - intros e s' (-> & -> & Hfull).
    split; [|by split]. split; [done|]. by split.
Qed.

Lemma fill_row_grown (position : vec3) (spacing : R) (n_particles0 : Z)
    (fluid_properties : FluidProperties) (jitter : nat -> vec3) (i j : nat)
    (ks : list nat) :
  forall count s, grown s ->
    wpe (SPHSolver.fill_row position spacing n_particles0 fluid_properties jitter
           i j ks count)
      (fun _ s' => grown s') stopped s.
Proof.
  induction ks as [|k ks IH]; intros count s Hs; simpl.
  - by apply wpe_ret.
  - case_decide; [by apply wpe_ret|].
    apply wpe_bind. eapply wpe_mono; [by apply place_grown | | done].
    intros [] s' Hs'. by apply IH.
Qed.

Lemma fill_box_grown (position : vec3) (spacing : R) (n_particles0 : Z)
    (fluid_properties : FluidProperties) (jitter : nat -> vec3) (nx ny nz : Z)
    (s : SPHSolver) :
  grown s ->
  wpe (SPHSolver.fill_box position spacing n_particles0 fluid_properties jitter
         nx ny nz)
    (fun _ s' => grown s') stopped s.
Proof.
  intros Hs. unfold SPHSolver.fill_box.
  apply (wpe_foldM_inv grown); [|done].
  intros count i s1 Hs1. apply (wpe_foldM_inv grown); [|done].
  intros count' j s2 Hs2. by apply fill_row_grown.
Qed.
End filling_a_box.

Lemma lattice_spacing_raises (volume : R) (n : Z) (e : exn) :
  SPHSolver.lattice_spacing volume n = Raise e ->
  e = ZeroDivisionError \/ e = TypeError.
Proof.
  unfold SPHSolver.lattice_spacing, py_div.
  case_decide; [intros [= <-]; by left|].
  unfold mbind, result_bind. repeat case_decide; intros [= <-]. by right.
Qed.

Lemma lattice_dim_raises (size spacing : R) (e : exn) :
  SPHSolver.lattice_dim size spacing = Raise e -> e = ZeroDivisionError.
Proof.
  unfold SPHSolver.lattice_dim, py_div.
  case_decide; [by intros [= <-]|]. unfold mbind, result_bind. done.
Qed.

(** [add_fluid_box] from a solver whose stored particles are all live
    and inside a box with non-negative extents. *)
Lemma add_fluid_box_grown (s : SPHSolver) (position size : vec3) (n : Z)
    (fluid_properties : FluidProperties) (jitter : nat -> vec3) :
  0 <= (domain_size s).1.1 -> 0 <= (domain_size s).1.2 -> 0 <= (domain_size s).2 ->
  well_formed s -> n_active s = n_particles (particles s) -> contained s ->
  wpe (SPHSolver.add_fluid_box position size n fluid_properties jitter)
    (fun _ s' => grown (domain_size s) (max_particles (particles s)) s s')
    (fun e s' =>
       (s' = s /\ (e = ZeroDivisionError \/ e = TypeError)) \/
       stopped (domain_size s) (max_particles (particles s)) s e s')
    s.
Proof.
  intros Hx Hy Hz Hwf Hsync Hin.
  assert (grown (domain_size s) (max_particles (particles s)) s s) as Hs.
  { split; [|by split]. split; [done|]. split; [done|]. by split. }
  unfold SPHSolver.add_fluid_box. destruct size as [[sx sy] sz].
  apply wpe_lift_bind; [intros spacing _|].
  2:{ intros e He. left. split; [done|]. by eapply lattice_spacing_raises. }
  apply wpe_lift_bind; [intros nx _|].
  2:{ intros e He. left. split; [done|]. left. by eapply lattice_dim_raises. }
  apply wpe_lift_bind; [intros ny _|].
  2:{ intros e He. left. split; [done|]. left. by eapply lattice_dim_raises. }
  apply wpe_lift_bind; [intros nz _|].
  2:{ intros e He. left. split; [done|]. left. by eapply lattice_dim_raises. }
  apply wpe_bind.
  eapply wpe_mono; [by apply fill_box_grown | |].
  - intros count s' Hs'. by apply wpe_ret.
  - intros e s' He. by right.
Qed.

(** X24. [add_fluid_box] keeps the fluid inside the domain.  Take a
    well-formed solver whose stored particles are all live and inside
    the domain box, with non-negative domain extents.  However
    [add_fluid_box] ends, by returning or by raising, the solver is
    still of that kind: every new particle has been clipped into the
    box.  The particles that were live before are untouched, in all
    eight arrays, and none has been removed. *)
Theorem add_fluid_box_stays_inside (s : SPHSolver) (position size : vec3) (n : Z)
    (fluid_properties : FluidProperties) (jitter : nat -> vec3)
    (r : result unit) (s' : SPHSolver) :
  0 <= (domain_size s).1.1 -> 0 <= (domain_size s).1.2 -> 0 <= (domain_size s).2 ->
  well_formed s -> n_active s = n_particles (particles s) -> contained s ->
  SPHSolver.add_fluid_box position size n fluid_properties jitter s = (r, s') ->
  well_formed s' /\
  n_active s' = n_particles (particles s') /\
  contained s' /\
  domain_size s' = domain_size s /\
  (n_active s <= n_active s')%nat /\
  forall q, (q < n_active s)%nat -> row (particles s') q = row (particles s) q.
Proof.
  intros Hx Hy Hz Hwf Hsync Hin Hrun.
  pose proof (add_fluid_box_grown s position size n fluid_properties jitter
                Hx Hy Hz Hwf Hsync Hin) as Hwp.
  unfold wpe in Hwp. rewrite Hrun in Hwp.
  assert (grown (domain_size s) (max_particles (particles s)) s s') as Hgrown.
  { destruct r as [[]|e]; [done|].
    destruct Hwp as [[-> _]|[Hg _]]; [|done].
    split; [|by split]. split; [done|]. split; [done|]. by split. }
  destruct Hgrown as ((Hwf' & Hsync' & Hin' & Hdom' & _) & Hle & Hrows).
  done.
Qed.

(** X25. How [add_fluid_box] fails.  From a well-formed solver whose
    stored particles are all live, a call that raises either raises
    [ZeroDivisionError] or [TypeError] from the lattice computation and
    leaves the solver as it was, or raises [RuntimeError] from a full
    store: then the particles placed so far stay, and the store is
    filled to its capacity. *)
Theorem add_fluid_box_failures (s : SPHSolver) (position size : vec3) (n : Z)
    (fluid_properties : FluidProperties) (jitter : nat -> vec3)
    (e : exn) (s' : SPHSolver) :
  0 <= (domain_size s).1.1 -> 0 <= (domain_size s).1.2 -> 0 <= (domain_size s).2 ->
  well_formed s -> n_active s = n_particles (particles s) -> contained s ->
  SPHSolver.add_fluid_box position size n fluid_properties jitter s = (Raise e, s') ->
  (s' = s /\ (e = ZeroDivisionError \/ e = TypeError)) \/
  (e = RuntimeError /\
   n_particles (particles s') = Z.to_nat (max_particles (particles s)) /\
   n_active s' = Z.to_nat (max_particles (particles s)) /\
   (n_active s <= n_active s')%nat).
Proof.
  intros Hx Hy Hz Hwf Hsync Hin Hrun.
  pose proof (add_fluid_box_grown s position size n fluid_properties jitter
                Hx Hy Hz Hwf Hsync Hin) as Hwp.
  unfold wpe in Hwp. rewrite Hrun in Hwp.
  destruct Hwp as [?|(((_ & Hsync' & _) & Hle & _) & -> & Hfull)]; [by left|].
  right. split; [done|]. split; [done|]. split; [congruence | done].
Qed.

Lemma empty_solver_contained : contained empty_solver.
Proof. intros i p Hi. simpl in Hi. lia. Qed.

Lemma empty_solver_well_formed : well_formed empty_solver.
Proof. repeat split; try reflexivity. simpl. lia. Qed.

Lemma add_fluid_box_stays_inside_witness :
  exists r s',
    SPHSolver.add_fluid_box (0.3, 0.3, 0.3) (0.4, 0.4, 0.4) 64
      (mkFluidProperties None None) (fun _ => (0, 0, 0)) empty_solver = (r, s') /\
    well_formed s' /\
    n_active s' = n_particles (particles s') /\
    contained s' /\
    domain_size s' = domain_size empty_solver /\
    (n_active empty_solver <= n_active s')%nat /\
    forall q, (q < n_active empty_solver)%nat ->
      row (particles s') q = row (particles empty_solver) q.
Proof.
  destruct (SPHSolver.add_fluid_box (0.3, 0.3, 0.3) (0.4, 0.4, 0.4) 64
              (mkFluidProperties None None) (fun _ => (0, 0, 0)) empty_solver)
    as [r s'] eqn:Hrun.
  exists r, s'. split; [done|].
  apply (add_fluid_box_stays_inside empty_solver (0.3, 0.3, 0.3) (0.4, 0.4, 0.4) 64
           (mkFluidProperties None None) (fun _ => (0, 0, 0)) r s').
  - simpl. lra.
  - simpl. lra.
  - simpl. lra.
  - apply empty_solver_well_formed.
  - reflexivity.
  - apply empty_solver_contained.
  - exact Hrun.
Defined.

(** Without a target count the spacing cannot be computed. *)
Lemma add_fluid_box_no_particles (s : SPHSolver) (position size : vec3)
    (fluid_properties : FluidProperties) (jitter : nat -> vec3) :
  SPHSolver.add_fluid_box position size 0 fluid_properties jitter s
  = (Raise ZeroDivisionError, s).
Proof.
  unfold SPHSolver.add_fluid_box. destruct size as [[sx sy] sz].
  unfold SPHSolver.lattice_spacing, py_div. by rewrite decide_True.
Qed.

Lemma add_fluid_box_failures_witness :
  (empty_solver = empty_solver /\
   (ZeroDivisionError = ZeroDivisionError \/ ZeroDivisionError = TypeError)) \/
  (ZeroDivisionError = RuntimeError /\
   n_particles (particles empty_solver)
     = Z.to_nat (max_particles (particles empty_solver)) /\
   n_active empty_solver = Z.to_nat (max_particles (particles empty_solver)) /\
   (n_active empty_solver <= n_active empty_solver)%nat).
Proof.
  apply (add_fluid_box_failures empty_solver (0.3, 0.3, 0.3) (0.4, 0.4, 0.4) 0
           (mkFluidProperties None None) (fun _ => (0, 0, 0))
           ZeroDivisionError empty_solver).
  - simpl. lra.
  - simpl. lra.
  - simpl. lra.
  - apply empty_solver_well_formed.
  - reflexivity.
  - apply empty_solver_contained.
  - apply add_fluid_box_no_particles.
Defined.

Lemma lattice_spacing_zero_volume (n : Z) :
  n <> 0%Z -> SPHSolver.lattice_spacing 0 n = Ok 0.
Proof.
  intros Hn. unfold SPHSolver.lattice_spacing, py_div.
  rewrite decide_False by (by apply not_0_IZR).
  unfold mbind, result_bind.
  replace (0 / IZR n) with 0 by (unfold Rdiv; ring).
  rewrite decide_False by lra. by rewrite decide_True.
Qed.

Lemma lattice_spacing_negative (volume : R) (n : Z) :
  n <> 0%Z -> volume / IZR n < 0 ->
  SPHSolver.lattice_spacing volume n = Raise TypeError.
Proof.
  intros Hn Hq. unfold SPHSolver.lattice_spacing, py_div.
  rewrite decide_False by (by apply not_0_IZR).
  unfold mbind, result_bind. by rewrite decide_True.
Qed.

(** X26. Degenerate boxes are refused before anything is placed.  A
    target count of 0 or a box of zero volume makes [add_fluid_box]
    raise [ZeroDivisionError], and a negative volume per particle makes
    it raise [TypeError]; in each case the solver is left as it was. *)
Theorem add_fluid_box_rejects_degenerate_boxes (s : SPHSolver) (position : vec3)
    (sx sy sz : R) (n : Z) (fluid_properties : FluidProperties)
    (jitter : nat -> vec3) :
  (n = 0%Z \/ sx * sy * sz = 0 ->
     SPHSolver.add_fluid_box position (sx, sy, sz) n fluid_properties jitter s
       = (Raise ZeroDivisionError, s)) /\
  (n <> 0%Z -> sx * sy * sz / IZR n < 0 ->
     SPHSolver.add_fluid_box position (sx, sy, sz) n fluid_properties jitter s
       = (Raise TypeError, s)).
Proof.
  split.
  - intros [->|Hvol]; [apply add_fluid_box_no_particles|].
    destruct (decide (n = 0%Z)) as [->|Hn]; [apply add_fluid_box_no_particles|].
    unfold SPHSolver.add_fluid_box. rewrite Hvol.
    rewrite lattice_spacing_zero_volume, run_lift_bind by done.
    unfold SPHSolver.lattice_dim, py_div. rewrite !decide_True by done.
    reflexivity.
  - intros Hn Hq. unfold SPHSolver.add_fluid_box.
    rewrite lattice_spacing_negative by done. reflexivity.
Qed.

Lemma add_fluid_box_rejects_degenerate_boxes_witness :
  SPHSolver.add_fluid_box (0.3, 0.3, 0.3) (0.4, 0, 0.4) 64
    (mkFluidProperties None None) (fun _ => (0, 0, 0)) empty_solver
    = (Raise ZeroDivisionError, empty_solver) /\
  SPHSolver.add_fluid_box (0.3, 0.3, 0.3) (0.4, 0.4, 0.4) (-64)
    (mkFluidProperties None None) (fun _ => (0, 0, 0)) empty_solver
    = (Raise TypeError, empty_solver).
Proof.
  split.
  - apply (add_fluid_box_rejects_degenerate_boxes empty_solver (0.3, 0.3, 0.3)
             0.4 0 0.4 64). right. lra.
  - apply (add_fluid_box_rejects_degenerate_boxes empty_solver (0.3, 0.3, 0.3)
             0.4 0.4 0.4 (-64)); [lia | lra].
Defined.

(** X27. How many particles [add_fluid_box] places.  Let the lattice
    computation, on binary64 numbers, return the spacing and the
    dimensions [nx], [ny], [nz], each at least 1.  On a well-formed
    solver with room for [n] more particles the lattice loops return and
    place [min(nx * ny * nz, n)] particles, none for [n <= 0]: never more
    than [n], and at least one when [n] is positive. *)
Theorem add_fluid_box_count
    (pow : PrimFloat.float -> PrimFloat.float -> PrimFloat.float)
    (s : SPHSolver) (position : vec3)
    (size : PrimFloat.float * PrimFloat.float * PrimFloat.float) (n : Z)
    (fluid_properties : FluidProperties) (jitter : nat -> vec3)
    (spacing : PrimFloat.float) (nx ny nz : Z) :
  well_formed s ->
  (n_particles (particles s) + Z.to_nat n <= Z.to_nat (max_particles (particles s)))%nat ->
  (n_active s + Z.to_nat n <= Z.to_nat (max_particles (particles s)))%nat ->
  Binary64.lattice pow size n = Ok (spacing, nx, ny, nz) ->
  let placed := Nat.min (Z.to_nat nx * (Z.to_nat ny * Z.to_nat nz)) (Z.to_nat n) in
  (1 <= nx)%Z /\ (1 <= ny)%Z /\ (1 <= nz)%Z /\
  (placed <= Z.to_nat n)%nat /\
  ((0 < n)%Z -> (1 <= placed)%nat) /\
  exists s',
    Binary64.add_fluid_box pow position size n fluid_properties jitter s
      = (Ok tt, s') /\
    n_active s' = (n_active s + placed)%nat /\
    n_particles (particles s') = (n_particles (particles s) + placed)%nat /\
    well_formed s'.
Proof.
  intros Hwf Hstored Hlive Hlattice placed.
  destruct (Binary64.lattice_dims_at_least_one _ _ _ _ _ _ _ Hlattice) as (Hx & Hy & Hz).
  repeat (split; [done|]). split; [subst placed; lia|]. split.
  { intros Hn. subst placed.
    assert (1 <= Z.to_nat nx * (Z.to_nat ny * Z.to_nat nz))%nat by nia. lia. }
  unfold Binary64.add_fluid_box. rewrite Hlattice, run_lift_bind.
  destruct (fill_box_count position (Binary64.to_R spacing) n fluid_properties
              jitter (n_particles (particles s)) (n_active s)
              (max_particles (particles s)) Hstored Hlive nx ny nz s)
    as (s' & Hrun & Hwf' & _ & Hstored' & Hlive').
  { unfold filled. split; [done|]. split; [done|]. split; simpl; lia. }
  rewrite (run_bind_ok _ _ _ _ _ Hrun).
  exists s'. split; [done|]. split; [exact Hlive'|]. split; [exact Hstored' | exact Hwf'].
Qed.

(** The box of sides 0.4, 0.2 and 0.1 with a target of 8 particles: the
    lattice is 3 x 1 x 1 and three particles are placed. *)
Lemma add_fluid_box_count_witness :
  (1 <= 3)%Z /\ (1 <= 1)%Z /\ (1 <= 1)%Z /\
  (Nat.min (Z.to_nat 3 * (Z.to_nat 1 * Z.to_nat 1)) (Z.to_nat 8) <= Z.to_nat 8)%nat /\
  ((0 < 8)%Z ->
   (1 <= Nat.min (Z.to_nat 3 * (Z.to_nat 1 * Z.to_nat 1)) (Z.to_nat 8))%nat) /\
  exists s',
    Binary64.add_fluid_box (fun _ _ => Binary64.above_tenth) (0.3, 0.3, 0.3)
      Binary64.slab 8 (mkFluidProperties None None) (fun _ => (0, 0, 0)) empty_solver
      = (Ok tt, s') /\
    n_active s' = (n_active empty_solver + 3)%nat /\
    n_particles (particles s') = (n_particles (particles empty_solver) + 3)%nat /\
    well_formed s'.
Proof.
  apply (add_fluid_box_count (fun _ _ => Binary64.above_tenth) empty_solver
           (0.3, 0.3, 0.3) Binary64.slab 8 (mkFluidProperties None None)
           (fun _ => (0, 0, 0)) Binary64.above_tenth 3 1 1).
  - repeat split; try reflexivity. simpl. lia.
  - simpl. lia.
  - simpl. lia.
  - exact Binary64.lattice_of_slab.
Defined.

(** X28. From construction to simulation, the fluid stays in the
    domain.  Construct a solver whose domain extents are all at least
    [epsilon], insert a fluid box and run any number of steps: however
    the insertion and the steps end, by returning or by raising, every
    live particle lies in the domain box, and the steps have neither
    added nor removed a particle. *)
Theorem constructed_fluid_stays_inside (extent : vec3)
    (smoothing_length mass rho0 stiffness mu : R) (g : vec3) (time_step : R)
    (capacity : Z) (s0 : SPHSolver)
    (position size : vec3) (n : Z) (fluid_properties : FluidProperties)
    (jitter : nat -> vec3) (r1 : result unit) (s1 : SPHSolver)
    (k : nat) (r2 : result unit) (s2 : SPHSolver) :
  roomy extent ->
  SPHSolver.init extent smoothing_length mass rho0 stiffness mu g time_step capacity
    = Ok s0 ->
  SPHSolver.add_fluid_box position size n fluid_properties jitter s0 = (r1, s1) ->
  SPHSolver.steps k s1 = (r2, s2) ->
  contained s1 /\ contained s2 /\ n_active s2 = n_active s1 /\
  domain_size s2 = extent.
Proof.
  intros Hroomy Hinit Hfill Hsteps.
  unfold SPHSolver.init, ParticleSystem.init in Hinit.
  case_decide as Hcap; [done|]. unfold mbind, result_bind in Hinit.
  injection Hinit as <-.
  pose proof Hroomy as (Hx & Hy & Hz). unfold SPHSolver.epsilon in Hx, Hy, Hz.
  match type of Hfill with SPHSolver.add_fluid_box _ _ _ _ _ ?s = _ =>
    pose proof (add_fluid_box_grown s position size n fluid_properties jitter) as Hwp
  end.
  unfold wpe in Hwp. rewrite Hfill in Hwp. cbn [domain_size] in Hwp.
  match type of Hwp with _ -> _ -> _ -> well_formed ?s -> _ =>
    assert (well_formed s) as Hwf0
      by (repeat split; simpl; try apply length_replicate; lia)
  end.
  specialize (Hwp ltac:(lra) ltac:(lra) ltac:(lra) Hwf0 eq_refl).
  match type of Hwp with contained ?s -> _ =>
    assert (contained s) as Hin0 by (intros i p Hi; simpl in Hi; lia)
  end.
  specialize (Hwp Hin0).
  assert (contained s1 /\ domain_size s1 = extent) as [Hin1 Hdom1].
  { destruct r1 as [[]|e].
    - destruct Hwp as ((_ & _ & ? & ? & _) & _). done.
    - destruct Hwp as [[-> _]|(((_ & _ & ? & ? & _) & _) & _)]; done. }
  split; [done|].
  pose proof (steps_boxed s1 k) as Hboxed.
  unfold wpe in Hboxed. rewrite Hsteps in Hboxed.
  assert (boxed s1 s2) as (Hn2 & Hd2 & Hin2).
  { destruct r2; apply Hboxed; by rewrite ?Hdom1. }
  split; [done|]. split; [done|]. congruence.
Qed.

Lemma constructed_fluid_stays_inside_witness :
  exists s0 r1 s1 r2 s2,
    SPHSolver.init (1, 1, 1) 0.05 0.02 1000 2000 0.001 (0, -9.81, 0) 0.001 1000
      = Ok s0 /\
    SPHSolver.add_fluid_box (0.3, 0.3, 0.3) (0.3, 0.3, 0.3) 50
      (mkFluidProperties None None) (fun _ => (0.05, -0.05, 0)) s0 = (r1, s1) /\
    SPHSolver.steps 10 s1 = (r2, s2) /\
    contained s1 /\ contained s2 /\ n_active s2 = n_active s1 /\
    domain_size s2 = (1, 1, 1).
Proof.
  destruct (SPHSolver.init (1, 1, 1) 0.05 0.02 1000 2000 0.001 (0, -9.81, 0) 0.001 1000)
    as [s0|e] eqn:Hinit; [|discriminate Hinit].
  destruct (SPHSolver.add_fluid_box (0.3, 0.3, 0.3) (0.3, 0.3, 0.3) 50
              (mkFluidProperties None None) (fun _ => (0.05, -0.05, 0)) s0)
    as [r1 s1] eqn:Hfill.
  destruct (SPHSolver.steps 10 s1) as [r2 s2] eqn:Hsteps.
  exists s0, r1, s1, r2, s2. split; [done|]. split; [done|]. split; [done|].
  apply (constructed_fluid_stays_inside (1, 1, 1) 0.05 0.02 1000 2000 0.001
           (0, -9.81, 0) 0.001 1000 s0 (0.3, 0.3, 0.3) (0.3, 0.3, 0.3) 50
           (mkFluidProperties None None) (fun _ => (0.05, -0.05, 0)) r1 s1 10 r2 s2).
  - unfold roomy, SPHSolver.epsilon. simpl. lra.
  - exact Hinit.
  - exact Hfill.
  - exact Hsteps.
Defined.

(* ------------------------------------------------------------------ *)
(** ** Solver: the statistics of [get_info] *)











